(** * tx2uml: trace flattening, revert-reason decoding and the Alethio client

    A shallow embedding of the TypeScript/JavaScript sources

      - [lib/clients/AlethioClient.js]  (module [AlethioClient])
      - [clients/GethClient.ts]         (module [GethClient])

    together with the few JavaScript builtins and [ethers] library
    functions they call (modules [JS] and [Ethers]).

    Conventions.
      - A JavaScript string is a Rocq [string], one [ascii] per UTF-16 code
        unit; this covers every string whose code units are below 256, in
        particular hexadecimal payloads, addresses and message-type tags.
        The text decoded by [toUtf8String] is the list of its Unicode code
        points.
      - A JavaScript number holding an integer is a [Z]; [NaN] is [None]
        where a builtin can produce it.  The counters of the flattener
        stay far below 2^53, where doubles are exact; the result of
        [parseInt] is used only as a bound of [slice], which clamps it to
        the length of the string, so that rounding it to a double changes
        nothing.
      - An optional property ([from?: string]) is an [option]; [None] is
        [undefined].
      - A thrown exception is [Throw e]; [async] functions are modelled by
        their sequential behaviour, a rejected promise being a [Throw]. *)

From Stdlib Require Import ZArith String Ascii List Lia Bool.
From stdpp Require Import base list sorting.
Import ListNotations.

#[global] Set Warnings "-register-all".
#[local] Open Scope string_scope.
#[local] Open Scope list_scope.
#[local] Open Scope Z_scope.

(** ** Exceptions and results *)

Inductive JsError : Type :=
| TypeError (message : string)
| SyntaxError (message : string)
| Error (message : string)
| VError (cause : JsError) (message : string).

Inductive result (A : Type) : Type :=
| Ok (a : A)
| Throw (e : JsError).
Arguments Ok {A} a.
Arguments Throw {A} e.

Definition bind {A B : Type} (r : result A) (k : A -> result B) : result B :=
  match r with
  | Ok a => k a
  | Throw e => Throw e
  end.

Notation "'let*' x ':=' e 'in' k" := (bind e (fun x => k))
  (at level 10, x pattern, e at level 100, k at level 200).

(** [try { body } catch (err) { throw wrap(err) }] *)
Definition try_catch {A : Type} (body : result A) (wrap : JsError -> JsError) : result A :=
  match body with
  | Ok a => Ok a
  | Throw e => Throw (wrap e)
  end.

(** ** JavaScript builtins *)

Module JS.

(** Truthiness of an optional string: [undefined] and the empty string are
    falsy. *)
Definition truthy (v : option string) : bool :=
  match v with
  | Some s => negb (s =? "")%string
  | None => false
  end.

Definition code (c : ascii) : Z := Z.of_nat (nat_of_ascii c).

(** Value of a hexadecimal digit, in either case. *)
Definition hex_digit (c : ascii) : option Z :=
  let n := code c in
  if (48 <=? n) && (n <=? 57) then Some (n - 48)
  else if (97 <=? n) && (n <=? 102) then Some (n - 87)
  else if (65 <=? n) && (n <=? 70) then Some (n - 55)
  else None.

Definition digit_in (radix : Z) (c : ascii) : option Z :=
  match hex_digit c with
  | Some d => if d <? radix then Some d else None
  | None => None
  end.

(** The value of a string made only of digits of the radix. *)
Fixpoint all_digits (radix : Z) (acc : Z) (s : string) : option Z :=
  match s with
  | EmptyString => Some acc
  | String c s' =>
      match digit_in radix c with
      | Some d => all_digits radix (acc * radix + d) s'
      | None => None
      end
  end.

(** The value of the longest prefix of digits of the radix. *)
Fixpoint leading_digits (radix : Z) (acc : Z) (s : string) : Z :=
  match s with
  | EmptyString => acc
  | String c s' =>
      match digit_in radix c with
      | Some d => leading_digits radix (acc * radix + d) s'
      | None => acc
      end
  end.

Definition starts_with_digit (radix : Z) (s : string) : bool :=
  match s with
  | String c _ => match digit_in radix c with Some _ => true | None => false end
  | EmptyString => false
  end.

(** White space and line terminators among the code units below 256. *)
Definition is_white_space (c : ascii) : bool :=
  let n := code c in
  ((9 <=? n) && (n <=? 13)) || (n =? 32) || (n =? 160).

Fixpoint trim_start (s : string) : string :=
  match s with
  | String c s' => if is_white_space c then trim_start s' else s
  | EmptyString => EmptyString
  end.

(** [s.slice(start, end)]: negative positions count from the end, both are
    clamped to the string, and a [NaN] position is 0. *)
Definition clamp (len : Z) (pos : option Z) : Z :=
  match pos with
  | None => 0
  | Some p => if p <? 0 then Z.max (len + p) 0 else Z.min p len
  end.

Definition slice (s : string) (start stop : option Z) : string :=
  let len := Z.of_nat (String.length s) in
  let from := clamp len start in
  let to := clamp len stop in
  substring (Z.to_nat from) (Z.to_nat (Z.max (to - from) 0)) s.

(** [parseInt(s, 16)]: leading white space, an optional sign, an optional
    [0x]/[0X], then the longest run of hexadecimal digits; [NaN] when that
    run is empty. *)
Definition strip_sign (s : string) : bool * string :=
  match s with
  | String "-" s' => (true, s')
  | String "+" s' => (false, s')
  | _ => (false, s)
  end.

Definition strip_0x (s : string) : string :=
  match s with
  | String "0" (String "x" s') => s'
  | String "0" (String "X" s') => s'
  | _ => s
  end.

Definition parseInt16 (s : string) : option Z :=
  let '(negative, s1) := strip_sign (trim_start s) in
  let s2 := strip_0x s1 in
  if starts_with_digit 16 s2
  then Some (if negative then - leading_digits 16 0 s2 else leading_digits 16 0 s2)
  else None.

Fixpoint trim_end (s : string) : string :=
  match s with
  | String c s' =>
      match trim_end s' with
      | EmptyString => if is_white_space c then EmptyString else String c EmptyString
      | t => String c t
      end
  | EmptyString => EmptyString
  end.

(** A value read from a JSON document, as far as the clients inspect it. *)
Inductive JsValue : Type :=
| JsUndefined
| JsNumber (n : Z)
| JsString (s : string).

Definition nonempty (s : string) : bool :=
  match s with
  | EmptyString => false
  | String _ _ => true
  end.

(** [BigInt(v)]: an integral number converts to itself; a string is
    trimmed and read as an optionally signed decimal literal or an unsigned
    [0x], [0o] or [0b] literal, the empty string being zero; anything else
    throws, with the message of the V8 engine. *)
Definition StringToBigInt (s : string) : option Z :=
  match trim_end (trim_start s) with
  | EmptyString => Some 0
  | String "0" (String "x" t) | String "0" (String "X" t) =>
      if nonempty t then all_digits 16 0 t else None
  | String "0" (String "o" t) | String "0" (String "O" t) =>
      if nonempty t then all_digits 8 0 t else None
  | String "0" (String "b" t) | String "0" (String "B" t) =>
      if nonempty t then all_digits 2 0 t else None
  | String "-" t => if nonempty t then option_map Z.opp (all_digits 10 0 t) else None
  | String "+" t => if nonempty t then all_digits 10 0 t else None
  | t => all_digits 10 0 t
  end.

Definition BigInt (v : JsValue) : result Z :=
  match v with
  | JsNumber n => Ok n
  | JsString s =>
      match StringToBigInt s with
      | Some n => Ok n
      | None => Throw (SyntaxError ("Cannot convert " ++ s ++ " to a BigInt"))
      end
  | JsUndefined => Throw (TypeError "Cannot convert undefined to a BigInt")
  end.

(** [s.split(sep).pop()]: what follows the last separator, the whole
    string when there is none. *)
Fixpoint split_pop (sep : ascii) (s : string) : string :=
  match s with
  | EmptyString => EmptyString
  | String c s' =>
      if existsb (Ascii.eqb sep) (list_ascii_of_string s')
      then split_pop sep s'
      else if Ascii.eqb c sep then s' else s
  end.

(** A string between double quotes. *)
Definition quoted (s : string) : string :=
  String (ascii_of_nat 34) (s ++ String (ascii_of_nat 34) EmptyString).

(** How a template literal prints an optional string. *)
Definition show (v : option string) : string :=
  match v with
  | Some s => s
  | None => "undefined"
  end.

(** What [object[key]] finds on an object literal whose own properties are
    strings: an own property, or what the literal inherits from
    [Object.prototype], namely a builtin function (known by the name it
    prints) or, under [__proto__], the prototype itself. *)
Inductive Property : Type :=
| Own (s : string)
| Builtin (name : string)
| Prototype
| Undefined.

(** The properties of [Object.prototype]. *)
Definition Object_prototype (key : string) : Property :=
  if (key =? "constructor")%string then Builtin "Object"
  else if existsb (String.eqb key)
            ["__defineGetter__"; "__defineSetter__"; "hasOwnProperty";
             "__lookupGetter__"; "__lookupSetter__"; "isPrototypeOf";
             "propertyIsEnumerable"; "toString"; "valueOf"; "toLocaleString"]
  then Builtin key
  else if (key =? "__proto__")%string then Prototype
  else Undefined.

(** How a template literal prints what it found, in the V8 engine. *)
Definition template (p : Property) : string :=
  match p with
  | Own s => s
  | Builtin name => "function " ++ name ++ "() { [native code] }"
  | Prototype => "[object Object]"
  | Undefined => "undefined"
  end.

End JS.

(** ** The HTTP collaborator ([axios])

    The network is a script of replies consumed in order; every request
    sent is recorded.  A request made when the script is exhausted is
    rejected. *)

Module Axios.

Record Request : Type := mkRequest {
  method : string;
  url : string;
  params : list (string * JS.JsValue);
  authorization : option string }.

Inductive Reply (R : Type) : Type :=
| Resolve (response : R)
| Reject (e : JsError).
Arguments Resolve {R} response.
Arguments Reject {R} e.

Record World (R : Type) : Type := mkWorld {
  pending : list (Reply R);
  sent : list Request;
  defaults_Authorization : option string }.
Arguments mkWorld {R}.
Arguments pending {R}.
Arguments sent {R}.
Arguments defaults_Authorization {R}.

(** Computations that talk to the network and may throw. *)
Definition IO (R A : Type) : Type := World R -> result A * World R.

Definition ret {R A : Type} (a : A) : IO R A := fun w => (Ok a, w).
Definition throw {R A : Type} (e : JsError) : IO R A := fun w => (Throw e, w).
Definition lift {R A : Type} (r : result A) : IO R A := fun w => (r, w).

Definition iobind {R A B : Type} (m : IO R A) (k : A -> IO R B) : IO R B :=
  fun w =>
    match m w with
    | (Ok a, w') => k a w'
    | (Throw e, w') => (Throw e, w')
    end.

Definition catch {R A : Type} (m : IO R A) (handler : JsError -> IO R A) : IO R A :=
  fun w =>
    match m w with
    | (Ok a, w') => (Ok a, w')
    | (Throw e, w') => handler e w'
    end.

(** [axios.defaults.headers.common["Authorization"] = apiKey] *)
Definition set_Authorization {R : Type} (apiKey : string) : IO R unit :=
  fun w =>
    (Ok tt, {| pending := pending w; sent := sent w;
               defaults_Authorization := Some apiKey |}).

Definition request {R : Type} (method url : string) (params : list (string * JS.JsValue))
    : IO R R :=
  fun w =>
    let rq := {| method := method; url := url; params := params;
                 authorization := defaults_Authorization w |} in
    match pending w with
    | Resolve r :: rest =>
        (Ok r, {| pending := rest; sent := sent w ++ [rq];
                  defaults_Authorization := defaults_Authorization w |})
    | Reject e :: rest =>
        (Throw e, {| pending := rest; sent := sent w ++ [rq];
                     defaults_Authorization := defaults_Authorization w |})
    | [] =>
        (Throw (Error "Network Error"),
         {| pending := []; sent := sent w ++ [rq];
            defaults_Authorization := defaults_Authorization w |})
    end.

Definition get {R : Type} (url : string) (params : list (string * JS.JsValue)) : IO R R :=
  request "GET" url params.

Definition post {R : Type} (url : string) (body : list (string * JS.JsValue)) : IO R R :=
  request "POST" url body.

End Axios.

Notation "'let!' x ':=' e 'in' k" := (Axios.iobind e (fun x => k))
  (at level 10, x pattern, e at level 100, k at level 200).

(** ** Regular expressions ([regEx]) *)

Module RegEx.

(** Modelled from the spec: the constant [transactionHash] is declared in
    the module [regEx], which is not among the sources; the specification
    describes it as the format of a 32-byte hexadecimal value with a [0x]
    prefix, that is [0x] followed by exactly 64 hexadecimal digits.
    [transactionHash s] tells whether [s.match(transactionHash)] finds a
    match. *)
Definition transactionHash (s : string) : bool :=
  match s with
  | String "0" (String "x" hex) =>
      (String.length hex =? 64)%nat
      && forallb (fun c => match JS.hex_digit c with Some _ => true | None => false end)
           (list_ascii_of_string hex)
  | _ => false
  end.

End RegEx.

(** ** The message model ([transaction.ts]) *)

Module Transaction.

(** Modelled from the spec: the enum [MessageType] is declared in
    [transaction.ts], which is not among the sources; the specification
    lists its members as Call, Value, Create, Selfdestruct, DelegateCall
    and StaticCall. *)
Inductive MessageType : Type :=
| Call
| Value
| Create
| Selfdestruct
| DelegateCall
| StaticCall.

Definition MessageType_eqb (a b : MessageType) : bool :=
  match a, b with
  | Call, Call | Value, Value | Create, Create
  | Selfdestruct, Selfdestruct | DelegateCall, DelegateCall
  | StaticCall, StaticCall => true
  | _, _ => false
  end.

End Transaction.

(** ** The [ethers] library functions used by the client *)

Module Ethers.

(** A [BigNumber] object holds the string [_hex].  The library builds it
    as [0x] and an even number of hexadecimal digits, after a minus sign for
    a negative number, and such an object is modelled by [Num], its value.
    [BigNumber.from] accepts a [0X] prefix in upper case but does not
    recognise it afterwards, and then builds an object whose [_hex] is not
    a number: [Malformed] keeps that string. *)
Inductive BigNumber : Type :=
| Num (n : Z)
| Malformed (_hex : string).

Definition strip_minus (s : string) : bool * string :=
  match s with
  | String "-" s' => (true, s')
  | _ => (false, s)
  end.

Definition nonempty (s : string) : bool :=
  match s with
  | EmptyString => false
  | String _ _ => true
  end.

(** [logger.throwArgumentError("invalid BigNumber string", "value", value)]:
    the message names the argument and quotes the value (as [JSON.stringify]
    does for a string without characters to escape); it ends with the
    version of the package installed, which is left out. *)
Definition invalidBigNumberString (value : string) : JsError :=
  Error ("invalid BigNumber string (argument=" ++ JS.quoted "value"
         ++ ", value=" ++ JS.quoted value ++ ", code=INVALID_ARGUMENT)").

(** [toHex(value)] on [0X] followed by [digits]: the prefix is not
    recognised, so [0x] is put before it; a [0] is added when the length is
    odd, and a leading [0x00] is then trimmed to [0x]. *)
Definition toHex_upper_prefix (digits : string) : string :=
  if Nat.even (String.length digits) then ("0x0X" ++ digits)%string
  else ("0xX" ++ digits)%string.

(** [BigNumber.from(value)] on a string: an optionally negated [0x]
    hexadecimal literal, matched case-insensitively
    ([/^-?0x[0-9a-f]+$/i]), or an optionally negated run of decimal digits
    ([/^-?[0-9]+$/]); anything else is rejected with an invalid-argument
    error. *)
Definition BigNumber_from (value : string) : result BigNumber :=
  let '(negative, body) := strip_minus value in
  match body with
  | String "0" (String "x" digits) =>
      match (if nonempty digits then JS.all_digits 16 0 digits else None) with
      | Some n => Ok (Num (if negative then - n else n))
      | None => Throw (invalidBigNumberString value)
      end
  | String "0" (String "X" digits) =>
      match (if nonempty digits then JS.all_digits 16 0 digits else None) with
      | Some _ =>
          Ok (Malformed ((if negative then "-" else "") ++ toHex_upper_prefix digits))
      | None => Throw (invalidBigNumberString value)
      end
  | _ =>
      match (if nonempty body then JS.all_digits 10 0 body else None) with
      | Some n => Ok (Num (if negative then - n else n))
      | None => Throw (invalidBigNumberString value)
      end
  end.

(** [arrayify(value)] on a string: [0x] followed by an even number of
    hexadecimal digits, two digits per byte. *)
Fixpoint hex_pairs (hex : string) : option (list Z) :=
  match hex with
  | EmptyString => Some []
  | String _ EmptyString => None
  | String c1 (String c2 hex') =>
      match JS.hex_digit c1, JS.hex_digit c2, hex_pairs hex' with
      | Some d1, Some d2, Some bytes => Some (d1 * 16 + d2 :: bytes)
      | _, _, _ => None
      end
  end.

Fixpoint isHexDigits (hex : string) : bool :=
  match hex with
  | EmptyString => true
  | String c hex' =>
      match JS.hex_digit c with
      | Some _ => isHexDigits hex'
      | None => false
      end
  end.

Definition arrayify (value : string) : result (list Z) :=
  match value with
  | String "0" (String "x" hex) =>
      if isHexDigits hex
      then match hex_pairs hex with
           | Some bytes => Ok bytes
           | None => Throw (Error "hex data is odd-length")
           end
      else Throw (Error "invalid arrayify value")
  | _ => Throw (Error "invalid arrayify value")
  end.

(** A decoded text is the list of its Unicode code points; the JavaScript
    string the library builds from them is their UTF-16 form. *)
Definition text : Type := list Z.

Definition isContinuation (b : Z) : bool := Z.land b 0xc0 =? 0x80.

(** The checks made on a decoded multi-byte code point, in the library's
    order: maximum code point, surrogate halves, overlong forms. *)
Definition checkCodePoint (res overlongMask : Z) : result Z :=
  if 0x10ffff <? res then Throw (Error "invalid codepoint: out of range")
  else if (0xd800 <=? res) && (res <=? 0xdfff)
  then Throw (Error "invalid codepoint: UTF-16 surrogate")
  else if res <=? overlongMask then Throw (Error "invalid codepoint: overlong")
  else Ok res.

Definition step (res nextChar : Z) : Z :=
  Z.lor (Z.shiftl res 6) (Z.land nextChar 0x3f).

(** [getUtf8CodePoints(bytes)] with the default error handler, which
    throws at the first malformed sequence. *)
Fixpoint getUtf8CodePoints (bytes : list Z) : result text :=
  match bytes with
  | [] => Ok []
  | c :: rest =>
      if Z.shiftr c 7 =? 0 then
        let* cps := getUtf8CodePoints rest in Ok (c :: cps)
      else if Z.land c 0xe0 =? 0xc0 then
        match rest with
        | b1 :: rest1 =>
            if negb (isContinuation b1)
            then Throw (Error "invalid codepoint: missing continuation byte")
            else
              let* cp := checkCodePoint (step (Z.land c 0x1f) b1) 0x7f in
              let* cps := getUtf8CodePoints rest1 in Ok (cp :: cps)
        | _ => Throw (Error "invalid codepoint: string overrun")
        end
      else if Z.land c 0xf0 =? 0xe0 then
        match rest with
        | b1 :: b2 :: rest2 =>
            if negb (isContinuation b1) || negb (isContinuation b2)
            then Throw (Error "invalid codepoint: missing continuation byte")
            else
              let* cp := checkCodePoint (step (step (Z.land c 0x0f) b1) b2) 0x7ff in
              let* cps := getUtf8CodePoints rest2 in Ok (cp :: cps)
        | _ => Throw (Error "invalid codepoint: string overrun")
        end
      else if Z.land c 0xf8 =? 0xf0 then
        match rest with
        | b1 :: b2 :: b3 :: rest3 =>
            if negb (isContinuation b1) || negb (isContinuation b2)
               || negb (isContinuation b3)
            then Throw (Error "invalid codepoint: missing continuation byte")
            else
              let* cp :=
                checkCodePoint (step (step (step (Z.land c 0x07) b1) b2) b3) 0xffff in
              let* cps := getUtf8CodePoints rest3 in Ok (cp :: cps)
        | _ => Throw (Error "invalid codepoint: string overrun")
        end
      else if Z.land c 0xc0 =? 0x80
      then Throw (Error "invalid codepoint: unexpected continuation byte")
      else Throw (Error "invalid codepoint: bad codepoint prefix")
  end.

Definition toUtf8String (value : string) : result text :=
  let* bytes := arrayify value in
  getUtf8CodePoints bytes.

End Ethers.

(** A number stands for the [BigNumber] with that value. *)
Coercion Ethers.Num : Z >-> Ethers.BigNumber.

(** ** The Alethio client ([lib/clients/AlethioClient.js]) *)

Module AlethioClient.
Import Transaction.

(** [alethioBaseUrls[network]]: the four properties of the object literal,
    and for any other key what the literal inherits. *)
Definition alethioBaseUrls (network : string) : JS.Property :=
  if (network =? "mainnet")%string then JS.Own "https://api.aleth.io/v1"
  else if (network =? "ropsten")%string then JS.Own "https://api.ropsten.aleth.io/v1"
  else if (network =? "rinkeby")%string then JS.Own "https://api.rinkebyaleth.io/v1"
  else if (network =? "kovan")%string then JS.Own "https://api.kovan.aleth.io/v1"
  else JS.Object_prototype network.

(** What the indexer returns.  [from] and [to] of [Relationships] stand
    for [relationships.from.data.id] and [relationships.to.data.id]. *)
Module Rel.
Record Relationships : Type := mkRelationships {
  from : string;
  to : string }.
End Rel.

Module TxAttr.
Record Attributes : Type := mkAttributes {
  txNonce : Z;
  txIndex : Z;
  value : JS.JsValue;
  txGasPrice : JS.JsValue;
  blockCreationTime : Z;
  msgError : bool;
  msgErrorString : option string;
  msgType : string;
  msgPayload : option string;
  txGasUsed : JS.JsValue;
  msgGasLimit : JS.JsValue }.
End TxAttr.

Module CmAttr.
Record Attributes : Type := mkAttributes {
  cmsgIndex : Z;
  msgType : string;
  value : JS.JsValue;
  msgPayload : option string;
  msgGasUsed : JS.JsValue;
  msgGasLimit : JS.JsValue;
  msgCallDepth : Z;
  msgError : bool;
  msgErrorString : option string }.
End CmAttr.

Record ContractMessage : Type := mkContractMessage {
  attributes : CmAttr.Attributes;
  relationships : Rel.Relationships }.

(** [response.data.data]: absent, a transaction object or an array. *)
Inductive Data : Type :=
| NoData
| TxData (attributes : option TxAttr.Attributes) (relationships : option Rel.Relationships)
| ArrayData (contractMessages : list ContractMessage).

Record Links : Type := mkLinks { next : option string }.

Record Response : Type := mkResponse {
  data : Data;
  hasNext : bool;            (* [response.data?.meta?.page?.hasNext] *)
  links : option Links }.

Abbreviation IO := (Axios.IO Response).

(** What the client produces. *)
Record TransactionDetails : Type := mkTransactionDetails {
  hash : string;
  nonce : Z;
  index : Z;
  details_value : Z;
  gasPrice : Z;
  timestamp : Z;
  details_status : bool;
  details_error : option string }.

Module Msg.
Record Message : Type := mkMessage {
  id : Z;
  type : MessageType;
  from : string;
  to : string;
  value : Z;
  payload : option string;
  gasUsed : Z;
  gasLimit : Z;
  callDepth : Z;
  status : bool;
  error : option string }.
End Msg.
Abbreviation Message := Msg.Message.

Definition convertType (msgType : string) : MessageType :=
  if ((msgType =? "ValueContractMsg") || (msgType =? "ValueTx"))%string then Value
  else if ((msgType =? "CreateContractMsg") || (msgType =? "CreateTx"))%string then Value
  else if ((msgType =? "SelfdestructContractMsg") || (msgType =? "SelfdestructTx"))%string
  then Selfdestruct
  else Call.

Definition hashTypeError (txHash : string) : JsError :=
  TypeError ("Transaction hash " ++ JS.quoted txHash
             ++ " must be 32 bytes in hexadecimal format with a 0x prefix").

Definition set_apiKey (apiKey : option string) : IO unit :=
  match apiKey with
  | Some k => if JS.truthy apiKey then Axios.set_Authorization k else Axios.ret tt
  | None => Axios.ret tt
  end.

(** [getTransactionDetails(txHash, apiKey, network)].  The messages about a
    response without attributes or relationships go on with the body of the
    response as the template literal prints it, which is left out; so does
    the message about a response without contract messages below. *)
Definition getTransactionDetails (txHash : string) (apiKey : option string)
    (network : string) : IO (TransactionDetails * Message) :=
  if negb (RegEx.transactionHash txHash) then Axios.throw (hashTypeError txHash)
  else
    Axios.catch
      (let! _ := set_apiKey apiKey in
       let! response :=
         Axios.get (JS.template (alethioBaseUrls network) ++ "/transactions/" ++ txHash) [] in
       match data response with
       | TxData (Some attributes) (Some relationships) =>
           Axios.lift
             (let* value := JS.BigInt (TxAttr.value attributes) in
              let* gasPrice := JS.BigInt (TxAttr.txGasPrice attributes) in
              let details :=
                {| hash := txHash;
                   nonce := TxAttr.txNonce attributes;
                   index := TxAttr.txIndex attributes;
                   details_value := value;
                   gasPrice := gasPrice;
                   timestamp := TxAttr.blockCreationTime attributes * 1000;
                   details_status := negb (TxAttr.msgError attributes);
                   details_error := TxAttr.msgErrorString attributes |} in
              let* value := JS.BigInt (TxAttr.value attributes) in
              let* gasUsed := JS.BigInt (TxAttr.txGasUsed attributes) in
              let* gasLimit := JS.BigInt (TxAttr.msgGasLimit attributes) in
              let firstMessage :=
                {| Msg.id := 0;
                   Msg.type := convertType (TxAttr.msgType attributes);
                   Msg.from := Rel.from relationships;
                   Msg.to := Rel.to relationships;
                   Msg.value := value;
                   Msg.payload := TxAttr.msgPayload attributes;
                   Msg.gasUsed := gasUsed;
                   Msg.gasLimit := gasLimit;
                   Msg.callDepth := 0;
                   Msg.status := negb (TxAttr.msgError attributes);
                   Msg.error := TxAttr.msgErrorString attributes |} in
              Ok (details, firstMessage))
       | TxData (Some _) None =>
           Axios.throw (Error "no transaction relationships in Alethio response")
       | _ => Axios.throw (Error "no transaction attributes in Alethio response")
       end)
      (fun err =>
         Axios.throw (VError err ("Failed to get transaction details for hash "
                                  ++ txHash ++ " from Alethio"))).

(** The object pushed for one contract message. *)
Definition toMessage (contractMessage : ContractMessage) : result Message :=
  let a := attributes contractMessage in
  let* value := JS.BigInt (CmAttr.value a) in
  let* gasUsed := JS.BigInt (CmAttr.msgGasUsed a) in
  let* gasLimit := JS.BigInt (CmAttr.msgGasLimit a) in
  Ok {| Msg.id := CmAttr.cmsgIndex a;
        Msg.type := convertType (CmAttr.msgType a);
        Msg.from := Rel.from (relationships contractMessage);
        Msg.to := Rel.to (relationships contractMessage);
        Msg.value := value;
        Msg.payload := CmAttr.msgPayload a;
        Msg.gasUsed := gasUsed;
        Msg.gasLimit := gasLimit;
        Msg.callDepth := CmAttr.msgCallDepth a;
        Msg.status := negb (CmAttr.msgError a);
        Msg.error := CmAttr.msgErrorString a |}.

(** [for (const contractMessage of response.data.data) messages.push({...})] *)
Fixpoint pushAll (messages : list Message) (contractMessages : list ContractMessage)
    : result (list Message) :=
  match contractMessages with
  | [] => Ok messages
  | contractMessage :: rest =>
      let* m := toMessage contractMessage in
      pushAll (messages ++ [m])%list rest
  end.

(** [response.data.links.next.split('=').pop()] *)
Definition nextCursor (response : Response) : result string :=
  match links response with
  | None => Throw (TypeError "Cannot read property 'next' of undefined")
  | Some l =>
      match next l with
      | None => Throw (TypeError "Cannot read property 'split' of undefined")
      | Some n => Ok (JS.split_pop "=" n)
      end
  end.

Definition messagesError (txHash : string) (err : JsError) : JsError :=
  VError err ("Failed to get contract messages for transaction hash "
              ++ txHash ++ " from Alethio").

(** The [try] block of [getContractMessagesRecursive] with its [catch].
    The block either produces the messages ([inl]) or ends in
    [return getContractMessagesRecursive(txHash, nextCursor, allMessages)]
    ([inr]): the promise of that inner call is returned without [await], so
    its rejection is not seen by this [catch]. *)
Definition getContractMessagesRecursive_try (txHash : string) (cursor : string)
    (messages : list Message) (apiKey : option string) (network : string)
    : IO (list Message + string * list Message) :=
  Axios.catch
    (let! _ := set_apiKey apiKey in
     let! response :=
       Axios.get (JS.template (alethioBaseUrls network) ++ "/transactions/"
                  ++ txHash ++ "/contractMessages")
         [("page[limit]", JS.JsNumber 100); ("page[next]", JS.JsString cursor)] in
     match data response with
     | ArrayData contractMessages =>
         let! cursorMessages := Axios.lift (pushAll [] contractMessages) in
         let allMessages := (messages ++ cursorMessages)%list in
         (* handle more than 100 contract messages *)
         if hasNext response
         then let! nextCursor := Axios.lift (nextCursor response) in
              Axios.ret (inr (nextCursor, allMessages))
         else Axios.ret (inl allMessages)
     | _ => Axios.throw (Error "no contract messages in Alethio response")
     end)
    (fun err => Axios.throw (messagesError txHash err)).

(** [getContractMessagesRecursive], with a bound on the number of calls.
    A call goes on to the next one only after it has consumed a reply of
    the network script, so a bound above the number of replies left is
    never reached. *)
Fixpoint getContractMessagesRecursive_calls (fuel : nat) (txHash : string)
    (cursor : string) (messages : list Message) (apiKey : option string)
    (network : string) {struct fuel} : IO (list Message) :=
  match fuel with
  | O => Axios.throw (Error "Network Error")
  | S fuel' =>
      if negb (RegEx.transactionHash txHash) then Axios.throw (hashTypeError txHash)
      else if negb (JS.nonempty cursor)
      then Axios.throw (TypeError ("Missing Alethio pagination cursor " ++ JS.quoted cursor))
      else
        let! outcome :=
          getContractMessagesRecursive_try txHash cursor messages apiKey network in
        match outcome with
        | inl allMessages => Axios.ret allMessages
        | inr (nextCursor, allMessages) =>
            getContractMessagesRecursive_calls fuel' txHash nextCursor allMessages
              None "mainnet"
        end
  end.

(** One call more than there are replies left is always enough (see
    [getContractMessagesRecursive_fuel]). *)
Definition getContractMessagesRecursive (txHash : string) (cursor : string)
    (messages : list Message) (apiKey : option string) (network : string)
    : IO (list Message) :=
  fun w =>
    getContractMessagesRecursive_calls (S (length (Axios.pending w)))
      txHash cursor messages apiKey network w.

Definition id_le (a b : Message) : Prop := Msg.id a <= Msg.id b.

(** [messages.sort((a, b) => a.id - b.id)]: the builtin sorts by ascending
    id and is stable, so that messages with the same id keep the order they
    had.  Sortedness and stability determine the result (see
    [stable_sort_unique]), whatever algorithm the engine runs; it is
    computed here by inserting the messages from the last to the first,
    each before the first message whose id is not smaller. *)
Fixpoint insert_by_id (m : Message) (sorted : list Message) : list Message :=
  match sorted with
  | [] => [m]
  | x :: rest =>
      if Msg.id m <=? Msg.id x then m :: sorted else x :: insert_by_id m rest
  end.

Definition sort_by_id (messages : list Message) : list Message :=
  fold_right insert_by_id [] messages.

Definition getContractMessages (txHash : string) (apiKey : option string)
    (network : string) : IO (list Message) :=
  if negb (RegEx.transactionHash txHash) then Axios.throw (hashTypeError txHash)
  else
    Axios.catch
      (let! _ := set_apiKey apiKey in
       (* get the contract messages *)
       let! response :=
         Axios.get (JS.template (alethioBaseUrls network) ++ "/transactions/"
                    ++ txHash ++ "/contractMessages")
           [("page[limit]", JS.JsNumber 100)] in
       match data response with
       | ArrayData contractMessages =>
           let! messages := Axios.lift (pushAll [] contractMessages) in
           (* handle more than 100 contract messages *)
           let! messages :=
             (if hasNext response
              then let! nextCursor := Axios.lift (nextCursor response) in
                   getContractMessagesRecursive txHash nextCursor messages None "mainnet"
              else Axios.ret messages) in
           (* sort by contract message id *)
           let sortedMessages := sort_by_id messages in
           Axios.ret sortedMessages
       | _ => Axios.throw (Error "no contract messages in Alethio response")
       end)
      (fun err => Axios.throw (messagesError txHash err)).

End AlethioClient.

(** ** The Geth client ([clients/GethClient.ts]) *)

Module GethClient.
Import Transaction.

(** [CallResponse]: one node of the call tree returned by
    [debug_traceTransaction] with the [callTracer].  The [type] is kept as
    the string received, since the converter has a default case. *)
Module Call.
Inductive CallResponse : Type := mkCallResponse {
  type : string;
  from : option string;
  to : option string;
  input : option string;
  output : option string;
  value : option string;
  gas : option string;
  gasUsed : option string;
  time : option string;
  error : option string;
  calls : option (list CallResponse) }.
End Call.
Abbreviation CallResponse := Call.CallResponse.

(** Traces are objects shared by reference: a trace is reachable from the
    [traces] array, from its children's [parentTrace] and from its parent's
    [childTraces].  The store keeps the objects in allocation order and a
    reference is a position in it. *)
Abbreviation ref := nat.

Module Tr.
Record Trace : Type := mkTrace {
  id : Z;
  type : MessageType;
  from : option string;
  delegatedFrom : option string;
  to : option string;
  value : option Ethers.BigNumber;
  inputs : option string;
  inputParams : list string;
  funcSelector : option string;
  outputs : option string;
  outputParams : list string;
  gasLimit : option Ethers.BigNumber;
  gasUsed : option Ethers.BigNumber;
  parentTrace : option ref;
  childTraces : list ref;
  depth : Z;
  error : option string }.

(** [trace.childTraces.push(r)] *)
Definition push_child (r : ref) (t : Trace) : Trace :=
  {| id := id t; type := type t; from := from t; delegatedFrom := delegatedFrom t;
     to := to t; value := value t; inputs := inputs t; inputParams := inputParams t;
     funcSelector := funcSelector t; outputs := outputs t;
     outputParams := outputParams t; gasLimit := gasLimit t; gasUsed := gasUsed t;
     parentTrace := parentTrace t; childTraces := childTraces t ++ [r];
     depth := depth t; error := error t |}.
End Tr.
Abbreviation Trace := Tr.Trace.

Record Store : Type := mkStore {
  heap : list Trace;     (* every trace object allocated so far *)
  traces : list ref }.   (* the [traces] array *)

Definition empty_store : Store := {| heap := []; traces := [] |}.

Definition convertType (trace : CallResponse) : MessageType :=
  if (Call.type trace =? "DELEGATECALL")%string then DelegateCall
  else if (Call.type trace =? "STATICCALL")%string then StaticCall
  else if ((Call.type trace =? "CREATE") || (Call.type trace =? "CREATE2"))%string then Create
  else if (Call.type trace =? "SELFDESTRUCT")%string then Selfdestruct
  else Call.

Definition convertBigNumber (value : option string) : result (option Ethers.BigNumber) :=
  match value with
  | Some s =>
      if JS.truthy value
      then let* n := Ethers.BigNumber_from s in Ok (Some n)
      else Ok None
  | None => Ok None
  end.

(** [callResponse.input?.length >= 10 ? callResponse.input.slice(0, 10) : undefined] *)
Definition selector (input : option string) : option string :=
  match input with
  | Some i =>
      if 10 <=? Z.of_nat (String.length i)
      then Some (JS.slice i (Some 0) (Some 10))
      else None
  | None => None
  end.

(** Reading through [parentTrace]; a reference always designates an
    allocated object, so the failure case is never reached from a store
    that contains the parent. *)
Definition deref (parentTrace : option ref) (h : list Trace) : result (option Trace) :=
  match parentTrace with
  | None => Ok None
  | Some p =>
      match h !! p with
      | Some t => Ok (Some t)
      | None => Throw (Error "dangling reference")
      end
  end.

(** [parentTrace?.type === MessageType.DelegateCall ? parentTrace.to : callResponse.from] *)
Definition delegatedFrom_of (parent : option Trace) (callResponse : CallResponse) : option string :=
  match parent with
  | Some p =>
      if MessageType_eqb (Tr.type p) DelegateCall then Tr.to p
      else Call.from callResponse
  | None => Call.from callResponse
  end.

(** The object literal [newTrace], built for position [id]. *)
Definition newTrace (callResponse : CallResponse) (id depth : Z)
    (parentTrace : option ref) (parent : option Trace) : result Trace :=
  let type := convertType callResponse in
  let delegatedFrom := delegatedFrom_of parent callResponse in
  let* value :=
    (if JS.truthy (Call.value callResponse)
     then convertBigNumber (Call.value callResponse)
     else Ok (Some (Ethers.Num 0))) in
  let* gasLimit := convertBigNumber (Call.gas callResponse) in
  let* gasUsed := convertBigNumber (Call.gasUsed callResponse) in
  Ok {| Tr.id := id;
        Tr.type := type;
        Tr.from := Call.from callResponse;
        Tr.delegatedFrom := delegatedFrom;
        Tr.to := Call.to callResponse;
        Tr.value := value;
        Tr.inputs := Call.input callResponse;
        Tr.inputParams := [];
        Tr.funcSelector := selector (Call.input callResponse);
        Tr.outputs := Call.output callResponse;
        Tr.outputParams := [];
        Tr.gasLimit := gasLimit;
        Tr.gasUsed := gasUsed;
        Tr.parentTrace := parentTrace;
        Tr.childTraces := [];
        Tr.depth := depth;
        Tr.error := Call.error callResponse |}.

(** [parentTrace.childTraces.push(newTrace)], when there is a parent. *)
Definition link_child (parentTrace : option ref) (r : ref) (h : list Trace) : list Trace :=
  match parentTrace with
  | Some p =>
      match h !! p with
      | Some t => <[p := Tr.push_child r t]> h
      | None => h
      end
  | None => h
  end.

(** Adds calls from a Geth [debug_traceTransaction] response to the traces.
    The result is the next free id, with the store as the call leaves it.
    When a number cannot be read the exception leaves the function with
    some traces already pushed; the array is local to the [try] block of
    [getTransactionTrace], the only caller, which throws in its turn, so
    nothing can read those traces and [Throw] carries no store. *)
Fixpoint addTraces (callResponse : CallResponse) (id depth : Z)
    (parentTrace : option ref) (s : Store) {struct callResponse} : result (Z * Store) :=
  let* parent := deref parentTrace (heap s) in
  let* t := newTrace callResponse id depth parentTrace parent in
  let id := id + 1 in
  let r : ref := length (heap s) in
  let h := link_child parentTrace r (heap s ++ [t]) in
  let s := {| heap := h; traces := traces s ++ [r] |} in
  match Call.calls callResponse with
  | Some calls =>
      (fix forEach (l : list CallResponse) (id : Z) (s : Store) {struct l}
         : result (Z * Store) :=
         match l with
         | [] => Ok (id, s)
         | childCall :: l' =>
             let* (id, s) := addTraces childCall id (depth + 1) (Some r) s in
             forEach l' id s
         end) calls id s
  | None => Ok (id, s)
  end.

(** The loop of [addTraces] over the children, as a function of its own. *)
Fixpoint forEach_addTraces (l : list CallResponse) (id depth : Z) (r : ref)
    (s : Store) {struct l} : result (Z * Store) :=
  match l with
  | [] => Ok (id, s)
  | childCall :: l' =>
      let* (id, s) := addTraces childCall id (depth + 1) (Some r) s in
      forEach_addTraces l' id depth r s
  end.

(** [parseReasonCode(messageData)]: [messageData] is the revert data as
    hexadecimal digits, the [0x] already trimmed by the caller. *)
Definition parseReasonCode (messageData : string) : result Ethers.text :=
  (* Get the length of the revert reason *)
  let strLen := JS.parseInt16 (JS.slice messageData (Some (8 + 64)) (Some (8 + 128))) in
  (* Using the length and known offset, extract and convert the revert reason *)
  let reasonCodeHex :=
    JS.slice messageData (Some (8 + 128))
      (option_map (fun n => 8 + 128 + n * 2) strLen) in
  (* Convert reason from hex to string *)
  Ethers.toUtf8String ("0x" ++ reasonCodeHex).

(** Reading the array of traces back from the store. *)
Definition read_traces (s : Store) : list Trace :=
  omap (fun r => heap s !! r) (traces s).

(** A trace object has the properties of the literal in [addTraces] and no
    others; it has no [status] property, and reading it gives [undefined]. *)
Definition status (t : Trace) : option bool := None.

(** The client object and the JSON-RPC reply of the node. *)
Record Client : Type := mkClient {
  url : string;
  network : string;
  jsonRpcId : Z }.

Record RpcResult : Type := mkRpcResult {
  call : CallResponse;       (* the result object read as a call *)
  structLogs : bool }.       (* whether [result.structLogs] is truthy *)

Record RpcResponse : Type := mkRpcResponse {
  error_message : option string;      (* [response.data?.error?.message] *)
  result_ : option RpcResult }.       (* [response?.data?.result] *)

Definition hashTypeError (txHash : string) : JsError :=
  TypeError ("Transaction hash " ++ JS.quoted txHash
             ++ " must be 32 bytes in hexadecimal format with a 0x prefix").

(** The body of the [try] block of [getTransactionTrace], after the reply
    has arrived.  The message about missing trace messages goes on with the
    result as the template literal prints it, which is left out. *)
Definition traceOfResponse (response : RpcResponse) : result Store :=
  if JS.truthy (error_message response)
  then Throw (Error (JS.show (error_message response)))
  else
    match result_ response with
    | Some r =>
        if JS.truthy (Call.from (call r))
        then
          (* recursively add the traces *)
          let* (_, s) := addTraces (call r) 0 0 None empty_store in
          Ok s
        else if structLogs r
        then Throw (Error ("Have you set the --nodeType option correctly? "
                           ++ "It looks like a debug_traceTransaction was run against "
                           ++ "a node that doesn't support tracing in their "
                           ++ "debugging API."))
        else Throw (Error "no transaction trace messages in response.")
    | None => Throw (Error "no transaction trace messages in response.")
    end.

(** [getTransactionTrace(txHash)]: the result, the client object after the
    call and the network after the call. *)
Definition getTransactionTrace (this : Client) (txHash : string)
    (w : Axios.World RpcResponse)
    : result Store * Client * Axios.World RpcResponse :=
  if negb (RegEx.transactionHash txHash) then (Throw (hashTypeError txHash), this, w)
  else
    let this' := {| url := url this; network := network this;
                    jsonRpcId := jsonRpcId this + 1 |} in
    let '(reply, w') :=
      Axios.post (url this)
        [("id", JS.JsNumber (jsonRpcId this)); ("jsonrpc", JS.JsString "2.0");
         ("method", JS.JsString "debug_traceTransaction");
         ("params", JS.JsString txHash)] w in
    (try_catch (let* response := reply in traceOfResponse response)
       (fun err => VError err ("Failed to get transaction trace for tx hash "
                               ++ txHash ++ " from url " ++ url this ++ ".")),
     this', w').

End GethClient.

(** ** The [Error(string)] revert layout

    The data a contract returns when it reverts with a reason: the 4-byte
    selector of [Error(string)], a word holding the offset 32, a word
    holding the length of the UTF-8 form of the reason, and that form
    padded with zeros to a multiple of 32 bytes. *)

Module ErrorString.

Definition hex_char (d : Z) : ascii :=
  if d <? 10 then ascii_of_nat (Z.to_nat (48 + d)) else ascii_of_nat (Z.to_nat (87 + d)).

Fixpoint hex (bytes : list Z) : string :=
  match bytes with
  | [] => EmptyString
  | b :: bytes' => String (hex_char (b / 16)) (String (hex_char (b mod 16)) (hex bytes'))
  end.

(** [n] bytes, most significant first. *)
Fixpoint be_bytes (n : nat) (v : Z) : list Z :=
  match n with
  | O => []
  | S n' => be_bytes n' (v / 256) ++ [v mod 256]
  end.

Definition word (v : Z) : list Z := be_bytes 32 v.

(** A Unicode scalar value: a code point that is not a surrogate half. *)
Definition scalar (cp : Z) : bool :=
  (0 <=? cp) && (cp <=? 0x10ffff) && negb ((0xd800 <=? cp) && (cp <=? 0xdfff)).

(** A string without lone surrogates, as a list of code points. *)
Definition well_formed_text (reason : Ethers.text) : Prop :=
  forallb scalar reason = true.

Definition utf8_char (cp : Z) : list Z :=
  if cp <? 0x80 then [cp]
  else if cp <? 0x800 then [0xc0 + cp / 64; 0x80 + cp mod 64]
  else if cp <? 0x10000
  then [0xe0 + cp / 4096; 0x80 + (cp / 64) mod 64; 0x80 + cp mod 64]
  else [0xf0 + cp / 262144; 0x80 + (cp / 4096) mod 64;
        0x80 + (cp / 64) mod 64; 0x80 + cp mod 64].

Definition utf8 (reason : Ethers.text) : list Z := flat_map utf8_char reason.

Definition selector : list Z := [0x08; 0xc3; 0x79; 0xa0].

Definition padding (len : nat) : list Z := repeat 0 ((32 - len mod 32) mod 32)%nat.

(** The layout around an arbitrary sequence of string bytes. *)
Definition layout (bytes : list Z) : list Z :=
  selector ++ word 32 ++ word (Z.of_nat (length bytes)) ++ bytes ++ padding (length bytes).

Definition encode (reason : Ethers.text) : list Z := layout (utf8 reason).

(** The code points of an ASCII literal. *)
Definition ascii_text (s : string) : Ethers.text := map JS.code (list_ascii_of_string s).

Definition byte (b : Z) : bool := (0 <=? b) && (b <? 256).

Definition bytes_ok (bytes : list Z) : Prop := forallb byte bytes = true.

End ErrorString.

(** Facts about single bytes and digits, stated as boolean functions so
    that they can be checked by running through the values concerned. *)

Module ByteChecks.
Import ErrorString.

Definition hex_char_good (d : Z) : bool :=
  match JS.hex_digit (hex_char d) with
  | Some d' => d' =? d
  | None => false
  end
  && negb (JS.is_white_space (hex_char d))
  && negb (Ascii.eqb (hex_char d) "-") && negb (Ascii.eqb (hex_char d) "+")
  && negb (Ascii.eqb (hex_char d) "x") && negb (Ascii.eqb (hex_char d) "X").

Definition ascii_good (x : Z) : bool := Z.shiftr x 7 =? 0.

Definition lead2_good (x : Z) : bool :=
  let c := 0xc0 + x in
  negb (Z.shiftr c 7 =? 0) && (Z.land c 0xe0 =? 0xc0) && (Z.land c 0x1f =? x).

Definition lead3_good (x : Z) : bool :=
  let c := 0xe0 + x in
  negb (Z.shiftr c 7 =? 0) && negb (Z.land c 0xe0 =? 0xc0)
  && (Z.land c 0xf0 =? 0xe0) && (Z.land c 0x0f =? x).

Definition lead4_good (x : Z) : bool :=
  let c := 0xf0 + x in
  negb (Z.shiftr c 7 =? 0) && negb (Z.land c 0xe0 =? 0xc0)
  && negb (Z.land c 0xf0 =? 0xe0) && (Z.land c 0xf8 =? 0xf0)
  && (Z.land c 0x07 =? x).

Definition cont_good (y : Z) : bool :=
  Ethers.isContinuation (0x80 + y) && (Z.land (0x80 + y) 0x3f =? y).

End ByteChecks.

(** ** Call trees and the objects built from them *)

Module CallTree.
Import Transaction GethClient.

Definition children (c : CallResponse) : list CallResponse :=
  match Call.calls c with
  | Some l => l
  | None => []
  end.

(** The nodes of a call tree in pre-order: a call before the calls it
    makes, the calls it makes from first to last. *)
Fixpoint nodes (c : CallResponse) : list CallResponse :=
  c :: match Call.calls c with
       | Some l =>
           (fix nodes_of (l : list CallResponse) : list CallResponse :=
              match l with
              | [] => []
              | x :: l' => nodes x ++ nodes_of l'
              end) l
       | None => []
       end.

Definition count (c : CallResponse) : nat := length (nodes c).

Definition is_ok {A : Type} (r : result A) : bool :=
  match r with
  | Ok _ => true
  | Throw _ => false
  end.

(** The numeric properties of a call are numbers the library can read. *)
Definition numbers_ok (c : CallResponse) : bool :=
  is_ok (convertBigNumber (Call.value c))
  && is_ok (convertBigNumber (Call.gas c))
  && is_ok (convertBigNumber (Call.gasUsed c)).

(** A well-formed call tree: every node has readable numbers. *)
Definition well_formed (c : CallResponse) : Prop :=
  forallb numbers_ok (nodes c) = true.

(** The same object at a later time: only [childTraces] has changed, and
    only by pushes. *)
Definition with_children (l : list ref) (t : Trace) : Trace :=
  {| Tr.id := Tr.id t; Tr.type := Tr.type t; Tr.from := Tr.from t;
     Tr.delegatedFrom := Tr.delegatedFrom t; Tr.to := Tr.to t;
     Tr.value := Tr.value t; Tr.inputs := Tr.inputs t;
     Tr.inputParams := Tr.inputParams t; Tr.funcSelector := Tr.funcSelector t;
     Tr.outputs := Tr.outputs t; Tr.outputParams := Tr.outputParams t;
     Tr.gasLimit := Tr.gasLimit t; Tr.gasUsed := Tr.gasUsed t;
     Tr.parentTrace := Tr.parentTrace t; Tr.childTraces := l;
     Tr.depth := Tr.depth t; Tr.error := Tr.error t |}.

Definition same_object (t t' : Trace) : Prop :=
  exists l, t' = with_children (Tr.childTraces t ++ l) t.

Definition evolves (h h' : list Trace) : Prop :=
  (length h <= length h')%nat /\
  forall k t, h !! k = Some t -> exists t', h' !! k = Some t' /\ same_object t t'.

(** [t] is the object built for the call [node] at position [id]. *)
Definition built_for (node : CallResponse) (id : Z) (t : Trace) : Prop :=
  exists depth parentTrace parent t0,
    newTrace node id depth parentTrace parent = Ok t0 /\ same_object t0 t.

(** How an object of the store is tied to its parent. *)
Definition linked (h : list Trace) (k : nat) (t : Trace) : Prop :=
  match Tr.parentTrace t with
  | None => Tr.delegatedFrom t = Tr.from t
  | Some p =>
      (p < k)%nat /\
      exists pt, h !! p = Some pt /\
        Tr.depth t = Tr.depth pt + 1 /\
        Tr.delegatedFrom t =
          (if MessageType_eqb (Tr.type pt) DelegateCall then Tr.to pt else Tr.from t) /\
        k ∈ Tr.childTraces pt
  end.

Definition all_linked (h : list Trace) : Prop :=
  forall k t, h !! k = Some t -> linked h k t.

(** The parent handed to [addTraces] is an object of the store, one level
    above the call being added. *)
Definition parent_ok (parentTrace : option ref) (depth : Z) (h : list Trace) : Prop :=
  match parentTrace with
  | None => True
  | Some p => exists pt, h !! p = Some pt /\ depth = Tr.depth pt + 1
  end.

(** The shape [root -(CALL)-> a -(DELEGATECALL)-> b -(DELEGATECALL)-> c]:
    the top-level call goes from [root] to [a] and makes one call, a
    delegate call from [a] to [b], which makes one call, a delegate call to
    [c].  Everything else about the three calls is left open. *)
Definition chain_shape (root a b c : string) (t : CallResponse) : Prop :=
  match Call.calls t with
  | Some [call_b] =>
      match Call.calls call_b with
      | Some [call_c] =>
          Call.type t = "CALL" /\ Call.from t = Some root /\ Call.to t = Some a /\
          Call.type call_b = "DELEGATECALL" /\ Call.from call_b = Some a /\
          Call.to call_b = Some b /\
          Call.type call_c = "DELEGATECALL" /\ Call.to call_c = Some c
      | _ => False
      end
  | _ => False
  end.

(** A call with the given type, ends, error and inner calls, and nothing
    else. *)
Definition mkCall (type : string) (from to : string) (error : option string)
    (calls : option (list CallResponse)) : CallResponse :=
  Call.mkCallResponse type (Some from) (Some to) None None None None None None
    error calls.

Definition chain (root a b c : string) : CallResponse :=
  mkCall "CALL" root a None
    (Some [mkCall "DELEGATECALL" a b None
             (Some [mkCall "DELEGATECALL" b c None None])]).

(** What a run of the flattener over the nodes [ns], numbered from [id],
    does to the store. *)
Definition post (ns : list CallResponse) (id : Z) (s s' : Store) : Prop :=
  traces s' = traces s ++ seq (length (heap s)) (length ns) /\
  length (heap s') = (length (heap s) + length ns)%nat /\
  evolves (heap s) (heap s') /\
  (all_linked (heap s) -> all_linked (heap s')) /\
  (forall k node, ns !! k = Some node ->
     exists t, heap s' !! (length (heap s) + k)%nat = Some t /\
               built_for node (id + Z.of_nat k) t).

Definition addTraces_post (c : CallResponse) : Prop :=
  forall id depth parentTrace s,
    well_formed c -> parent_ok parentTrace depth (heap s) ->
    exists s',
      addTraces c id depth parentTrace s = Ok (id + Z.of_nat (count c), s') /\
      post (nodes c) id s s' /\
      exists parent t t0,
        deref parentTrace (heap s) = Ok parent /\
        newTrace c id depth parentTrace parent = Ok t /\
        heap s' !! length (heap s) = Some t0 /\ same_object t t0.

Definition two_level : CallResponse :=
  mkCall "CALL" "0xaa" "0xbb" None
    (Some [mkCall "STATICCALL" "0xbb" "0xcc" None
             (Some [mkCall "CALL" "0xcc" "0xdd" None None]);
           mkCall "CALL" "0xbb" "0xee" (Some "execution reverted") None]).

End CallTree.

(** ** Pages of the indexer *)

Module Pages.
Import AlethioClient.

(** The records of a page, as they arrive. *)
Definition incoming (page : Response) : list ContractMessage :=
  match data page with
  | ArrayData contractMessages => contractMessages
  | _ => []
  end.

(** [m] is the message of the record [cm]: its id is the index of the
    record, its ends, payload, call depth and error are those of the
    record, its type is the converted tag, its status the negated error
    flag, and its three amounts are the numbers that [BigInt] reads in the
    record. *)
Definition message_of (cm : ContractMessage) (m : Message) : Prop :=
  Msg.id m = CmAttr.cmsgIndex (attributes cm) /\
  Msg.type m = convertType (CmAttr.msgType (attributes cm)) /\
  Msg.from m = Rel.from (relationships cm) /\
  Msg.to m = Rel.to (relationships cm) /\
  JS.BigInt (CmAttr.value (attributes cm)) = Ok (Msg.value m) /\
  Msg.payload m = CmAttr.msgPayload (attributes cm) /\
  JS.BigInt (CmAttr.msgGasUsed (attributes cm)) = Ok (Msg.gasUsed m) /\
  JS.BigInt (CmAttr.msgGasLimit (attributes cm)) = Ok (Msg.gasLimit m) /\
  Msg.callDepth m = CmAttr.msgCallDepth (attributes cm) /\
  Msg.status m = negb (CmAttr.msgError (attributes cm)) /\
  Msg.error m = CmAttr.msgErrorString (attributes cm).

(** The three amounts of a record are numbers that [BigInt] accepts. *)
Definition amounts_ok (cm : ContractMessage) : bool :=
  CallTree.is_ok (JS.BigInt (CmAttr.value (attributes cm)))
  && CallTree.is_ok (JS.BigInt (CmAttr.msgGasUsed (attributes cm)))
  && CallTree.is_ok (JS.BigInt (CmAttr.msgGasLimit (attributes cm))).

(** A page that holds an array of records with such amounts. *)
Definition well_formed_page (page : Response) : bool :=
  match data page with
  | ArrayData contractMessages => forallb amounts_ok contractMessages
  | _ => false
  end.

(** The messages with a given id, in the order of the list. *)
Definition with_id (i : Z) (messages : list Message) : list Message :=
  List.filter (fun m => Msg.id m =? i) messages.

(** The messages of a page, when the page holds an array of contract
    messages whose numbers can all be read. *)
Definition page_messages (page : Response) : option (list Message) :=
  match data page with
  | ArrayData contractMessages =>
      match pushAll [] contractMessages with
      | Ok messages => Some messages
      | Throw _ => None
      end
  | _ => None
  end.

Definition readable (page : Response) : bool :=
  match page_messages page with
  | Some _ => true
  | None => false
  end.

Definition records (page : Response) : list Message :=
  match page_messages page with
  | Some messages => messages
  | None => []
  end.

(** The link to the next page, when the page has one, and the cursor in
    it: what follows its last [=]. *)
Definition next_link (page : Response) : option string :=
  match links page with
  | Some l => next l
  | None => None
  end.

Definition cursor_in (link : string) : string := JS.split_pop "=" link.

(** The page carries a cursor that is not empty. *)
Definition has_cursor (page : Response) : bool :=
  match next_link page with
  | Some link => JS.nonempty (cursor_in link)
  | None => false
  end.

(** A page that signals a further page and carries a cursor to it. *)
Definition continues (page : Response) : bool := hasNext page && has_cursor page.

(** A page that signals a further page but whose cursor is missing or
    empty. *)
Definition broken (page : Response) : bool := hasNext page && negb (has_cursor page).

Fixpoint root_cause (e : JsError) : JsError :=
  match e with
  | VError cause _ => root_cause cause
  | _ => e
  end.

Definition is_TypeError (e : JsError) : bool :=
  match e with
  | TypeError _ => true
  | _ => false
  end.

(** The script in which the indexer answers with the given pages. *)
Definition serving (pages : list Response) : Axios.World Response :=
  {| Axios.pending := map Axios.Resolve pages;
     Axios.sent := [];
     Axios.defaults_Authorization := None |}.

(** Three pages of an example transaction. *)
Definition record (cmsgIndex : Z) (msgType : string) : ContractMessage :=
  {| attributes :=
       {| CmAttr.cmsgIndex := cmsgIndex; CmAttr.msgType := msgType;
          CmAttr.value := JS.JsString "0"; CmAttr.msgPayload := None;
          CmAttr.msgGasUsed := JS.JsNumber 21000;
          CmAttr.msgGasLimit := JS.JsString "0x5208";
          CmAttr.msgCallDepth := 1; CmAttr.msgError := false;
          CmAttr.msgErrorString := None |};
     relationships := {| Rel.from := "0xaa"; Rel.to := "0xbb" |} |}.

Definition page (l : list ContractMessage) (next : option string) : Response :=
  {| data := ArrayData l;
     hasNext := match next with Some _ => true | None => false end;
     links := Some {| next := next |} |}.

Definition page1 : Response :=
  page [record 3 "CallContractMsg"; record 1 "ValueContractMsg"]
    (Some "https://api.aleth.io/v1/transactions/0x/contractMessages?page[next]=c1").
Definition page2 : Response :=
  page [record 2 "CallContractMsg"]
    (Some "https://api.aleth.io/v1/transactions/0x/contractMessages?page[next]=c2").
Definition page3 : Response := page [record 4 "CallContractMsg"; record 0 "CallContractMsg"] None.
Definition page_without_cursor : Response := page [record 5 "CallContractMsg"] (Some "next=").

Definition example_hash : string :=
  "0x5e1c0de5e1c0de5e1c0de5e1c0de5e1c0de5e1c0de5e1c0de5e1c0de5e1c0de0".

End Pages.

(** ** More of the [ethers] library: printing numbers *)

Module Hexlify.

(** [n.toString(16)] for a number that is not negative: its hexadecimal
    digits, most significant first, a single [0] for zero.  The bound on
    the number of digits is the binary logarithm, which always suffices
    (see [toString16_value]). *)
Fixpoint hex_digits (fuel : nat) (n : Z) : string :=
  match fuel with
  | O => EmptyString
  | S fuel' =>
      if n <? 16 then String (ErrorString.hex_char n) EmptyString
      else (hex_digits fuel' (n / 16)
            ++ String (ErrorString.hex_char (n mod 16)) EmptyString)%string
  end.

Definition toString16 (n : Z) : string := hex_digits (S (Z.to_nat (Z.log2 n))) n.

Definition pad_even (digits : string) : string :=
  if Nat.even (String.length digits) then digits else String "0" digits.

(** [value.toHexString()] of a [BigNumber], its [_hex]: [0x] and an even
    number of digits, after a minus sign for a negative number. *)
Definition toHexString (value : Ethers.BigNumber) : string :=
  match value with
  | Ethers.Num n =>
      if n <? 0 then ("-0x" ++ pad_even (toString16 (- n)))%string
      else ("0x" ++ pad_even (toString16 n))%string
  | Ethers.Malformed _hex => _hex
  end.

(** [hexlify(value)] of a number: rejected by [checkSafeUint53] when it is
    negative or not below [0x1fffffffffffff] (the library's message starts
    with [invalid hexlify value] and goes on with the details of the fault,
    which are left out), otherwise [0x] and an even number of digits. *)
Definition hexlify (value : Z) : result string :=
  if (value <? 0) || (0x1fffffffffffff <=? value)
  then Throw (Error "invalid hexlify value")
  else Ok ("0x" ++ pad_even (toString16 value))%string.

End Hexlify.

(** ** The Geth client, continued: [getTransactionError] *)

Module GethErrors.
Import GethClient.

(** [s.replace(/^0x0/, "0x")] with the pattern written out. *)
Definition replace_0x0 (s : string) : string :=
  match s with
  | String "0" (String "x" (String "0" s')) => String "0" (String "x" s')
  | _ => s
  end.

Definition convertBigNumber2Hex (value : Ethers.BigNumber) : string :=
  replace_0x0 (Hexlify.toHexString value).

(** [s.slice(start)]: up to the end of the string. *)
Definition slice_from (s : string) (start : Z) : string :=
  JS.slice s (Some start) (Some (Z.of_nat (String.length s))).

(** [e.message]; a [VError] prints its own message before its cause's. *)
Fixpoint message (e : JsError) : string :=
  match e with
  | TypeError m | SyntaxError m | Error m => m
  | VError cause m => (m ++ ": " ++ message cause)%string
  end.

(** The transaction handed to [getTransactionError], as far as the
    function reads it.  [gasUsed] and [gasLimit] are [BigNumber] objects and
    [tx.gasUsed === tx.gasLimit] compares them by identity:
    [gasUsed_is_gasLimit] tells whether the two properties hold the same
    object. *)
Record TransactionDetails : Type := mkTransactionDetails {
  hash : string;
  nonce : Z;
  gasPrice : Ethers.BigNumber;
  gasLimit : Ethers.BigNumber;
  gasUsed_is_gasLimit : bool;
  value : Ethers.BigNumber;
  from : option string;
  to : option string;
  data : option string;
  blockNumber : Z;
  status : bool }.

(** What [getTransactionError] returns: the message of the node's error
    object as it came, or the decoded revert reason. *)
Inductive Reason : Type :=
| NodeMessage (message : string)
| Decoded (reason : Ethers.text).

Definition optional (v : option string) : JS.JsValue :=
  match v with
  | Some s => JS.JsString s
  | None => JS.JsUndefined
  end.

Section WithJSON.

(** [JSON.parse(text).data]: the parser is a builtin, taken as given.  It
    throws on malformed text; [None] is an absent [data]. *)
Variable JSON_parse_data : string -> result (option string).

(** The [catch] block of [getTransactionError] followed by the final
    [return parseReasonCode(rawMessageData)]. *)
Definition reasonOfError (e : JsError) : result (option Reason) :=
  if String.prefix "Node error: " (message e) then
    (* Trim "Node error: " *)
    let errorObjectStr := slice_from (message e) 12 in
    (* Parse the error object *)
    let* data := JSON_parse_data errorObjectStr in
    match data with
    | Some d =>
        if negb (JS.truthy data)
        then Throw (Error ("Failed to parse data field error object:" ++ errorObjectStr))
        else if String.prefix "Reverted 0x" d then
          (* Trim "Reverted 0x" from the data field *)
          let* reason := parseReasonCode (slice_from d 11) in Ok (Some (Decoded reason))
        else if String.prefix "0x" d then
          (* Trim "0x" from the data field *)
          let* reason := parseReasonCode (slice_from d 2) in Ok (Some (Decoded reason))
        else Throw (Error ("Failed to parse data field of error object:" ++ errorObjectStr))
    | None => Throw (Error ("Failed to parse data field error object:" ++ errorObjectStr))
    end
  else
    Throw (Error ("Failed to parse error message from Ethereum call: " ++ message e)).

(** [getTransactionError(tx)]: the result, the client object after the call
    and the network after the call. *)
Definition getTransactionError (this : Client) (tx : TransactionDetails)
    (w : Axios.World RpcResponse)
    : result (option Reason) * Client * Axios.World RpcResponse :=
  if negb (RegEx.transactionHash (hash tx))
  then (Throw (TypeError "There is no transaction hash on the receipt object"), this, w)
  else if status tx then (Ok None, this, w)
  else if gasUsed_is_gasLimit tx
  then (Throw (Error "Transaction failed as it ran out of gas."), this, w)
  else
    (* need to call for the block before *)
    match Hexlify.hexlify (blockNumber tx - 1) with
    | Throw e => (reasonOfError e, this, w)
    | Ok block =>
        let this' := {| url := url this; network := network this;
                        jsonRpcId := jsonRpcId this + 1 |} in
        let '(reply, w') :=
          Axios.post (url this)
            [("id", JS.JsNumber (jsonRpcId this)); ("jsonrpc", JS.JsString "2.0");
             ("method", JS.JsString "eth_call");
             ("nonce", JS.JsNumber (nonce tx));
             ("gasPrice", JS.JsString (convertBigNumber2Hex (gasPrice tx)));
             ("gas", JS.JsString (convertBigNumber2Hex (gasLimit tx)));
             ("value", JS.JsString (convertBigNumber2Hex (value tx)));
             ("from", optional (from tx)); ("to", optional (to tx));
             ("data", optional (data tx));
             ("block", JS.JsString (replace_0x0 block))] w in
        match reply with
        | Ok response =>
            (Ok (option_map NodeMessage (error_message response)), this', w')
        | Throw e => (reasonOfError e, this', w')
        end
    end.

End WithJSON.

End GethErrors.

(** ** Notions used to state further properties *)

Module Coverage.
Import Transaction GethClient CallTree GethErrors.

(** The client after a request has been made. *)
Definition next_id (this : Client) : Client :=
  {| url := url this; network := network this; jsonRpcId := jsonRpcId this + 1 |}.

(** The error [getTransactionTrace] throws for a cause. *)
Definition traceError (this : Client) (txHash : string) (cause : JsError) : JsError :=
  VError cause ("Failed to get transaction trace for tx hash "
                ++ txHash ++ " from url " ++ url this ++ ".").

(** A digit other than zero is not printed as the character 0. *)
Definition not_zero_char (d : Z) : bool :=
  negb (Ascii.eqb (ErrorString.hex_char d) "0") || (d =? 0).



(** Every object [addTraces] allocates below a parent has a parent. *)
Definition below_parent (c : CallResponse) : Prop :=
  forall id depth p s n s',
    well_formed c -> parent_ok (Some p) depth (heap s) ->
    addTraces c id depth (Some p) s = Ok (n, s') ->
    forall k t, (length (heap s) <= k)%nat -> heap s' !! k = Some t ->
      is_Some (Tr.parentTrace t).

(** A token transfer that calls into a proxy. *)
Definition transfer : CallResponse :=
  Call.mkCallResponse "CALL" (Some "0xaa") (Some "0xbb")
    (Some "0xa9059cbb000000000000000000000000cc") (Some "0x01") (Some "0x0")
    (Some "0x15f90") (Some "0x5208") None None
    (Some [Call.mkCallResponse "STATICCALL" (Some "0xbb") (Some "0xcc") (Some "0x")
             None None (Some "0x2710") (Some "0x64") None None None]).

Definition client : Client :=
  {| url := "http://localhost:8545"; network := "mainnet"; jsonRpcId := 4 |}.

Definition transfer_reply : RpcResponse :=
  {| error_message := None;
     result_ := Some {| call := transfer; structLogs := false |} |}.



Definition failed_tx : TransactionDetails :=
  {| hash := Pages.example_hash; nonce := 7; gasPrice := 1000000000;
     gasLimit := 90000; gasUsed_is_gasLimit := false; value := 0;
     from := Some "0xaa"; to := Some "0xbb"; data := Some "0xa9059cbb";
     blockNumber := 12; status := false |}.

Definition genesis_tx : TransactionDetails :=
  {| hash := Pages.example_hash; nonce := 0; gasPrice := 1; gasLimit := 21000;
     gasUsed_is_gasLimit := false; value := 0; from := Some "0xaa"; to := None;
     data := None; blockNumber := 0; status := false |}.

(** The text of an error object whose data is the revert data of
    "insufficient balance", and a parser that knows this text. *)
Definition revert_data : string :=
  ("Reverted 0x"
   ++ ErrorString.hex (ErrorString.encode (ErrorString.ascii_text "insufficient balance")))%string.

Definition revert_json : string :=
  ("{" ++ JS.quoted "data" ++ ":" ++ JS.quoted revert_data ++ "}")%string.

Definition parse_revert_json (text : string) : result (option string) :=
  if (text =? revert_json)%string then Ok (Some revert_data)
  else Throw (SyntaxError "Unexpected token in JSON").

Definition rpc (replies : list (Axios.Reply RpcResponse)) : Axios.World RpcResponse :=
  {| Axios.pending := replies; Axios.sent := []; Axios.defaults_Authorization := None |}.

(** The first 72 digits of a payload that starts with another selector. *)
Definition panic_head : string :=
  ("4e487b71" ++ ErrorString.hex (ErrorString.word 64))%string.

End Coverage.

(** ** The requests of the indexer client *)

Module Requests.
Import AlethioClient Pages.

(** The [Authorization] header in force once a call made with [apiKey] has
    gone past its [if (apiKey)]. *)
Definition key_in_force (apiKey : option string) (w : Axios.World Response)
    : option string :=
  if JS.truthy apiKey then apiKey else Axios.defaults_Authorization w.

Definition details_request (network txHash : string) (key : option string)
    : Axios.Request :=
  {| Axios.method := "GET";
     Axios.url := (JS.template (alethioBaseUrls network) ++ "/transactions/" ++ txHash)%string;
     Axios.params := [];
     Axios.authorization := key |}.

(** The request for the first page of contract messages. *)
Definition first_request (network txHash : string) (key : option string)
    : Axios.Request :=
  {| Axios.method := "GET";
     Axios.url := (JS.template (alethioBaseUrls network) ++ "/transactions/" ++ txHash
                   ++ "/contractMessages")%string;
     Axios.params := [("page[limit]", JS.JsNumber 100)];
     Axios.authorization := key |}.

(** A request for a further page, on the main network. *)
Definition next_request (txHash : string) (key : option string) (cursor : string)
    : Axios.Request :=
  {| Axios.method := "GET";
     Axios.url := ("https://api.aleth.io/v1/transactions/" ++ txHash
                   ++ "/contractMessages")%string;
     Axios.params := [("page[limit]", JS.JsNumber 100); ("page[next]", JS.JsString cursor)];
     Axios.authorization := key |}.

(** The cursor in the link of a page to the next. *)
Definition cursor_of (page : Response) : string :=
  match next_link page with
  | Some link => cursor_in link
  | None => ""
  end.

(** The network once [requests] have been sent, [rest] is left to be read
    and [key] is the default [Authorization] header. *)
Definition after (w : Axios.World Response) (requests : list Axios.Request)
    (rest : list (Axios.Reply Response)) (key : option string) : Axios.World Response :=
  {| Axios.pending := rest;
     Axios.sent := Axios.sent w ++ requests;
     Axios.defaults_Authorization := key |}.

(** Every request of [requests] carries [key]. *)
Definition carry (key : option string) (requests : list Axios.Request) : Prop :=
  Forall (fun rq => Axios.authorization rq = key) requests.

(** [w'] is [w] after some requests that all carry [key], with [key] left
    as the default header. *)
Definition ran_with (key : option string) (w w' : Axios.World Response) : Prop :=
  Axios.defaults_Authorization w' = key /\
  exists requests,
    Axios.sent w' = Axios.sent w ++ requests /\ carry key requests.

(** The reply to a request for the details of a transaction. *)
Definition details_reply : Response :=
  {| data :=
       TxData
         (Some {| TxAttr.txNonce := 7; TxAttr.txIndex := 3;
                  TxAttr.value := JS.JsString "1000000000000000000";
                  TxAttr.txGasPrice := JS.JsString "0x3b9aca00";
                  TxAttr.blockCreationTime := 1600000000;
                  TxAttr.msgError := true;
                  TxAttr.msgErrorString := Some "Out of gas";
                  TxAttr.msgType := "ValueTx";
                  TxAttr.msgPayload := None;
                  TxAttr.txGasUsed := JS.JsNumber 21000;
                  TxAttr.msgGasLimit := JS.JsNumber 21000 |})
         (Some {| Rel.from := "0xaa"; Rel.to := "0xbb" |});
     hasNext := false;
     links := None |}.

(** A record whose value cannot be read as a number. *)
Definition unreadable_record : ContractMessage :=
  {| attributes :=
       {| CmAttr.cmsgIndex := 6; CmAttr.msgType := "CallContractMsg";
          CmAttr.value := JS.JsString "1e18"; CmAttr.msgPayload := None;
          CmAttr.msgGasUsed := JS.JsNumber 21000;
          CmAttr.msgGasLimit := JS.JsNumber 21000;
          CmAttr.msgCallDepth := 1; CmAttr.msgError := false;
          CmAttr.msgErrorString := None |};
     relationships := {| Rel.from := "0xaa"; Rel.to := "0xbb" |} |}.

Definition with_replies (replies : list (Axios.Reply Response)) : Axios.World Response :=
  {| Axios.pending := replies; Axios.sent := []; Axios.defaults_Authorization := None |}.

End Requests.

(** * Properties *)

(** ** The trace flattener *)

Module FlattenerFacts.
Import Transaction GethClient CallTree.

Lemma CallResponse_tree_ind (P : CallResponse -> Prop) :
  (forall c, Forall P (children c) -> P c) -> forall c, P c.
Proof.
  intros step.
  fix IH 1. intros c. apply step.
  destruct c as [ty f t i o v g gu tm e cs]. unfold children. simpl.
  destruct cs as [l|]; [|constructor].
  induction l as [|x l IHl]; constructor; [apply IH | exact IHl].
Qed.

Lemma nodes_unfold c : nodes c = c :: flat_map nodes (children c).
Proof.
  destruct c as [ty f t i o v g gu tm e cs]. unfold children. simpl.
  f_equal. destruct cs as [l|]; [|reflexivity].
  induction l as [|x l IHl]; simpl; [reflexivity|]. now rewrite IHl.
Qed.

Lemma count_unfold c :
  count c = S (length (flat_map nodes (children c))).
Proof. unfold count. now rewrite nodes_unfold. Qed.

Lemma addTraces_unfold c id depth parentTrace s :
  addTraces c id depth parentTrace s =
  let* parent := deref parentTrace (heap s) in
  let* t := newTrace c id depth parentTrace parent in
  let r : ref := length (heap s) in
  forEach_addTraces (children c) (id + 1) depth r
    {| heap := link_child parentTrace r (heap s ++ [t]);
       traces := traces s ++ [r] |}.
Proof.
  destruct c as [ty f t i o v g gu tm e cs]. unfold children. simpl.
  destruct (deref parentTrace (heap s)) as [parent|err]; simpl; [|reflexivity].
  match goal with |- context [newTrace ?c _ _ _ _] => destruct (newTrace c id depth parentTrace parent) as [t0|err] end;
    simpl; [|reflexivity].
  destruct cs as [l|]; [|reflexivity].
  match goal with |- _ l ?i ?s1 = _ => generalize i, s1 end.
  induction l as [|x l IHl]; intros id' s'; simpl; [reflexivity|].
  unfold bind at 1 3.
  match goal with |- context [addTraces x ?a ?b ?c ?d] =>
    destruct (addTraces x a b c d) as [[id2 s2]|err] end;
    [apply IHl | reflexivity].
Qed.

Lemma with_children_id t : with_children (Tr.childTraces t) t = t.
Proof. now destruct t. Qed.

Lemma same_object_refl t : same_object t t.
Proof. exists []. rewrite app_nil_r. symmetry. apply with_children_id. Qed.

Lemma same_object_trans t1 t2 t3 :
  same_object t1 t2 -> same_object t2 t3 -> same_object t1 t3.
Proof.
  intros [l1 ->] [l2 ->]. exists (l1 ++ l2). simpl. now rewrite app_assoc.
Qed.

Lemma same_object_push r t : same_object t (Tr.push_child r t).
Proof. now exists [r]. Qed.

(** What an object keeps for ever. *)
Lemma same_object_fields t t' :
  same_object t t' ->
  Tr.id t' = Tr.id t /\ Tr.type t' = Tr.type t /\ Tr.from t' = Tr.from t /\
  Tr.delegatedFrom t' = Tr.delegatedFrom t /\ Tr.to t' = Tr.to t /\
  Tr.value t' = Tr.value t /\ Tr.gasLimit t' = Tr.gasLimit t /\
  Tr.gasUsed t' = Tr.gasUsed t /\ Tr.parentTrace t' = Tr.parentTrace t /\
  Tr.depth t' = Tr.depth t /\ Tr.error t' = Tr.error t /\
  (forall r, r ∈ Tr.childTraces t -> r ∈ Tr.childTraces t').
Proof.
  intros [l ->]. simpl. repeat split; try reflexivity.
  intros r Hr. apply elem_of_app. now left.
Qed.

Lemma evolves_refl h : evolves h h.
Proof. split; [lia|]. intros k t Hk. exists t. split; [assumption | apply same_object_refl]. Qed.

Lemma evolves_trans h1 h2 h3 : evolves h1 h2 -> evolves h2 h3 -> evolves h1 h3.
Proof.
  intros [L1 E1] [L2 E2]. split; [lia|].
  intros k t Hk. destruct (E1 k t Hk) as (t2 & Hk2 & S12).
  destruct (E2 k t2 Hk2) as (t3 & Hk3 & S23).
  exists t3. split; [assumption | eapply same_object_trans; eassumption].
Qed.

Lemma linked_evolves h h' k t t' :
  evolves h h' -> same_object t t' -> linked h k t -> linked h' k t'.
Proof.
  intros [_ E] St. unfold linked.
  destruct (same_object_fields _ _ St) as (_ & _ & Hf & Hd & _ & _ & _ & _ & Hp & Hdep & _ & _).
  rewrite Hp, Hd, Hf, Hdep.
  destruct (Tr.parentTrace t) as [p|]; [|trivial].
  intros (Hlt & pt & Hpt & Hdepth & Hdel & Hin).
  split; [assumption|].
  destruct (E p pt Hpt) as (pt' & Hpt' & Spt).
  destruct (same_object_fields _ _ Spt) as (_ & Hty & _ & _ & Hto & _ & _ & _ & _ & Hdep' & _ & Hch).
  exists pt'. rewrite Hty, Hto, Hdep'. auto.
Qed.

Lemma all_linked_evolves_old h h' :
  evolves h h' -> all_linked h ->
  forall k t', (k < length h)%nat -> h' !! k = Some t' -> linked h' k t'.
Proof.
  intros Ev Al k t' Hk Hk'.
  destruct (lookup_lt_is_Some_2 h k Hk) as [t Ht].
  destruct (proj2 Ev k t Ht) as (t2 & Ht2 & St).
  assert (t2 = t') by congruence. subst t2.
  eapply linked_evolves; eauto.
Qed.

(** Allocating the new object and pushing it to its parent. *)
Lemma link_child_evolves parentTrace h t :
  evolves h (link_child parentTrace (length h) (h ++ [t])).
Proof.
  unfold link_child.
  assert (Happ : evolves h (h ++ [t])).
  { split; [rewrite length_app; lia|]. intros k u Hk. exists u.
    split; [now apply lookup_app_l_Some | apply same_object_refl]. }
  destruct parentTrace as [p|]; [|exact Happ].
  destruct ((h ++ [t]) !! p) as [pt|] eqn:Hp; [|exact Happ].
  split; [rewrite length_insert, length_app; lia|].
  intros k u Hk.
  destruct (decide (p = k)) as [->|Hne].
  - exists (Tr.push_child (length h) pt). split.
    + apply list_lookup_insert_eq. apply lookup_lt_Some in Hp. exact Hp.
    + rewrite (lookup_app_l_Some _ _ _ _ Hk) in Hp. injection Hp as <-.
      apply same_object_push.
  - exists u. split; [|apply same_object_refl].
    rewrite list_lookup_insert_ne by assumption. now apply lookup_app_l_Some.
Qed.

Lemma link_child_length parentTrace r h :
  length (link_child parentTrace r h) = length h.
Proof.
  unfold link_child. destruct parentTrace as [p|]; [|reflexivity].
  destruct (h !! p); [apply length_insert | reflexivity].
Qed.

Lemma link_child_new parentTrace h t :
  (forall p, parentTrace = Some p -> (p < length h)%nat) ->
  link_child parentTrace (length h) (h ++ [t]) !! length h = Some t.
Proof.
  intros Hp. unfold link_child.
  assert (Hnew : (h ++ [t]) !! length h = Some t).
  { rewrite lookup_app_r by lia. now rewrite Nat.sub_diag. }
  destruct parentTrace as [p|]; [|exact Hnew].
  specialize (Hp p eq_refl).
  destruct ((h ++ [t]) !! p) as [pt|] eqn:E; [|exact Hnew].
  rewrite list_lookup_insert_ne; [exact Hnew|]. lia.
Qed.

Lemma link_child_parent p h t pt :
  h !! p = Some pt ->
  link_child (Some p) (length h) (h ++ [t]) !! p = Some (Tr.push_child (length h) pt).
Proof.
  intros Hp. unfold link_child.
  rewrite (lookup_app_l_Some _ _ _ _ Hp).
  apply list_lookup_insert_eq. rewrite length_app. apply lookup_lt_Some in Hp. lia.
Qed.

Lemma convertBigNumber_ok v :
  is_ok (convertBigNumber v) = true -> exists n, convertBigNumber v = Ok n.
Proof. destruct (convertBigNumber v) as [n|e]; [eauto | discriminate]. Qed.

Lemma newTrace_ok c id depth parentTrace parent :
  numbers_ok c = true ->
  exists t, newTrace c id depth parentTrace parent = Ok t.
Proof.
  unfold numbers_ok. rewrite !andb_true_iff. intros [[Hv Hg] Hu].
  apply convertBigNumber_ok in Hv, Hg, Hu.
  destruct Hv as [v Hv], Hg as [g Hg], Hu as [u Hu].
  unfold newTrace. rewrite Hv, Hg, Hu.
  destruct (JS.truthy (Call.value c)); simpl; eauto.
Qed.

(** The properties of the literal. *)
Lemma newTrace_fields c id depth parentTrace parent t :
  newTrace c id depth parentTrace parent = Ok t ->
  Tr.id t = id /\ Tr.type t = convertType c /\ Tr.from t = Call.from c /\
  Tr.delegatedFrom t = delegatedFrom_of parent c /\ Tr.to t = Call.to c /\
  Tr.parentTrace t = parentTrace /\ Tr.childTraces t = [] /\
  Tr.depth t = depth /\ Tr.error t = Call.error c /\
  Tr.inputs t = Call.input c /\ Tr.outputs t = Call.output c /\
  Tr.funcSelector t = selector (Call.input c).
Proof.
  unfold newTrace.
  destruct (if JS.truthy (Call.value c) then convertBigNumber (Call.value c) else Ok (Some (Ethers.Num 0)));
    simpl; [|discriminate].
  destruct (convertBigNumber (Call.gas c)); simpl; [|discriminate].
  destruct (convertBigNumber (Call.gasUsed c)); simpl; [|discriminate].
  intros [= <-]. simpl. repeat split.
Qed.

Lemma parent_ok_evolves r depth h h' :
  evolves h h' -> parent_ok (Some r) depth h -> parent_ok (Some r) depth h'.
Proof.
  intros [_ E] (pt & Hpt & Hd). destruct (E r pt Hpt) as (pt' & Hpt' & S).
  exists pt'. split; [assumption|].
  destruct (same_object_fields _ _ S) as (_ & _ & _ & _ & _ & _ & _ & _ & _ & Hdep & _).
  now rewrite Hdep.
Qed.

Lemma built_for_evolves node id t t' :
  same_object t t' -> built_for node id t -> built_for node id t'.
Proof.
  intros S (d & p & pt & t0 & Hn & S0). exists d, p, pt, t0.
  split; [assumption | eapply same_object_trans; eassumption].
Qed.

Lemma forEach_addTraces_post l :
  Forall addTraces_post l ->
  forall id depth r s,
    Forall well_formed l -> parent_ok (Some r) (depth + 1) (heap s) ->
    exists s',
      forEach_addTraces l id depth r s
      = Ok (id + Z.of_nat (length (flat_map nodes l)), s') /\
      post (flat_map nodes l) id s s'.
Proof.
  induction 1 as [|x l Hx Hl IH]; intros id depth r s Hwf Hp.
  - exists s. simpl. rewrite Z.add_0_r. split; [reflexivity|].
    unfold post. simpl. rewrite app_nil_r, Nat.add_0_r.
    repeat split; auto using evolves_refl.
    + apply (evolves_refl (heap s)).
    + intros k node Hk. discriminate.
  - inversion Hwf as [|? ? Hwx Hwl]; subst.
    destruct (Hx id (depth + 1) (Some r) s Hwx Hp)
      as (s2 & Hrun & (Htr & Hlen & Hev & Hlk & Hnodes) & _).
    destruct (IH (id + Z.of_nat (count x)) depth r s2 Hwl
                (parent_ok_evolves _ _ _ _ Hev Hp))
      as (s' & Hrun' & (Htr' & Hlen' & Hev' & Hlk' & Hnodes')).
    exists s'. simpl. rewrite Hrun. simpl. rewrite Hrun'. split.
    + do 2 f_equal. rewrite length_app. unfold count. lia.
    + unfold post. rewrite length_app. repeat split.
      * rewrite Htr', Htr, Hlen, <- app_assoc. f_equal. symmetry. apply seq_app.
      * lia.
      * apply (proj1 (evolves_trans _ _ _ Hev Hev')).
      * apply (proj2 (evolves_trans _ _ _ Hev Hev')).
      * auto.
      * intros k node Hk.
        destruct (decide (k < length (nodes x))%nat) as [Hlt|Hge].
        -- rewrite lookup_app_l in Hk by assumption.
           destruct (Hnodes k node Hk) as (t & Ht & Hb).
           destruct (proj2 Hev' _ _ Ht) as (t' & Ht' & S).
           exists t'. split; [assumption | eapply built_for_evolves; eassumption].
        -- rewrite lookup_app_r in Hk by lia.
           destruct (Hnodes' _ node Hk) as (t & Ht & Hb).
           exists t. split.
           ++ rewrite <- Ht. f_equal. lia.
           ++ replace (id + Z.of_nat k)
                with (id + Z.of_nat (count x) + Z.of_nat (k - length (nodes x)));
                [assumption | unfold count; lia].
Qed.

Lemma well_formed_unfold c :
  well_formed c <-> numbers_ok c = true /\ Forall well_formed (children c).
Proof.
  unfold well_formed. rewrite nodes_unfold. simpl. rewrite andb_true_iff.
  apply and_iff_compat_l.
  induction (children c) as [|x l IH]; simpl.
  - split; [constructor | reflexivity].
  - rewrite forallb_app, andb_true_iff, Forall_cons, IH. reflexivity.
Qed.

Lemma deref_parent_ok parentTrace depth h :
  parent_ok parentTrace depth h ->
  exists parent, deref parentTrace h = Ok parent /\
    match parentTrace with
    | Some p => exists pt, parent = Some pt /\ h !! p = Some pt /\ depth = Tr.depth pt + 1
    | None => parent = None
    end.
Proof.
  destruct parentTrace as [p|]; simpl.
  - intros (pt & Hpt & Hd). exists (Some pt). rewrite Hpt. eauto.
  - intros _. eauto.
Qed.

(** The store after the new object has been allocated and pushed to its
    parent: every object is still tied to its parent. *)
Lemma all_linked_alloc c id depth parentTrace parent t h :
  deref parentTrace h = Ok parent ->
  parent_ok parentTrace depth h ->
  newTrace c id depth parentTrace parent = Ok t ->
  all_linked h ->
  all_linked (link_child parentTrace (length h) (h ++ [t])).
Proof.
  intros Hderef Hp Hnew Hall k t' Hk.
  destruct (decide (k < length h)%nat) as [Hlt|Hge].
  { eapply all_linked_evolves_old; eauto using link_child_evolves. }
  assert (Hkl : k = length h).
  { apply lookup_lt_Some in Hk. rewrite link_child_length, length_app in Hk.
    simpl in Hk. lia. }
  subst k.
  assert (Hvalid : forall p, parentTrace = Some p -> (p < length h)%nat).
  { intros p ->. destruct Hp as (pt & Hpt & _). now apply lookup_lt_Some in Hpt. }
  rewrite (link_child_new _ _ _ Hvalid) in Hk. injection Hk as <-.
  destruct (newTrace_fields _ _ _ _ _ _ Hnew)
    as (_ & _ & Hf & Hd & _ & Hpar & _ & Hdep & _).
  unfold linked. rewrite Hpar, Hd, Hf, Hdep.
  destruct parentTrace as [p|]; simpl in *.
  - destruct Hp as (pt & Hpt & Hdepth). rewrite Hpt in Hderef.
    injection Hderef as <-. split; [auto|].
    exists (Tr.push_child (length h) pt). split; [now apply link_child_parent|].
    simpl. repeat split; [assumption|]. apply elem_of_app. right. now apply list_elem_of_singleton.
  - injection Hderef as <-. reflexivity.
Qed.

Lemma addTraces_spec c : addTraces_post c.
Proof.
  induction c as [c IH] using CallResponse_tree_ind.
  intros id depth parentTrace s Hwf Hp.
  apply well_formed_unfold in Hwf. destruct Hwf as [Hnum Hkids].
  rewrite addTraces_unfold.
  destruct (deref_parent_ok _ _ _ Hp) as (parent & Hderef & Hparent).
  rewrite Hderef. simpl.
  destruct (newTrace_ok c id depth parentTrace parent Hnum) as [t Hnew].
  rewrite Hnew. simpl.
  set (r := length (heap s)).
  set (s1 := {| heap := link_child parentTrace r (heap s ++ [t]);
                traces := traces s ++ [r] |}).
  assert (Hvalid : forall p, parentTrace = Some p -> (p < length (heap s))%nat).
  { intros p ->. destruct Hp as (pt & Hpt & _). now apply lookup_lt_Some in Hpt. }
  assert (Hr : heap s1 !! r = Some t) by (apply link_child_new; assumption).
  assert (Hlen1 : length (heap s1) = S r).
  { simpl. rewrite link_child_length, length_app. simpl. unfold r. lia. }
  assert (Hev1 : evolves (heap s) (heap s1)) by apply link_child_evolves.
  destruct (newTrace_fields _ _ _ _ _ _ Hnew)
    as (_ & _ & _ & _ & _ & Hpar & _ & Hdep & _).
  assert (Hp1 : parent_ok (Some r) (depth + 1) (heap s1)).
  { exists t. split; [assumption | now rewrite Hdep]. }
  destruct (forEach_addTraces_post (children c) IH (id + 1) depth r s1 Hkids Hp1)
    as (s' & Hrun & (Htr & Hlen & Hev & Hlk & Hnodes)).
  destruct (proj2 Hev _ _ Hr) as (t' & Ht' & St).
  exists s'. split; [|split].
  - rewrite Hrun. do 2 f_equal. rewrite count_unfold. lia.
  - unfold post. rewrite nodes_unfold. simpl length. repeat split.
    + rewrite Htr, Hlen1. simpl. rewrite <- app_assoc. reflexivity.
    + rewrite Hlen, Hlen1. unfold r. lia.
    + apply (proj1 (evolves_trans _ _ _ Hev1 Hev)).
    + apply (proj2 (evolves_trans _ _ _ Hev1 Hev)).
    + intros Hall. apply Hlk. eapply all_linked_alloc; eauto.
    + intros [|k] node Hk; simpl in Hk.
      * injection Hk as <-. exists t'. rewrite Nat.add_0_r, Z.add_0_r.
        split; [assumption|]. exists depth, parentTrace, parent, t. auto.
      * destruct (Hnodes k node Hk) as (u & Hu & Hb). exists u. split.
        -- rewrite <- Hu. f_equal. rewrite Hlen1. unfold r. lia.
        -- replace (id + Z.of_nat (S k)) with (id + 1 + Z.of_nat k) by lia.
           assumption.
  - exists parent, t, t'. auto.
Qed.

Lemma omap_lookup_seq {A : Type} (h1 h2 : list A) :
  omap (fun r => (h1 ++ h2) !! r) (seq (length h1) (length h2)) = h2.
Proof.
  revert h1. induction h2 as [|x h2 IH]; intros h1; [reflexivity|].
  simpl. rewrite lookup_app_r, Nat.sub_diag by lia. simpl. f_equal.
  specialize (IH (h1 ++ [x])). rewrite <- app_assoc, length_app in IH. simpl in IH.
  rewrite Nat.add_1_r in IH. exact IH.
Qed.

Lemma read_traces_all s :
  traces s = seq 0 (length (heap s)) -> read_traces s = heap s.
Proof. intros H. unfold read_traces. rewrite H. apply (omap_lookup_seq [] (heap s)). Qed.

(** Flattening a well-formed tree from the empty store, as
    [getTransactionTrace] does. *)
Lemma flatten_spec c :
  well_formed c ->
  exists s,
    addTraces c 0 0 None empty_store = Ok (Z.of_nat (count c), s) /\
    read_traces s = heap s /\
    length (heap s) = count c /\
    all_linked (heap s) /\
    forall k node, nodes c !! k = Some node ->
      exists t, heap s !! k = Some t /\ built_for node (Z.of_nat k) t.
Proof.
  intros Hwf.
  destruct (addTraces_spec c 0 0 None empty_store Hwf I)
    as (s & Hrun & (Htr & Hlen & _ & Hlk & Hnodes) & _).
  simpl in *. exists s. repeat split; auto.
  - apply read_traces_all. now rewrite Htr, Hlen.
  - apply Hlk. intros k t Hk. discriminate.
Qed.

Lemma built_for_fields node id t :
  built_for node id t ->
  Tr.id t = id /\ Tr.type t = convertType node /\ Tr.from t = Call.from node /\
  Tr.to t = Call.to node /\ Tr.error t = Call.error node /\
  (Call.value node = None -> Tr.value t = Some (Ethers.Num 0)) /\
  (Call.gas node = None -> Tr.gasLimit t = None) /\
  (Call.gasUsed node = None -> Tr.gasUsed t = None).
Proof.
  intros (d & p & pt & t0 & Hnew & S).
  destruct (same_object_fields _ _ S)
    as (Hid & Hty & Hf & _ & Hto & Hv & Hgl & Hgu & _ & _ & He & _).
  rewrite Hid, Hty, Hf, Hto, Hv, Hgl, Hgu, He. clear S Hid Hty Hf Hto Hv Hgl Hgu He.
  destruct (newTrace_fields _ _ _ _ _ _ Hnew)
    as (Hid & Hty & Hf & _ & Hto & _ & _ & _ & He & _).
  repeat split; try assumption.
  - intros Hnone. unfold newTrace in Hnew. rewrite Hnone in Hnew. simpl in Hnew.
    destruct (convertBigNumber (Call.gas node)); simpl in Hnew; [|discriminate].
    destruct (convertBigNumber (Call.gasUsed node)); simpl in Hnew; [|discriminate].
    injection Hnew as <-. reflexivity.
  - intros Hnone. unfold newTrace in Hnew. rewrite Hnone in Hnew.
    destruct (if JS.truthy (Call.value node) then convertBigNumber (Call.value node)
              else Ok (Some (Ethers.Num 0))); simpl in Hnew; [|discriminate].
    destruct (convertBigNumber (Call.gasUsed node)); simpl in Hnew; [|discriminate].
    injection Hnew as <-. reflexivity.
  - intros Hnone. unfold newTrace in Hnew. rewrite Hnone in Hnew.
    destruct (if JS.truthy (Call.value node) then convertBigNumber (Call.value node)
              else Ok (Some (Ethers.Num 0))); simpl in Hnew; [|discriminate].
    destruct (convertBigNumber (Call.gas node)); simpl in Hnew; [|discriminate].
    injection Hnew as <-. reflexivity.
Qed.

(** C2. For every well-formed call tree, [addTraces] started at id 0 on an
    empty list of traces returns the number of nodes of the tree and leaves
    exactly one trace per node, in pre-order: the k-th trace is the object
    built for the k-th node in pre-order and its id is k, so that the ids
    are 0, 1, ..., count - 1 across the whole tree. *)
Theorem addTraces_preorder_ids (c : CallResponse) :
  well_formed c ->
  exists s,
    addTraces c 0 0 None empty_store = Ok (Z.of_nat (count c), s) /\
    length (read_traces s) = count c /\
    map Tr.id (read_traces s) = map Z.of_nat (seq 0 (count c)) /\
    forall k node, nodes c !! k = Some node ->
      exists t, read_traces s !! k = Some t /\ built_for node (Z.of_nat k) t.
Proof.
  intros Hwf. destruct (flatten_spec c Hwf) as (s & Hrun & Hread & Hlen & _ & Hnodes).
  exists s. rewrite Hread. repeat split; try assumption.
  apply list_eq. intros k. rewrite !list_lookup_fmap.
  destruct (decide (k < count c)%nat) as [Hlt|Hge].
  - rewrite lookup_seq_lt by assumption. simpl.
    destruct (lookup_lt_is_Some_2 (nodes c) k Hlt) as [node Hnode].
    destruct (Hnodes k node Hnode) as (t & Ht & Hb). rewrite Ht. simpl.
    now destruct (built_for_fields _ _ _ Hb) as (-> & _).
  - rewrite lookup_seq_ge by lia.
    rewrite (proj2 (lookup_ge_None (heap s) k)) by lia. reflexivity.
Qed.

Lemma addTraces_preorder_ids_witness :
  exists s,
    addTraces two_level 0 0 None empty_store = Ok (Z.of_nat (count two_level), s) /\
    length (read_traces s) = count two_level /\
    map Tr.id (read_traces s) = map Z.of_nat (seq 0 (count two_level)) /\
    forall k node, nodes two_level !! k = Some node ->
      exists t, read_traces s !! k = Some t /\ built_for node (Z.of_nat k) t.
Proof. apply (addTraces_preorder_ids two_level). reflexivity. Defined.

(** C6, as the code has it.  For every well-formed call tree in which
    exactly one node, the k-th in pre-order, carries an error, flattening
    succeeds and leaves a trace for every node; the k-th trace carries that
    error string and every other trace has no error.  A trace has no
    [status] property. *)
Theorem addTraces_error_isolated (c failed : CallResponse) (k : nat) (e : string) :
  well_formed c ->
  nodes c !! k = Some failed ->
  Call.error failed = Some e ->
  (forall j node, j <> k -> nodes c !! j = Some node -> Call.error node = None) ->
  exists s,
    addTraces c 0 0 None empty_store = Ok (Z.of_nat (count c), s) /\
    length (read_traces s) = count c /\
    (forall j node, nodes c !! j = Some node ->
       exists t, read_traces s !! j = Some t /\ built_for node (Z.of_nat j) t) /\
    (exists t, read_traces s !! k = Some t /\ Tr.error t = Some e) /\
    (forall j t, j <> k -> read_traces s !! j = Some t -> Tr.error t = None).
Proof.
  intros Hwf Hk He Hothers.
  destruct (flatten_spec c Hwf) as (s & Hrun & Hread & Hlen & _ & Hnodes).
  exists s. rewrite Hread. repeat split; try assumption.
  - destruct (Hnodes k failed Hk) as (t & Ht & Hb). exists t. split; [assumption|].
    destruct (built_for_fields _ _ _ Hb) as (_ & _ & _ & _ & -> & _). assumption.
  - intros j t Hj Ht.
    assert (Hlt : (j < count c)%nat) by (rewrite <- Hlen; eapply lookup_lt_Some; eauto).
    destruct (lookup_lt_is_Some_2 (nodes c) j Hlt) as [node Hnode].
    destruct (Hnodes j node Hnode) as (t' & Ht' & Hb).
    assert (t' = t) by congruence. subst t'.
    destruct (built_for_fields _ _ _ Hb) as (_ & _ & _ & _ & -> & _). eauto.
Qed.

Lemma addTraces_error_isolated_witness :
  exists s,
    addTraces two_level 0 0 None empty_store = Ok (Z.of_nat (count two_level), s) /\
    length (read_traces s) = count two_level /\
    (forall j node, nodes two_level !! j = Some node ->
       exists t, read_traces s !! j = Some t /\ built_for node (Z.of_nat j) t) /\
    (exists t, read_traces s !! 3%nat = Some t /\ Tr.error t = Some "execution reverted") /\
    (forall j t, j <> 3%nat -> read_traces s !! j = Some t -> Tr.error t = None).
Proof.
  apply (addTraces_error_isolated two_level
           (mkCall "CALL" "0xbb" "0xee" (Some "execution reverted") None) 3).
  - reflexivity.
  - reflexivity.
  - reflexivity.
  - intros [|[|[|[|j]]]] node Hj Hnode; simpl in Hnode;
      try (injection Hnode as <-; reflexivity); [contradiction | discriminate].
Defined.

(** C6 as the specification states it fails: the trace of a failed call
    does not have [status] equal to [false]. *)
Lemma addTraces_no_status :
  exists s t,
    addTraces (mkCall "CALL" "0xaa" "0xbb" (Some "execution reverted") None)
      0 0 None empty_store = Ok (1, s) /\
    read_traces s = [t] /\
    Tr.error t = Some "execution reverted" /\
    status t <> Some false.
Proof. eexists _, _. repeat split. discriminate. Qed.



(** C10. In the traces of every well-formed call tree, a call without
    [value] yields a trace whose [value] is the number 0, whereas a call
    without [gas] yields a trace whose [gasLimit] is undefined and a call
    without [gasUsed] a trace whose [gasUsed] is undefined. *)
Theorem addTraces_missing_value_gas (c : CallResponse) :
  well_formed c ->
  exists s,
    addTraces c 0 0 None empty_store = Ok (Z.of_nat (count c), s) /\
    forall k node, nodes c !! k = Some node ->
      exists t, read_traces s !! k = Some t /\
        (Call.value node = None -> Tr.value t = Some (Ethers.Num 0)) /\
        (Call.gas node = None -> Tr.gasLimit t = None) /\
        (Call.gasUsed node = None -> Tr.gasUsed t = None).
Proof.
  intros Hwf. destruct (flatten_spec c Hwf) as (s & Hrun & Hread & _ & _ & Hnodes).
  exists s. split; [assumption|]. rewrite Hread.
  intros k node Hk. destruct (Hnodes k node Hk) as (t & Ht & Hb).
  exists t. split; [assumption|].
  destruct (built_for_fields _ _ _ Hb) as (_ & _ & _ & _ & _ & Hv & Hg & Hu). auto.
Qed.

Lemma addTraces_missing_value_gas_witness :
  exists s,
    addTraces two_level 0 0 None empty_store = Ok (Z.of_nat (count two_level), s) /\
    forall k node, nodes two_level !! k = Some node ->
      exists t, read_traces s !! k = Some t /\
        (Call.value node = None -> Tr.value t = Some (Ethers.Num 0)) /\
        (Call.gas node = None -> Tr.gasLimit t = None) /\
        (Call.gasUsed node = None -> Tr.gasUsed t = None).
Proof. apply (addTraces_missing_value_gas two_level). reflexivity. Defined.

Lemma convertType_CALL c : Call.type c = "CALL" -> convertType c = Call.
Proof. unfold convertType. now intros ->. Qed.

Lemma convertType_DELEGATECALL c :
  Call.type c = "DELEGATECALL" -> convertType c = DelegateCall.
Proof. unfold convertType. now intros ->. Qed.

(** C1, as the code has it.  For every well-formed call tree of the shape
    root -(CALL)-> a -(DELEGATECALL)-> b -(DELEGATECALL)-> c, the trace of
    the call to b has [delegatedFrom] equal to a, and the trace of the call
    to c has [delegatedFrom] equal to b, the [to] of its parent trace:
    the attribution looks one level up only. *)
Theorem delegatedFrom_chain (root a b c : string) (t : CallResponse) :
  chain_shape root a b c t ->
  well_formed t ->
  exists n s mB mC,
    addTraces t 0 0 None empty_store = Ok (n, s) /\
    read_traces s !! 1%nat = Some mB /\
    read_traces s !! 2%nat = Some mC /\
    Tr.to mB = Some b /\ Tr.to mC = Some c /\
    Tr.delegatedFrom mB = Some a /\
    Tr.delegatedFrom mC = Some b.
Proof.
  intros Hshape Hwf. unfold chain_shape in Hshape.
  destruct (Call.calls t) as [[|call_b [|]]|] eqn:Ht; try contradiction.
  destruct (Call.calls call_b) as [[|call_c [|]]|] eqn:Hb; try contradiction.
  destruct Hshape as (Hty & Hfrom & Hto & HtyB & HfromB & HtoB & HtyC & HtoC).
  apply well_formed_unfold in Hwf. destruct Hwf as [Hnum HwfB].
  unfold children in HwfB. rewrite Ht in HwfB.
  apply Forall_cons in HwfB. destruct HwfB as [HwfB _].
  apply well_formed_unfold in HwfB. destruct HwfB as [HnumB HwfC].
  unfold children in HwfC. rewrite Hb in HwfC.
  apply Forall_cons in HwfC. destruct HwfC as [HwfC _].
  (* the top-level call *)
  rewrite addTraces_unfold. simpl deref. cbn [bind].
  destruct (newTrace_ok t 0 0 None None Hnum) as [t0 Hnew0]. rewrite Hnew0. cbn [bind].
  destruct (newTrace_fields _ _ _ _ _ _ Hnew0) as (_ & Hty0 & _).
  unfold children at 1. rewrite Ht. cbn [forEach_addTraces heap traces].
  (* the call to b *)
  rewrite addTraces_unfold. cbn [heap traces empty_store app link_child length].
  simpl deref. cbn [bind].
  destruct (newTrace_ok call_b (0 + 1) (0 + 1) (Some 0%nat) (Some t0) HnumB) as [tB HnewB].
  rewrite HnewB. cbn [bind].
  destruct (newTrace_fields _ _ _ _ _ _ HnewB)
    as (_ & HtyB' & _ & HdelB & HtoB' & _ & _ & HdepB & _).
  unfold children at 1. rewrite Hb. cbn [forEach_addTraces heap traces].
  (* the call to c and what it calls *)
  match goal with |- context [addTraces call_c _ _ _ ?st] => set (s2 := st) end.
  assert (H2 : heap s2 = [Tr.push_child 1 t0; tB]) by reflexivity.
  assert (Hp : parent_ok (Some 1%nat) (0 + 1 + 1) (heap s2)).
  { exists tB. rewrite H2. split; [reflexivity | now rewrite HdepB]. }
  destruct (addTraces_spec call_c (0 + 1 + 1) (0 + 1 + 1) (Some 1%nat) s2 HwfC Hp)
    as (s3 & Hrun & (Htr & Hlen & Hev & _ & _) & (parent & tC & mC & Hderef & HnewC & HmC & SC)).
  rewrite H2 in Hderef, HmC, Hlen, Htr. simpl in Hderef, HmC, Hlen, Htr.
  injection Hderef as <-.
  destruct (proj2 Hev 1%nat tB) as (mB & HmB & SB); [now rewrite H2|].
  rewrite Hrun. cbn [bind].
  exists (0 + 1 + 1 + Z.of_nat (count call_c)), s3, mB, mC.
  rewrite read_traces_all by (rewrite Htr, Hlen; reflexivity).
  destruct (same_object_fields _ _ SB) as (_ & _ & _ & HdB & HtB & _).
  destruct (same_object_fields _ _ SC) as (_ & _ & _ & HdC & HtC & _).
  destruct (newTrace_fields _ _ _ _ _ _ HnewC) as (_ & _ & _ & HdelC & HtoC' & _).
  repeat split; try assumption.
  - now rewrite HtB, HtoB'.
  - now rewrite HtC, HtoC'.
  - rewrite HdB, HdelB. simpl. rewrite Hty0, (convertType_CALL t Hty). assumption.
  - rewrite HdC, HdelC. simpl. rewrite HtyB', (convertType_DELEGATECALL _ HtyB).
    simpl. now rewrite HtoB'.
Qed.

Lemma delegatedFrom_chain_witness :
  exists n s mB mC,
    addTraces (chain "Root" "A" "B" "C") 0 0 None empty_store = Ok (n, s) /\
    read_traces s !! 1%nat = Some mB /\
    read_traces s !! 2%nat = Some mC /\
    Tr.to mB = Some "B" /\ Tr.to mC = Some "C" /\
    Tr.delegatedFrom mB = Some "A" /\
    Tr.delegatedFrom mC = Some "B".
Proof.
  apply (delegatedFrom_chain "Root" "A" "B" "C" (chain "Root" "A" "B" "C")).
  - simpl. repeat split.
  - reflexivity.
Defined.

(** C1 as the specification states it fails: in the chain
    Root -(CALL)-> A -(DELEGATECALL)-> B -(DELEGATECALL)-> C the trace of
    the call to C does not have [delegatedFrom] equal to A. *)
Lemma delegatedFrom_chain_not_transitive :
  exists s mC,
    addTraces (chain "Root" "A" "B" "C") 0 0 None empty_store = Ok (3, s) /\
    read_traces s !! 2%nat = Some mC /\
    Tr.to mC = Some "C" /\
    Tr.delegatedFrom mC <> Some "A".
Proof. eexists _, _. repeat split. discriminate. Qed.

(** The flattener at work on a small tree. *)
Example addTraces_two_level :
  exists s,
    addTraces two_level 0 0 None empty_store = Ok (4, s) /\
    map Tr.id (read_traces s) = [0; 1; 2; 3] /\
    map Tr.depth (read_traces s) = [0; 1; 2; 1] /\
    map Tr.parentTrace (read_traces s) = [None; Some 0%nat; Some 1%nat; Some 0%nat] /\
    map Tr.childTraces (read_traces s) = [[1%nat; 3%nat]; [2%nat]; []; []] /\
    map Tr.type (read_traces s) = [Call; StaticCall; Call; Call].
Proof. eexists. repeat split. Qed.

(** A number the library cannot read makes the flattener throw the
    library's error. *)
Example addTraces_unreadable_value :
  exists m,
    addTraces
      (Call.mkCallResponse "CALL" (Some "0xaa") (Some "0xbb") None None (Some "1 ether")
         None None None None None) 0 0 None empty_store
    = Throw (Error m) /\
    String.prefix "invalid BigNumber string" m = true.
Proof. eexists. split; reflexivity. Qed.

End FlattenerFacts.

(** ** The revert-reason decoder *)

Module DecoderFacts.
Import GethClient ErrorString ByteChecks.

(** *** Strings *)

Lemma length_append (a b : string) :
  String.length (a ++ b) = (String.length a + String.length b)%nat.
Proof. induction a as [|c a IH]; simpl; [reflexivity | now rewrite IH]. Qed.

Lemma append_assoc (a b c : string) : ((a ++ b) ++ c = a ++ (b ++ c))%string.
Proof. induction a as [|x a IH]; simpl; [reflexivity | now rewrite IH]. Qed.

Lemma substring_prefix (a b : string) : substring 0 (String.length a) (a ++ b) = a.
Proof. induction a as [|c a IH]; simpl; [now destruct b | now rewrite IH]. Qed.

Lemma substring_skip (a s : string) (n m : nat) :
  substring (String.length a + n) m (a ++ s) = substring n m s.
Proof. induction a as [|c a IH]; simpl; [reflexivity | exact IH]. Qed.

Lemma substring_past (s : string) (k n : nat) :
  (String.length s <= k)%nat -> substring k n s = "".
Proof.
  revert k. induction s as [|c s IH]; intros k Hk; simpl in *.
  - destruct k, n; reflexivity.
  - destruct k as [|k]; [lia|]. apply IH. lia.
Qed.

Lemma slice_middle (a b c : string) :
  JS.slice (a ++ b ++ c) (Some (Z.of_nat (String.length a)))
    (Some (Z.of_nat (String.length a) + Z.of_nat (String.length b))) = b.
Proof.
  unfold JS.slice, JS.clamp. rewrite !length_append.
  destruct (Z.ltb_spec (Z.of_nat (String.length a)) 0); [lia|].
  destruct (Z.ltb_spec (Z.of_nat (String.length a) + Z.of_nat (String.length b)) 0); [lia|].
  rewrite !Z.min_l by lia.
  replace (Z.max _ 0) with (Z.of_nat (String.length b)) by lia.
  rewrite !Nat2Z.id.
  rewrite <- (Nat.add_0_r (String.length a)), substring_skip.
  apply substring_prefix.
Qed.

(** *** Checking a property of small numbers by running through them *)

Lemma forall_below (n : nat) (f : Z -> bool) :
  forallb f (map Z.of_nat (seq 0 n)) = true ->
  forall x, 0 <= x < Z.of_nat n -> f x = true.
Proof.
  intros H x Hx. rewrite forallb_forall in H. apply H.
  apply in_map_iff. exists (Z.to_nat x). split; [lia|]. apply in_seq. lia.
Qed.

(** *** Hexadecimal digits *)

Lemma hex_char_spec d : 0 <= d < 16 -> hex_char_good d = true.
Proof. apply (forall_below 16 hex_char_good). reflexivity. Qed.

Lemma hex_digit_hex_char d : 0 <= d < 16 -> JS.hex_digit (hex_char d) = Some d.
Proof.
  intros Hd. pose proof (hex_char_spec d Hd) as H. unfold hex_char_good in H.
  rewrite !andb_true_iff in H. destruct H as [[[[[H _] _] _] _] _].
  destruct (JS.hex_digit (hex_char d)); [|discriminate].
  apply Z.eqb_eq in H. now subst.
Qed.

Lemma digit_in_hex_char d : 0 <= d < 16 -> JS.digit_in 16 (hex_char d) = Some d.
Proof.
  intros Hd. unfold JS.digit_in. rewrite hex_digit_hex_char by assumption.
  destruct (Z.ltb_spec d 16); [reflexivity | lia].
Qed.

Lemma byte_range b : byte b = true <-> 0 <= b < 256.
Proof. unfold byte. rewrite andb_true_iff, Z.leb_le, Z.ltb_lt. reflexivity. Qed.

Lemma byte_digits b :
  byte b = true -> 0 <= b / 16 < 16 /\ 0 <= b mod 16 < 16 /\ b / 16 * 16 + b mod 16 = b.
Proof.
  rewrite byte_range. intros Hb.
  pose proof (Z.div_mod b 16 ltac:(lia)). pose proof (Z.mod_pos_bound b 16 ltac:(lia)).
  assert (0 <= b / 16) by (apply Z.div_pos; lia).
  assert (b / 16 < 16) by (apply Z.div_lt_upper_bound; lia).
  lia.
Qed.

Lemma hex_app (l1 l2 : list Z) : hex (l1 ++ l2) = (hex l1 ++ hex l2)%string.
Proof. induction l1 as [|b l1 IH]; simpl; [reflexivity | now rewrite IH]. Qed.

Lemma length_hex (l : list Z) : String.length (hex l) = (2 * length l)%nat.
Proof. induction l as [|b l IH]; simpl; [reflexivity | rewrite IH; lia]. Qed.

Lemma bytes_ok_cons b l : bytes_ok (b :: l) <-> byte b = true /\ bytes_ok l.
Proof. unfold bytes_ok. simpl. apply andb_true_iff. Qed.

Lemma bytes_ok_app l1 l2 : bytes_ok (l1 ++ l2) <-> bytes_ok l1 /\ bytes_ok l2.
Proof. unfold bytes_ok. rewrite forallb_app. apply andb_true_iff. Qed.

(** Reading back the digits of a sequence of bytes. *)
Lemma leading_digits_hex (bytes : list Z) (acc : Z) :
  bytes_ok bytes ->
  JS.leading_digits 16 acc (hex bytes) = fold_left (fun a b => a * 256 + b) bytes acc.
Proof.
  revert acc. induction bytes as [|b bytes IH]; intros acc Hok; [reflexivity|].
  apply bytes_ok_cons in Hok. destruct Hok as [Hb Hok].
  destruct (byte_digits b Hb) as (Hhi & Hlo & Heq).
  simpl. rewrite !digit_in_hex_char by assumption. rewrite IH by assumption.
  f_equal. lia.
Qed.

Lemma isHexDigits_hex (bytes : list Z) :
  bytes_ok bytes -> Ethers.isHexDigits (hex bytes) = true.
Proof.
  induction bytes as [|b bytes IH]; intros Hok; [reflexivity|].
  apply bytes_ok_cons in Hok. destruct Hok as [Hb Hok].
  destruct (byte_digits b Hb) as (Hhi & Hlo & Heq).
  simpl. rewrite !hex_digit_hex_char by assumption. auto.
Qed.

Lemma hex_pairs_hex (bytes : list Z) :
  bytes_ok bytes -> Ethers.hex_pairs (hex bytes) = Some bytes.
Proof.
  induction bytes as [|b bytes IH]; intros Hok; [reflexivity|].
  apply bytes_ok_cons in Hok. destruct Hok as [Hb Hok].
  destruct (byte_digits b Hb) as (Hhi & Hlo & Heq).
  simpl. rewrite !hex_digit_hex_char by assumption. rewrite IH by assumption.
  now rewrite Heq.
Qed.

Lemma arrayify_hex (bytes : list Z) :
  bytes_ok bytes -> Ethers.arrayify ("0x" ++ hex bytes) = Ok bytes.
Proof.
  intros Hok. simpl. now rewrite isHexDigits_hex, hex_pairs_hex.
Qed.

(** *** Words *)

Lemma length_be_bytes n v : length (be_bytes n v) = n.
Proof.
  revert v. induction n as [|n IH]; intros v; simpl; [reflexivity|].
  rewrite length_app, IH. simpl. lia.
Qed.

Lemma bytes_ok_be_bytes n v : bytes_ok (be_bytes n v).
Proof.
  revert v. induction n as [|n IH]; intros v; simpl; [reflexivity|].
  apply bytes_ok_app. split; [apply IH|].
  apply bytes_ok_cons. split; [|reflexivity].
  apply byte_range. apply Z.mod_pos_bound. lia.
Qed.

Lemma fold_be_bytes n v acc :
  fold_left (fun a b => a * 256 + b) (be_bytes n v) acc
  = acc * 256 ^ Z.of_nat n + v mod 256 ^ Z.of_nat n.
Proof.
  revert v acc. induction n as [|n IH]; intros v acc.
  - simpl. rewrite Z.mod_1_r. lia.
  - simpl be_bytes. rewrite fold_left_app, IH. simpl fold_left.
    rewrite Nat2Z.inj_succ, Z.pow_succ_r by lia.
    rewrite (Z.rem_mul_r v 256 (256 ^ Z.of_nat n)) by lia. lia.
Qed.

Lemma strip_sign_other c s :
  Ascii.eqb c "-" = false -> Ascii.eqb c "+" = false ->
  JS.strip_sign (String c s) = (false, String c s).
Proof.
  destruct c as [[] [] [] [] [] [] [] []]; simpl; intros; try discriminate; reflexivity.
Qed.

Lemma strip_0x_other c1 c2 s :
  Ascii.eqb c2 "x" = false -> Ascii.eqb c2 "X" = false ->
  JS.strip_0x (String c1 (String c2 s)) = String c1 (String c2 s).
Proof.
  intros Hx HX. destruct (Ascii.eqb_spec c1 "0") as [->|Hne].
  - destruct c2 as [[] [] [] [] [] [] [] []]; simpl in *; try discriminate; reflexivity.
  - destruct c1 as [[] [] [] [] [] [] [] []]; simpl; try reflexivity. now elim Hne.
Qed.

(** [parseInt] reads back a word printed in hexadecimal. *)
Lemma parseInt16_word v :
  0 <= v < 2 ^ 256 -> JS.parseInt16 (hex (word v)) = Some v.
Proof.
  intros Hv. unfold JS.parseInt16.
  assert (Hval : JS.leading_digits 16 0 (hex (word v)) = v).
  { rewrite leading_digits_hex by apply bytes_ok_be_bytes.
    unfold word. rewrite fold_be_bytes. simpl Z.of_nat.
    change (256 ^ 32) with (2 ^ 256). rewrite Z.mod_small by assumption. lia. }
  pose proof (bytes_ok_be_bytes 32 v) as Hok.
  pose proof (length_be_bytes 32 v) as Hlen.
  fold (word v) in Hok, Hlen.
  destruct (word v) as [|b rest]; [discriminate|].
  apply bytes_ok_cons in Hok. destruct Hok as [Hb _].
  destruct (byte_digits b Hb) as (Hhi & Hlo & _).
  pose proof (hex_char_spec _ Hhi) as G1. pose proof (hex_char_spec _ Hlo) as G2.
  unfold hex_char_good in G1, G2. rewrite !andb_true_iff, !negb_true_iff in G1, G2.
  destruct G1 as [[[[[_ W1] M1] P1] _] _]. destruct G2 as [[[[[_ _] _] _] X2] X2'].
  simpl hex in *. simpl JS.trim_start. rewrite W1.
  rewrite strip_sign_other by assumption.
  rewrite strip_0x_other by assumption.
  unfold JS.starts_with_digit. rewrite digit_in_hex_char by assumption.
  now rewrite Hval.
Qed.

(** *** The layout *)

Lemma length_hex_word v : String.length (hex (word v)) = 64%nat.
Proof. rewrite length_hex. unfold word. now rewrite length_be_bytes. Qed.

(** Decoding a payload in the layout amounts to decoding its string bytes. *)
Lemma parseReasonCode_layout (bytes : list Z) :
  bytes_ok bytes ->
  Z.of_nat (length bytes) < 2 ^ 256 ->
  parseReasonCode (hex (layout bytes)) = Ethers.getUtf8CodePoints bytes.
Proof.
  intros Hok Hlen. unfold parseReasonCode, layout.
  rewrite !hex_app.
  set (sel := hex selector). set (off := hex (word 32)).
  set (len := hex (word (Z.of_nat (length bytes)))).
  set (str := hex bytes). set (pad := hex (padding (length bytes))).
  assert (Hsel : String.length sel = 8%nat) by reflexivity.
  assert (Hoff : String.length off = 64%nat) by apply length_hex_word.
  assert (Hl : String.length len = 64%nat) by apply length_hex_word.
  assert (Hstr : String.length str = (2 * length bytes)%nat) by apply length_hex.
  (* the length word *)
  assert (H1 : JS.slice (sel ++ off ++ len ++ str ++ pad)%string (Some (8 + 64))
                 (Some (8 + 128)) = len).
  { pose proof (slice_middle (sel ++ off) len (str ++ pad)) as H.
    rewrite length_append, Hsel, Hoff, Hl in H.
    rewrite append_assoc in H. exact H. }
  rewrite H1.
  replace (JS.parseInt16 len) with (Some (Z.of_nat (length bytes)))
    by (symmetry; apply parseInt16_word; lia).
  simpl option_map.
  (* the string bytes *)
  assert (H2 : JS.slice (sel ++ off ++ len ++ str ++ pad)%string (Some (8 + 128))
                 (Some (8 + 128 + Z.of_nat (length bytes) * 2)) = str).
  { pose proof (slice_middle (sel ++ off ++ len) str pad) as H.
    rewrite !length_append, Hsel, Hoff, Hl, Hstr in H.
    rewrite !append_assoc in H.
    replace (Z.of_nat (2 * length bytes)) with (Z.of_nat (length bytes) * 2) in H by lia.
    exact H. }
  rewrite H2. unfold Ethers.toUtf8String. unfold str. rewrite arrayify_hex by assumption.
  reflexivity.
Qed.

(** *** UTF-8 *)

(** Bounds of a quotient by a positive constant. *)
Ltac div_range := split; [apply Z.div_pos; lia | apply Z.div_lt_upper_bound; lia].

Lemma land_shifted a y : 0 <= y < 64 -> Z.land (a * 2 ^ 6) y = 0.
Proof.
  intros Hy. apply Z.bits_inj'. intros n Hn. rewrite Z.land_spec, Z.bits_0.
  destruct (Z.lt_ge_cases n 6) as [Hlt|Hge].
  - now rewrite Z.mul_pow2_bits_low by lia.
  - destruct (Z.eq_dec y 0) as [->|Hy0]; [now rewrite Z.bits_0, andb_false_r|].
    rewrite (Z.bits_above_log2 y n), andb_false_r; [reflexivity | lia |].
    apply Z.log2_lt_pow2; [lia|].
    apply Z.lt_le_trans with (2 ^ 6); [simpl; lia|].
    apply Z.pow_le_mono_r; lia.
Qed.

Lemma step_spec res b y :
  Z.land b 0x3f = y -> 0 <= y < 64 -> Ethers.step res b = res * 64 + y.
Proof.
  intros Hb Hy. unfold Ethers.step. rewrite Hb, Z.shiftl_mul_pow2 by lia.
  rewrite <- Z.lxor_lor, <- Z.add_nocarry_lxor by (apply land_shifted; assumption).
  reflexivity.
Qed.

Lemma ascii_spec x : 0 <= x < 128 -> ascii_good x = true.
Proof. apply (forall_below 128 ascii_good). reflexivity. Qed.

Lemma lead2_spec x : 0 <= x < 32 -> lead2_good x = true.
Proof. apply (forall_below 32 lead2_good). reflexivity. Qed.

Lemma lead3_spec x : 0 <= x < 16 -> lead3_good x = true.
Proof. apply (forall_below 16 lead3_good). reflexivity. Qed.

Lemma lead4_spec x : 0 <= x < 8 -> lead4_good x = true.
Proof. apply (forall_below 8 lead4_good). reflexivity. Qed.

Lemma cont_spec y : 0 <= y < 64 -> cont_good y = true.
Proof. apply (forall_below 64 cont_good). reflexivity. Qed.

Lemma cont_step res y :
  0 <= y < 64 ->
  Ethers.isContinuation (0x80 + y) = true /\ Ethers.step res (0x80 + y) = res * 64 + y.
Proof.
  intros Hy. pose proof (cont_spec y Hy) as H. unfold cont_good in H.
  apply andb_true_iff in H. destruct H as [H1 H2]. apply Z.eqb_eq in H2.
  split; [assumption | now apply step_spec].
Qed.

Lemma checkCodePoint_ok cp mask :
  scalar cp = true -> mask < cp -> Ethers.checkCodePoint cp mask = Ok cp.
Proof.
  unfold scalar, Ethers.checkCodePoint.
  rewrite !andb_true_iff, negb_true_iff, !Z.leb_le. intros [[H0 Hmax] Hsur] Hmask.
  destruct (Z.ltb_spec 0x10ffff cp); [lia|]. rewrite Hsur.
  destruct (Z.leb_spec cp mask); [lia | reflexivity].
Qed.

Lemma mod64 cp : 0 <= cp mod 64 < 64.
Proof. apply Z.mod_pos_bound. lia. Qed.

(** The decoder reads back the UTF-8 form of one scalar value. *)
Lemma getUtf8CodePoints_char cp rest :
  scalar cp = true ->
  Ethers.getUtf8CodePoints (utf8_char cp ++ rest)
  = let* cps := Ethers.getUtf8CodePoints rest in Ok (cp :: cps).
Proof.
  intros Hs. pose proof Hs as Hr. unfold scalar in Hr.
  rewrite !andb_true_iff, !Z.leb_le in Hr. destruct Hr as [[H0 Hmax] _].
  unfold utf8_char.
  destruct (Z.ltb_spec cp 0x80) as [H1|H1].
  { (* one byte *)
    pose proof (ascii_spec cp ltac:(lia)) as Ha. unfold ascii_good in Ha.
    cbn [app Ethers.getUtf8CodePoints]. now rewrite Ha. }
  destruct (Z.ltb_spec cp 0x800) as [H2|H2].
  { (* two bytes *)
    assert (Hx : 0 <= cp / 64 < 32).
    { div_range. }
    pose proof (lead2_spec _ Hx) as Hl. unfold lead2_good in Hl.
    rewrite !andb_true_iff, negb_true_iff, !Z.eqb_eq in Hl. destruct Hl as [[L1 L2] L3].
    destruct (cont_step (cp / 64) _ (mod64 cp)) as [C1 S1].
    cbn [app Ethers.getUtf8CodePoints]. rewrite L1, L2, Z.eqb_refl, C1. cbn [negb].
    rewrite L3, S1.
    replace (cp / 64 * 64 + cp mod 64) with cp by (pose proof (Z.div_mod cp 64); lia).
    rewrite checkCodePoint_ok by (assumption || lia). reflexivity. }
  destruct (Z.ltb_spec cp 0x10000) as [H3|H3].
  { (* three bytes *)
    assert (Hx : 0 <= cp / 4096 < 16).
    { div_range. }
    pose proof (lead3_spec _ Hx) as Hl. unfold lead3_good in Hl.
    rewrite !andb_true_iff, !negb_true_iff, !Z.eqb_eq in Hl.
    destruct Hl as [[[L1 L2] L3] L4].
    destruct (cont_step (cp / 4096) _ (mod64 (cp / 64))) as [C1 S1].
    destruct (cont_step (cp / 4096 * 64 + (cp / 64) mod 64) _ (mod64 cp)) as [C2 S2].
    cbn [app Ethers.getUtf8CodePoints]. rewrite L1, L2, L3, Z.eqb_refl, C1, C2. cbn [negb orb].
    rewrite L4, S1, S2.
    replace (_ * 64 + cp mod 64) with cp.
    2:{ pose proof (Z.div_mod cp 64). pose proof (Z.div_mod (cp / 64) 64).
        rewrite Z.div_div in * by lia. change (64 * 64) with 4096 in *. lia. }
    rewrite checkCodePoint_ok by (assumption || lia). reflexivity. }
  { (* four bytes *)
    assert (Hx : 0 <= cp / 262144 < 8).
    { div_range. }
    pose proof (lead4_spec _ Hx) as Hl. unfold lead4_good in Hl.
    rewrite !andb_true_iff, !negb_true_iff, !Z.eqb_eq in Hl.
    destruct Hl as [[[[L1 L2] L3] L4] L5].
    destruct (cont_step (cp / 262144) _ (mod64 (cp / 4096))) as [C1 S1].
    destruct (cont_step (cp / 262144 * 64 + (cp / 4096) mod 64) _ (mod64 (cp / 64)))
      as [C2 S2].
    destruct (cont_step ((cp / 262144 * 64 + (cp / 4096) mod 64) * 64 + (cp / 64) mod 64)
                _ (mod64 cp)) as [C3 S3].
    cbn [app Ethers.getUtf8CodePoints].
    rewrite L1, L2, L3, L4, Z.eqb_refl, C1, C2, C3. cbn [negb orb].
    rewrite L5, S1, S2, S3.
    replace (_ * 64 + cp mod 64) with cp.
    2:{ pose proof (Z.div_mod cp 64). pose proof (Z.div_mod (cp / 64) 64).
        pose proof (Z.div_mod (cp / 4096) 64).
        assert (E1 : cp / 64 / 64 = cp / 4096) by (rewrite Z.div_div by lia; reflexivity).
        assert (E2 : cp / 4096 / 64 = cp / 262144) by (rewrite Z.div_div by lia; reflexivity).
        rewrite E1 in *. rewrite E2 in *. lia. }
    rewrite checkCodePoint_ok by (assumption || lia). reflexivity. }
Qed.

Lemma getUtf8CodePoints_utf8 reason :
  well_formed_text reason -> Ethers.getUtf8CodePoints (utf8 reason) = Ok reason.
Proof.
  unfold well_formed_text, utf8. induction reason as [|cp reason IH]; intros H.
  - reflexivity.
  - simpl in H. apply andb_true_iff in H. destruct H as [Hcp Hrest].
    simpl flat_map. rewrite getUtf8CodePoints_char by assumption.
    now rewrite IH.
Qed.

Lemma bytes_ok_utf8_char cp : scalar cp = true -> bytes_ok (utf8_char cp).
Proof.
  intros Hs. unfold scalar in Hs.
  rewrite !andb_true_iff, !Z.leb_le in Hs. destruct Hs as [[H0 Hmax] _].
  assert (B : forall x, 0 <= x < 256 -> byte x = true) by (intros; now apply byte_range).
  pose proof (mod64 cp). pose proof (mod64 (cp / 64)). pose proof (mod64 (cp / 4096)).
  unfold utf8_char, bytes_ok.
  destruct (Z.ltb_spec cp 0x80); [|destruct (Z.ltb_spec cp 0x800);
    [|destruct (Z.ltb_spec cp 0x10000)]]; cbn [forallb]; rewrite ?andb_true_iff;
    repeat split; try apply B; try lia.
  - assert (0 <= cp / 64 < 32)
      by div_range. lia.
  - assert (0 <= cp / 4096 < 16)
      by div_range. lia.
  - assert (0 <= cp / 262144 < 8)
      by div_range. lia.
Qed.

Lemma bytes_ok_utf8 reason : well_formed_text reason -> bytes_ok (utf8 reason).
Proof.
  unfold well_formed_text, utf8. induction reason as [|cp reason IH]; intros H.
  - reflexivity.
  - simpl in H. apply andb_true_iff in H. destruct H as [Hcp Hrest].
    simpl flat_map. apply bytes_ok_app. split; [now apply bytes_ok_utf8_char | auto].
Qed.

(** C3. For every string without lone surrogates (whose UTF-8 form is
    short enough for its length to fit a word), the revert data that
    encodes it in the [Error(string)] layout, written as hexadecimal digits
    the way the caller passes it, is decoded by [parseReasonCode] to that
    very string. *)
Theorem parseReasonCode_roundtrip (reason : Ethers.text) :
  well_formed_text reason ->
  Z.of_nat (length (utf8 reason)) < 2 ^ 256 ->
  parseReasonCode (hex (encode reason)) = Ok reason.
Proof.
  intros Hwf Hlen. unfold encode.
  rewrite parseReasonCode_layout by (try apply bytes_ok_utf8; assumption).
  now apply getUtf8CodePoints_utf8.
Qed.

Lemma parseReasonCode_roundtrip_witness :
  parseReasonCode (hex (encode (ascii_text "insufficient balance")))
  = Ok (ascii_text "insufficient balance").
Proof.
  apply (parseReasonCode_roundtrip (ascii_text "insufficient balance")).
  - reflexivity.
  - reflexivity.
Defined.

Lemma slice_short (s : string) (start : Z) (stop : option Z) :
  Z.of_nat (String.length s) <= start -> JS.slice s (Some start) stop = "".
Proof.
  intros H. unfold JS.slice. cbn [JS.clamp].
  destruct (Z.ltb_spec start 0); [lia|]. rewrite Z.min_r by lia.
  apply substring_past. lia.
Qed.

(** C5, as the code has it.  A payload too short to hold any string data
    (at most 8 + 128 hexadecimal digits) is not rejected: [parseReasonCode]
    returns the empty string.  A payload in the [Error(string)] layout whose
    string bytes the UTF-8 decoder rejects makes [parseReasonCode] throw the
    decoder's error. *)
Theorem parseReasonCode_malformed (messageData : string) (bytes : list Z) (e : JsError) :
  (String.length messageData <= 8 + 128)%nat ->
  bytes_ok bytes ->
  Z.of_nat (length bytes) < 2 ^ 256 ->
  Ethers.getUtf8CodePoints bytes = Throw e ->
  parseReasonCode messageData = Ok [] /\
  parseReasonCode (hex (layout bytes)) = Throw e.
Proof.
  intros Hshort Hok Hlen Hbad. split.
  - unfold parseReasonCode. rewrite slice_short by (simpl; lia). reflexivity.
  - now rewrite parseReasonCode_layout.
Qed.

Lemma parseReasonCode_malformed_witness :
  parseReasonCode "08c379a0" = Ok [] /\
  parseReasonCode (hex (layout [0xff; 0x41]))
  = Throw (Error "invalid codepoint: bad codepoint prefix").
Proof.
  apply (parseReasonCode_malformed "08c379a0" [0xff; 0x41]).
  - simpl. lia.
  - reflexivity.
  - reflexivity.
  - reflexivity.
Defined.

(** C5 as the specification states it fails: a payload that stops right
    after the selector, too short to hold a length word, is decoded without
    any failure. *)
Lemma parseReasonCode_short_no_failure :
  (String.length "08c379a0" < 8 + 128)%nat /\
  parseReasonCode "08c379a0" = Ok [] /\
  ~ exists e, parseReasonCode "08c379a0" = Throw e.
Proof.
  split; [simpl; lia|]. split; [reflexivity|]. intros [e He]. discriminate He.
Qed.

(** The revert data of "insufficient balance". *)
Example encode_insufficient_balance :
  hex (encode (ascii_text "insufficient balance"))
  = ("08c379a0"
     ++ "0000000000000000000000000000000000000000000000000000000000000020"
     ++ "0000000000000000000000000000000000000000000000000000000000000014"
     ++ "696e73756666696369656e742062616c616e6365000000000000000000000000")%string.
Proof. reflexivity. Qed.

(** Text outside ASCII: the euro sign, an emoticon, e acute. *)
Example parseReasonCode_unicode :
  parseReasonCode (hex (encode [0x20ac; 0x1f600; 0xe9])) = Ok [0x20ac; 0x1f600; 0xe9].
Proof. reflexivity. Qed.

(** The decoder expects the digits without the [0x] prefix: with the
    prefix every offset is off by two digits. *)
Example parseReasonCode_with_prefix :
  parseReasonCode ("0x" ++ hex (encode (ascii_text "no")))
  <> Ok (ascii_text "no").
Proof. vm_compute. discriminate. Qed.

End DecoderFacts.

(** ** The Alethio client *)

Module AlethioFacts.
Import Transaction AlethioClient Pages.

(** C4. The converter of the indexer path does not map the create tags to
    Create: it returns Value for both of them. *)
Theorem convertType_create_is_value :
  convertType "CreateContractMsg" = Value /\ convertType "CreateTx" = Value.
Proof. split; reflexivity. Qed.

(** The other tags are mapped as the vocabulary says. *)
Lemma convertType_other_tags (msgType : string) :
  convertType "ValueContractMsg" = Value /\ convertType "ValueTx" = Value /\
  convertType "SelfdestructContractMsg" = Selfdestruct /\
  convertType "SelfdestructTx" = Selfdestruct /\
  (msgType <> "ValueContractMsg" -> msgType <> "ValueTx" ->
   msgType <> "CreateContractMsg" -> msgType <> "CreateTx" ->
   msgType <> "SelfdestructContractMsg" -> msgType <> "SelfdestructTx" ->
   convertType msgType = Call).
Proof.
  repeat split. intros H1 H2 H3 H4 H5 H6. unfold convertType.
  apply String.eqb_neq in H1, H2, H3, H4, H5, H6.
  now rewrite H1, H2, H3, H4, H5, H6.
Qed.

(** C7. A transaction hash that does not have the format of a 32-byte
    hexadecimal value with a [0x] prefix makes each of
    [getTransactionDetails], [getContractMessages] and [getTransactionTrace]
    throw a [TypeError] and leave the network (and the client) as they
    were: no request is sent, no reply is consumed, no header is set. *)
Theorem malformed_hash_rejected (txHash : string) :
  RegEx.transactionHash txHash = false ->
  (forall apiKey network w,
     getTransactionDetails txHash apiKey network w
     = (Throw (AlethioClient.hashTypeError txHash), w)) /\
  (forall apiKey network w,
     getContractMessages txHash apiKey network w
     = (Throw (AlethioClient.hashTypeError txHash), w)) /\
  (forall this w,
     GethClient.getTransactionTrace this txHash w
     = (Throw (GethClient.hashTypeError txHash), this, w)).
Proof.
  intros H. repeat split; intros.
  - unfold getTransactionDetails. now rewrite H.
  - unfold getContractMessages. now rewrite H.
  - unfold GethClient.getTransactionTrace. now rewrite H.
Qed.

Lemma malformed_hash_rejected_witness :
  (forall apiKey network w,
     getTransactionDetails "not-a-hash" apiKey network w
     = (Throw (AlethioClient.hashTypeError "not-a-hash"), w)) /\
  (forall apiKey network w,
     getContractMessages "not-a-hash" apiKey network w
     = (Throw (AlethioClient.hashTypeError "not-a-hash"), w)) /\
  (forall this w,
     GethClient.getTransactionTrace this "not-a-hash" w
     = (Throw (GethClient.hashTypeError "not-a-hash"), this, w)).
Proof. apply (malformed_hash_rejected "not-a-hash"). reflexivity. Defined.

(** *** Pagination *)

Lemma pushAll_acc (acc : list Message) (cms : list ContractMessage) (ms : list Message) :
  pushAll [] cms = Ok ms -> pushAll acc cms = Ok (acc ++ ms).
Proof.
  revert acc ms. induction cms as [|cm cms IH]; intros acc ms; simpl.
  - intros [= <-]. now rewrite app_nil_r.
  - destruct (toMessage cm) as [m|e]; simpl; [|discriminate].
    intros H.
    destruct (pushAll [] cms) as [ms'|e] eqn:E.
    + rewrite (IH [m] ms' eq_refl) in H. injection H as <-.
      rewrite (IH (acc ++ [m]) ms' eq_refl). now rewrite <- app_assoc.
    + exfalso. clear IH.
      assert (G : forall a, exists e', pushAll a cms = Throw e').
      { clear H. revert E. generalize (@nil Message).
        induction cms as [|cm' cms IH']; intros a0 E a; simpl in *; [discriminate|].
        destruct (toMessage cm'); simpl in *; eauto. }
      destruct (G [m]) as [e' He']. congruence.
Qed.

Lemma readable_inv (p : Response) :
  readable p = true ->
  exists cms, data p = ArrayData cms /\ pushAll [] cms = Ok (records p).
Proof.
  unfold readable, records, page_messages.
  destruct (data p) as [| |cms]; try discriminate.
  destruct (pushAll [] cms) as [ms|e] eqn:E; [|discriminate].
  intros _. exists cms. split; [reflexivity | exact E].
Qed.

(** The cursor the code extracts is the cursor in the link. *)
Lemma has_cursor_spec (p : Response) :
  has_cursor p = match nextCursor p with
                 | Ok cursor => JS.nonempty cursor
                 | Throw _ => false
                 end.
Proof.
  unfold has_cursor, next_link, nextCursor, cursor_in.
  destruct (links p) as [l|]; [|reflexivity]. destruct (next l); reflexivity.
Qed.

Lemma has_cursor_inv (p : Response) :
  has_cursor p = true -> exists c, nextCursor p = Ok c /\ JS.nonempty c = true.
Proof.
  rewrite has_cursor_spec. destruct (nextCursor p) as [c|e]; [eauto | discriminate].
Qed.

Lemma nextCursor_throws (p : Response) (e : JsError) :
  nextCursor p = Throw e -> is_TypeError (root_cause e) = true.
Proof.
  unfold nextCursor. destruct (links p) as [l|]; [|now intros [= <-]].
  destruct (next l); [discriminate | now intros [= <-]].
Qed.

Lemma set_apiKey_pending (apiKey : option string) (w : Axios.World Response) :
  exists w0, set_apiKey apiKey w = (Ok tt, w0) /\ Axios.pending w0 = Axios.pending w.
Proof.
  unfold set_apiKey. destruct apiKey as [k|]; [destruct (JS.truthy (Some k))|];
    eexists; split; reflexivity.
Qed.

(** What the [try] block does with the reply it receives, a readable page. *)
Lemma recursive_try_step txHash cursor messages apiKey network w p rest :
  Axios.pending w = Axios.Resolve p :: rest ->
  readable p = true ->
  exists w',
    Axios.pending w' = rest /\
    getContractMessagesRecursive_try txHash cursor messages apiKey network w
    = (if hasNext p
       then match nextCursor p with
            | Ok c => Ok (inr (c, messages ++ records p))
            | Throw e => Throw (messagesError txHash e)
            end
       else Ok (inl (messages ++ records p)), w').
Proof.
  intros Hpend Hread.
  destruct (readable_inv p Hread) as (cms & Hdata & Hpush).
  unfold getContractMessagesRecursive_try, Axios.catch.
  unfold Axios.iobind at 1.
  destruct (set_apiKey_pending apiKey w) as (w0 & -> & Hpend0). rewrite Hpend in Hpend0.
  unfold Axios.iobind at 1. unfold Axios.get, Axios.request. rewrite Hpend0.
  rewrite Hdata. unfold Axios.iobind at 1, Axios.lift. rewrite Hpush.
  match goal with |- context [Axios.mkWorld rest ?s ?a] =>
    exists (Axios.mkWorld rest s a) end.
  split; [reflexivity|].
  destruct (hasNext p); [|reflexivity].
  unfold Axios.iobind, Axios.lift, Axios.ret, Axios.throw.
  destruct (nextCursor p) as [c|e]; reflexivity.
Qed.

(** The [try] block hands over to a further call only after consuming a
    reply. *)
Lemma recursive_try_consumes txHash cursor messages apiKey network w next w' :
  getContractMessagesRecursive_try txHash cursor messages apiKey network w
  = (Ok (inr next), w') ->
  length (Axios.pending w) = S (length (Axios.pending w')).
Proof.
  unfold getContractMessagesRecursive_try, Axios.catch.
  unfold Axios.iobind at 1.
  destruct (set_apiKey_pending apiKey w) as (w0 & -> & Hpend0). rewrite <- Hpend0.
  unfold Axios.iobind at 1. unfold Axios.get, Axios.request.
  destruct (Axios.pending w0) as [|[r|e] rest]; try discriminate.
  destruct (data r) as [| |cms]; try discriminate.
  unfold Axios.iobind at 1, Axios.lift.
  destruct (pushAll [] cms) as [ms|e]; try discriminate.
  destruct (hasNext r); [|discriminate].
  unfold Axios.iobind, Axios.lift, Axios.ret, Axios.throw.
  destruct (nextCursor r) as [c|e]; [|discriminate].
  intros [= _ <-]. reflexivity.
Qed.

(** The result of [getContractMessagesRecursive] does not depend on the
    bound, as long as it exceeds the number of replies left. *)
Lemma getContractMessagesRecursive_fuel (fuel1 : nat) :
  forall fuel2 txHash cursor messages apiKey network w,
    (length (Axios.pending w) < fuel1)%nat ->
    (length (Axios.pending w) < fuel2)%nat ->
    getContractMessagesRecursive_calls fuel1 txHash cursor messages apiKey network w
    = getContractMessagesRecursive_calls fuel2 txHash cursor messages apiKey network w.
Proof.
  induction fuel1 as [|fuel1 IH];
    intros fuel2 txHash cursor messages apiKey network w H1 H2; [lia|].
  destruct fuel2 as [|fuel2]; [lia|].
  cbn [getContractMessagesRecursive_calls].
  destruct (negb (RegEx.transactionHash txHash)); [reflexivity|].
  destruct (negb (JS.nonempty cursor)); [reflexivity|].
  unfold Axios.iobind.
  destruct (getContractMessagesRecursive_try txHash cursor messages apiKey network w)
    as [[[ms|[c ms]]|e] w'] eqn:E; try reflexivity.
  apply recursive_try_consumes in E. apply IH; lia.
Qed.

(** What the first call of the recursive fetch does with the reply it
    receives, a readable page. *)
Lemma recursive_call_step fuel txHash cursor messages apiKey network w p rest :
  RegEx.transactionHash txHash = true ->
  JS.nonempty cursor = true ->
  Axios.pending w = Axios.Resolve p :: rest ->
  readable p = true ->
  exists w',
    Axios.pending w' = rest /\
    getContractMessagesRecursive_calls (S fuel) txHash cursor messages apiKey network w
    = if hasNext p
      then match nextCursor p with
           | Ok c =>
               getContractMessagesRecursive_calls fuel txHash c
                 (messages ++ records p) None "mainnet" w'
           | Throw e => (Throw (messagesError txHash e), w')
           end
      else (Ok (messages ++ records p), w').
Proof.
  intros Hhash Hcur Hpend Hread.
  destruct (recursive_try_step txHash cursor messages apiKey network w p rest Hpend Hread)
    as (w' & Hpend' & Htry).
  exists w'. split; [assumption|].
  cbn [getContractMessagesRecursive_calls]. rewrite Hhash, Hcur. cbn [negb].
  unfold Axios.iobind. rewrite Htry.
  destruct (hasNext p); [|reflexivity].
  destruct (nextCursor p) as [c|e]; reflexivity.
Qed.

Lemma recursive_spec (pages : list Response) :
  forall last fuel txHash cursor messages apiKey network w rest,
    RegEx.transactionHash txHash = true ->
    JS.nonempty cursor = true ->
    Axios.pending w = map Axios.Resolve (pages ++ [last]) ++ rest ->
    (length pages + 1 < fuel)%nat ->
    forallb readable (pages ++ [last]) = true ->
    forallb continues pages = true ->
    (hasNext last = false ->
     fst (getContractMessagesRecursive_calls fuel txHash cursor messages apiKey network w)
     = Ok (messages ++ concat (map records (pages ++ [last])))) /\
    (broken last = true ->
     exists e,
       fst (getContractMessagesRecursive_calls fuel txHash cursor messages apiKey network w)
       = Throw e /\ is_TypeError (root_cause e) = true).
Proof.
  induction pages as [|p pages IH];
    intros last fuel txHash cursor messages apiKey network w rest
      Hhash Hcur Hpend Hfuel Hread Hcont.
  - simpl in Hpend, Hread, Hfuel. rewrite andb_true_r in Hread.
    destruct fuel as [|[|fuel]]; try lia.
    destruct (recursive_call_step (S fuel) txHash cursor messages apiKey network
                w last rest Hhash Hcur Hpend Hread) as (w' & _ & ->).
    split.
    + intros ->. simpl. now rewrite app_nil_r.
    + unfold broken. rewrite andb_true_iff, negb_true_iff. intros [-> Hnc].
      rewrite has_cursor_spec in Hnc. destruct (nextCursor last) as [c|e] eqn:E.
      * cbn [getContractMessagesRecursive_calls]. rewrite Hhash, Hnc. cbn [negb].
        eexists. split; reflexivity.
      * eexists. split; [reflexivity|]. exact (nextCursor_throws _ _ E).
  - simpl in Hpend, Hread, Hcont, Hfuel.
    apply andb_true_iff in Hread. destruct Hread as [Hp Hread].
    apply andb_true_iff in Hcont. destruct Hcont as [Hpc Hcont].
    unfold continues in Hpc. apply andb_true_iff in Hpc. destruct Hpc as [Hnext Hc].
    destruct (has_cursor_inv p Hc) as (c & Hcursor & Hne).
    destruct fuel as [|fuel]; [lia|].
    destruct (recursive_call_step fuel txHash cursor messages apiKey network
                w p _ Hhash Hcur Hpend Hp) as (w' & Hpend' & ->).
    rewrite Hnext, Hcursor.
    destruct (IH last fuel txHash c (messages ++ records p) None "mainnet" w' rest
                Hhash Hne Hpend' ltac:(lia) Hread Hcont) as [Hfinal Hbroken].
    split.
    + intros Hlast. rewrite (Hfinal Hlast). simpl. now rewrite <- app_assoc.
    + exact Hbroken.
Qed.

(** What [getContractMessages] does with the first reply, a readable
    page. *)
Lemma getContractMessages_step txHash apiKey network w p rest :
  RegEx.transactionHash txHash = true ->
  Axios.pending w = Axios.Resolve p :: rest ->
  readable p = true ->
  exists w',
    Axios.pending w' = rest /\
    fst (getContractMessages txHash apiKey network w)
    = if hasNext p
      then match nextCursor p with
           | Ok c =>
               match fst (getContractMessagesRecursive txHash c (records p)
                            None "mainnet" w') with
               | Ok messages => Ok (sort_by_id messages)
               | Throw e => Throw (messagesError txHash e)
               end
           | Throw e => Throw (messagesError txHash e)
           end
      else Ok (sort_by_id (records p)).
Proof.
  intros Hhash Hpend Hread.
  destruct (readable_inv p Hread) as (cms & Hdata & Hpush).
  unfold getContractMessages. rewrite Hhash. cbn [negb].
  unfold Axios.catch. unfold Axios.iobind at 1.
  destruct (set_apiKey_pending apiKey w) as (w0 & -> & Hpend0). rewrite Hpend in Hpend0.
  unfold Axios.iobind at 1. unfold Axios.get, Axios.request. rewrite Hpend0.
  rewrite Hdata. unfold Axios.iobind at 1, Axios.lift. rewrite Hpush.
  match goal with |- context [Axios.mkWorld rest ?s ?a] =>
    exists (Axios.mkWorld rest s a) end.
  split; [reflexivity|].
  destruct (hasNext p); [|reflexivity].
  unfold Axios.iobind at 1. unfold Axios.iobind at 1.
  destruct (nextCursor p) as [c|e]; [|reflexivity].
  match goal with |- context [getContractMessagesRecursive ?x1 ?x2 ?x3 ?x4 ?x5 ?x6] =>
    destruct (getContractMessagesRecursive x1 x2 x3 x4 x5 x6) as [[ms|err] w2] end;
    reflexivity.
Qed.

(** *** The sort *)

#[local] Instance id_le_trans : Transitive id_le.
Proof. intros a b c. unfold id_le. lia. Qed.

Lemma insert_by_id_perm (m : Message) (l : list Message) :
  insert_by_id m l ≡ₚ m :: l.
Proof.
  induction l as [|x l IH]; simpl; [reflexivity|].
  destruct (Msg.id m <=? Msg.id x); [reflexivity|].
  rewrite IH. apply Permutation_swap.
Qed.

Lemma sort_by_id_perm (l : list Message) : sort_by_id l ≡ₚ l.
Proof.
  induction l as [|m l IH]; simpl; [reflexivity|].
  rewrite insert_by_id_perm. now rewrite IH.
Qed.

Lemma insert_by_id_sorted (m : Message) (l : list Message) :
  Sorted id_le l -> Sorted id_le (insert_by_id m l).
Proof.
  induction l as [|x l IH]; intros Hs; simpl.
  - repeat constructor.
  - destruct (Z.leb_spec (Msg.id m) (Msg.id x)) as [Hle|Hgt].
    + constructor; [assumption|]. constructor. exact Hle.
    + inversion Hs as [|? ? Hs' Hhd]; subst.
      constructor; [now apply IH|].
      destruct l as [|y l]; simpl.
      * constructor. unfold id_le. lia.
      * destruct (Msg.id m <=? Msg.id y); constructor.
        -- unfold id_le. lia.
        -- now inversion Hhd.
Qed.

Lemma sort_by_id_sorted (l : list Message) : Sorted id_le (sort_by_id l).
Proof.
  induction l as [|m l IH]; simpl; [constructor|]. now apply insert_by_id_sorted.
Qed.

Lemma with_id_insert (i : Z) (m : Message) (l : list Message) :
  with_id i (insert_by_id m l) = with_id i (m :: l).
Proof.
  unfold with_id. induction l as [|x l IH]; [reflexivity|].
  cbn [insert_by_id].
  destruct (Z.leb_spec (Msg.id m) (Msg.id x)) as [Hle|Hgt]; [reflexivity|].
  cbn [List.filter] in *. rewrite IH.
  destruct (Z.eqb_spec (Msg.id x) i) as [Hx|Hx];
    destruct (Z.eqb_spec (Msg.id m) i) as [Hm|Hm]; try reflexivity.
  lia.
Qed.

(** The sort is stable: the messages with a given id come out in the order
    in which they went in. *)
Lemma sort_by_id_stable (i : Z) (l : list Message) :
  with_id i (sort_by_id l) = with_id i l.
Proof.
  induction l as [|m l IH]; [reflexivity|].
  cbn [sort_by_id fold_right]. rewrite with_id_insert.
  unfold with_id in *. cbn [List.filter]. fold (sort_by_id l). now rewrite IH.
Qed.

Lemma with_id_head (x : Message) (l : list Message) :
  with_id (Msg.id x) (x :: l) = x :: with_id (Msg.id x) l.
Proof. unfold with_id. cbn [List.filter]. now rewrite Z.eqb_refl. Qed.

Lemma with_id_other (i : Z) (x : Message) (l : list Message) :
  Msg.id x <> i -> with_id i (x :: l) = with_id i l.
Proof.
  intros H. unfold with_id. cbn [List.filter].
  now destruct (Z.eqb_spec (Msg.id x) i).
Qed.

Lemma sorted_head_least (x : Message) (l : list Message) :
  Sorted id_le (x :: l) -> forall z, In z (x :: l) -> Msg.id x <= Msg.id z.
Proof.
  intros Hs z Hz. apply Sorted_StronglySorted in Hs; [|exact id_le_trans].
  inversion Hs as [|? ? _ Hall]; subst.
  destruct Hz as [<- | Hz]; [lia|].
  rewrite List.Forall_forall in Hall. exact (Hall z Hz).
Qed.

(** A sorted list is determined by its messages of each id: two sorted
    lists that hold, for every id, the same messages in the same order are
    the same list.  So any stable sort gives the result of [sort_by_id]. *)
Lemma stable_sort_unique (l1 : list Message) :
  forall l2,
    Sorted id_le l1 -> Sorted id_le l2 ->
    (forall i, with_id i l1 = with_id i l2) ->
    l1 = l2.
Proof.
  induction l1 as [|x l1 IH]; intros l2 H1 H2 Hsame.
  - destruct l2 as [|y l2]; [reflexivity|].
    specialize (Hsame (Msg.id y)). rewrite with_id_head in Hsame. discriminate.
  - destruct l2 as [|y l2].
    { specialize (Hsame (Msg.id x)). rewrite with_id_head in Hsame. discriminate. }
    assert (Hxy : Msg.id x <= Msg.id y).
    { assert (Hin : In y (with_id (Msg.id y) (x :: l1))).
      { rewrite Hsame, with_id_head. now left. }
      apply List.filter_In in Hin. destruct Hin as [Hin _].
      exact (sorted_head_least x l1 H1 y Hin). }
    assert (Hyx : Msg.id y <= Msg.id x).
    { assert (Hin : In x (with_id (Msg.id x) (y :: l2))).
      { rewrite <- Hsame, with_id_head. now left. }
      apply List.filter_In in Hin. destruct Hin as [Hin _].
      exact (sorted_head_least y l2 H2 x Hin). }
    assert (Hid : Msg.id y = Msg.id x) by lia.
    pose proof (Hsame (Msg.id x)) as Hhead.
    rewrite with_id_head, <- Hid, with_id_head, Hid in Hhead.
    injection Hhead as -> Htail.
    f_equal. apply IH.
    + now inversion H1.
    + now inversion H2.
    + intros i. destruct (Z.eq_dec (Msg.id y) i) as [<- | Hne].
      * exact Htail.
      * specialize (Hsame i). now rewrite !with_id_other in Hsame by assumption.
Qed.

(** *** The records that come in and the messages that go out *)

Lemma toMessage_of (cm : ContractMessage) :
  amounts_ok cm = true -> exists m, toMessage cm = Ok m /\ message_of cm m.
Proof.
  unfold amounts_ok, toMessage. rewrite !andb_true_iff. intros [[Hv Hu] Hl].
  destruct (JS.BigInt (CmAttr.value (attributes cm))) as [v|] eqn:Ev; [|discriminate].
  destruct (JS.BigInt (CmAttr.msgGasUsed (attributes cm))) as [gu|] eqn:Eu; [|discriminate].
  destruct (JS.BigInt (CmAttr.msgGasLimit (attributes cm))) as [gl|] eqn:El; [|discriminate].
  eexists. split; [reflexivity|]. unfold message_of. simpl. rewrite Ev, Eu, El.
  repeat split.
Qed.

Lemma pushAll_of (cms : list ContractMessage) :
  forallb amounts_ok cms = true ->
  exists ms, pushAll [] cms = Ok ms /\ Forall2 message_of cms ms.
Proof.
  induction cms as [|cm cms IH]; simpl.
  - intros _. exists []. split; [reflexivity | constructor].
  - rewrite andb_true_iff. intros [Hcm Hcms].
    destruct (toMessage_of cm Hcm) as (m & -> & Hm).
    destruct (IH Hcms) as (ms & Hpush & Hall).
    exists (m :: ms). split; [|now constructor].
    cbn [bind]. exact (pushAll_acc [m] cms ms Hpush).
Qed.

Lemma well_formed_page_records (p : Response) :
  well_formed_page p = true ->
  readable p = true /\ Forall2 message_of (incoming p) (records p).
Proof.
  unfold well_formed_page, readable, records, page_messages, incoming.
  destruct (data p) as [| |cms]; try discriminate.
  intros H. destruct (pushAll_of cms H) as (ms & -> & Hall). auto.
Qed.

Lemma well_formed_pages_records (ps : list Response) :
  forallb well_formed_page ps = true ->
  forallb readable ps = true /\
  Forall2 message_of (concat (map incoming ps)) (concat (map records ps)).
Proof.
  induction ps as [|p ps IH]; simpl.
  - intros _. split; [reflexivity | constructor].
  - rewrite andb_true_iff. intros [Hp Hps].
    destruct (well_formed_page_records p Hp) as [-> Hall].
    destruct (IH Hps) as [-> Halls].
    split; [reflexivity|]. now apply Forall2_app.
Qed.

(** C9. The indexer answers with the pages [pages ++ [last]]; every page
    holds an array of records whose amounts [BigInt] accepts, and every
    page of [pages] signals a further page with a cursor to it.  When
    [last] signals no further page, [getContractMessages] returns one
    message for every record received, none dropped and none added
    ([messages], the messages of the records in the order of the pages),
    sorted by ascending id, messages with the same id staying in the order
    received.  When [last] signals a further page but its cursor is
    missing or empty, [getContractMessages] throws a [VError] whose root
    cause is a [TypeError]. *)
Theorem getContractMessages_pages (pages : list Response) (last : Response)
    (txHash : string) (apiKey : option string) (network : string)
    (w : Axios.World Response) (rest : list (Axios.Reply Response)) :
  RegEx.transactionHash txHash = true ->
  Axios.pending w = map Axios.Resolve (pages ++ [last]) ++ rest ->
  forallb well_formed_page (pages ++ [last]) = true ->
  forallb continues pages = true ->
  (hasNext last = false ->
   exists messages sorted,
     Forall2 message_of (concat (map incoming (pages ++ [last]))) messages /\
     fst (getContractMessages txHash apiKey network w) = Ok sorted /\
     Sorted id_le sorted /\
     sorted ≡ₚ messages /\
     forall i, with_id i sorted = with_id i messages) /\
  (broken last = true ->
   exists cause message,
     fst (getContractMessages txHash apiKey network w) = Throw (VError cause message) /\
     is_TypeError (root_cause cause) = true).
Proof.
  intros Hhash Hpend Hwf Hcont.
  destruct (well_formed_pages_records _ Hwf) as [Hread Hall].
  assert (Hsorted : forall l,
             Forall2 message_of (concat (map incoming (pages ++ [last]))) l ->
             exists messages sorted,
               Forall2 message_of (concat (map incoming (pages ++ [last]))) messages /\
               Ok (sort_by_id l) = Ok sorted /\
               Sorted id_le sorted /\
               sorted ≡ₚ messages /\
               forall i, with_id i sorted = with_id i messages).
  { intros l Hl. exists l, (sort_by_id l).
    repeat split; [assumption | apply sort_by_id_sorted | apply sort_by_id_perm
                  | intros i; apply sort_by_id_stable]. }
  destruct pages as [|p pages].
  - simpl in Hpend, Hread. rewrite andb_true_r in Hread.
    destruct (getContractMessages_step txHash apiKey network w last rest
                Hhash Hpend Hread) as (w' & _ & ->).
    split.
    + intros Hlast. rewrite Hlast. apply Hsorted.
      simpl in Hall. rewrite !app_nil_r in Hall. simpl. rewrite app_nil_r. exact Hall.
    + unfold broken. rewrite andb_true_iff, negb_true_iff. intros [-> Hnc].
      rewrite has_cursor_spec in Hnc. destruct (nextCursor last) as [c|e] eqn:E.
      * unfold getContractMessagesRecursive. cbn [getContractMessagesRecursive_calls].
        rewrite Hhash, Hnc. cbn [negb]. eexists _, _. split; reflexivity.
      * eexists _, _. split; [reflexivity|]. exact (nextCursor_throws _ _ E).
  - simpl in Hpend, Hread, Hcont.
    apply andb_true_iff in Hread. destruct Hread as [Hp Hread].
    apply andb_true_iff in Hcont. destruct Hcont as [Hpc Hcont].
    unfold continues in Hpc. apply andb_true_iff in Hpc. destruct Hpc as [Hnext Hc].
    destruct (has_cursor_inv p Hc) as (c & Hcursor & Hne).
    destruct (getContractMessages_step txHash apiKey network w p _
                Hhash Hpend Hp) as (w' & Hpend' & ->).
    rewrite Hnext, Hcursor. unfold getContractMessagesRecursive.
    destruct (recursive_spec pages last (S (length (Axios.pending w'))) txHash c
                (records p) None "mainnet" w' rest Hhash Hne Hpend') as [Hfinal Hbroken];
      try assumption.
    { rewrite Hpend', length_app, length_map, length_app. simpl. lia. }
    split.
    + intros Hlast. rewrite (Hfinal Hlast). apply Hsorted. exact Hall.
    + intros Hb. destruct (Hbroken Hb) as (e & -> & He).
      eexists _, _. split; [reflexivity | exact He].
Qed.

Lemma getContractMessages_pages_witness :
  (exists messages sorted,
     Forall2 message_of (concat (map incoming ([page1; page2] ++ [page3]))) messages /\
     fst (getContractMessages example_hash None "mainnet" (serving [page1; page2; page3]))
     = Ok sorted /\
     Sorted id_le sorted /\
     sorted ≡ₚ messages /\
     forall i, with_id i sorted = with_id i messages) /\
  (exists cause message,
     fst (getContractMessages example_hash None "mainnet"
            (serving [page1; page2; page_without_cursor]))
     = Throw (VError cause message) /\
     is_TypeError (root_cause cause) = true).
Proof.
  split.
  - apply (getContractMessages_pages [page1; page2] page3 example_hash None "mainnet"
             (serving [page1; page2; page3]) []); reflexivity.
  - apply (getContractMessages_pages [page1; page2] page_without_cursor example_hash
             None "mainnet" (serving [page1; page2; page_without_cursor]) []);
      reflexivity.
Defined.

(** Three pages: the ids come out in ascending order, and the requests
    for the pages after the first go to the main network whatever the
    network asked for. *)
Example getContractMessages_three_pages :
  let '(r, w) := getContractMessages example_hash None "kovan"
                   (serving [page1; page2; page3]) in
  match r with
  | Ok messages => map Msg.id messages = [0; 1; 2; 3; 4]
  | Throw _ => False
  end /\
  map Axios.url (Axios.sent w)
  = [("https://api.kovan.aleth.io/v1/transactions/" ++ example_hash
      ++ "/contractMessages")%string;
     ("https://api.aleth.io/v1/transactions/" ++ example_hash
      ++ "/contractMessages")%string;
     ("https://api.aleth.io/v1/transactions/" ++ example_hash
      ++ "/contractMessages")%string] /\
  map Axios.params (Axios.sent w)
  = [[("page[limit]", JS.JsNumber 100)];
     [("page[limit]", JS.JsNumber 100); ("page[next]", JS.JsString "c1")];
     [("page[limit]", JS.JsNumber 100); ("page[next]", JS.JsString "c2")]].
Proof. repeat split. Qed.

(** A page that signals a further page with an empty cursor. *)
Example getContractMessages_empty_cursor :
  fst (getContractMessages example_hash None "mainnet"
         (serving [page1; page2; page_without_cursor]))
  = Throw (messagesError example_hash
             (TypeError ("Missing Alethio pagination cursor " ++ JS.quoted ""))).
Proof. reflexivity. Qed.

End AlethioFacts.

(** ** The failed call: printing numbers and [getTransactionError] *)

Module GethErrorsFacts.
Import GethClient ErrorString ByteChecks DecoderFacts Hexlify GethErrors Coverage.

(** *** Printing and reading hexadecimal numbers *)

Lemma all_digits_snoc radix acc s c :
  JS.all_digits radix acc (s ++ String c EmptyString)%string
  = match JS.all_digits radix acc s with
    | Some v =>
        match JS.digit_in radix c with
        | Some d => Some (v * radix + d)
        | None => None
        end
    | None => None
    end.
Proof.
  revert acc. induction s as [|x s IH]; intros acc; simpl.
  - destruct (JS.digit_in radix c); reflexivity.
  - destruct (JS.digit_in radix x); [apply IH | reflexivity].
Qed.

Lemma hex_digits_value fuel n :
  0 <= n < 16 ^ Z.of_nat fuel -> JS.all_digits 16 0 (hex_digits fuel n) = Some n.
Proof.
  revert n. induction fuel as [|fuel IH]; intros n Hn.
  - simpl in *. f_equal. lia.
  - cbn [hex_digits]. destruct (Z.ltb_spec n 16) as [Hlt|Hge].
    + simpl. rewrite digit_in_hex_char by lia. reflexivity.
    + rewrite Nat2Z.inj_succ, Z.pow_succ_r in Hn by lia.
      assert (Hq : 0 <= n / 16 < 16 ^ Z.of_nat fuel).
      { split; [apply Z.div_pos; lia | apply Z.div_lt_upper_bound; lia]. }
      rewrite all_digits_snoc, IH by assumption.
      rewrite digit_in_hex_char by (apply Z.mod_pos_bound; lia).
      f_equal. pose proof (Z.div_mod n 16). lia.
Qed.

Lemma log2_fuel n : 0 <= n -> n < 16 ^ Z.of_nat (S (Z.to_nat (Z.log2 n))).
Proof.
  intros Hn. rewrite Nat2Z.inj_succ, Z2Nat.id by apply Z.log2_nonneg.
  destruct (Z.eq_dec n 0) as [->|Hne]; [simpl; lia|].
  pose proof (Z.log2_spec n ltac:(lia)) as [_ Hup].
  apply Z.lt_le_trans with (2 ^ Z.succ (Z.log2 n)); [assumption|].
  change 16 with (2 ^ 4). rewrite <- Z.pow_mul_r by (pose proof (Z.log2_nonneg n); lia).
  apply Z.pow_le_mono_r; pose proof (Z.log2_nonneg n); lia.
Qed.

(** The bound on the number of digits is enough: the digits printed for a
    number read back as that number. *)
Lemma toString16_value n : 0 <= n -> JS.all_digits 16 0 (toString16 n) = Some n.
Proof.
  intros Hn. apply hex_digits_value. split; [assumption | now apply log2_fuel].
Qed.

Lemma hex_digits_nonempty fuel n : JS.nonempty (hex_digits (S fuel) n) = true.
Proof.
  cbn [hex_digits]. destruct (n <? 16); [reflexivity|].
  destruct (hex_digits fuel (n / 16)); reflexivity.
Qed.

Lemma hex_char_not_zero d : 1 <= d < 16 -> Ascii.eqb (hex_char d) "0" = false.
Proof.
  intros Hd.
  pose proof (forall_below 16 not_zero_char eq_refl d ltac:(lia)) as H.
  unfold not_zero_char in H. destruct (Z.eqb_spec d 0); [lia|].
  rewrite orb_false_r in H. now apply negb_true_iff.
Qed.

(** The first digit printed for a positive number is not zero. *)
Lemma hex_digits_head fuel n :
  0 < n < 16 ^ Z.of_nat fuel ->
  exists d rest, 1 <= d < 16 /\ hex_digits fuel n = String (hex_char d) rest.
Proof.
  revert n. induction fuel as [|fuel IH]; intros n Hn.
  - simpl in Hn. lia.
  - cbn [hex_digits]. destruct (Z.ltb_spec n 16) as [Hlt|Hge].
    + exists n, EmptyString. split; [lia | reflexivity].
    + rewrite Nat2Z.inj_succ, Z.pow_succ_r in Hn by lia.
      assert (Hq : 0 < n / 16 < 16 ^ Z.of_nat fuel).
      { split; [apply Z.div_str_pos; lia | apply Z.div_lt_upper_bound; lia]. }
      destruct (IH _ Hq) as (d & rest & Hd & ->).
      exists d, (rest ++ String (hex_char (n mod 16)) EmptyString)%string.
      split; [assumption | reflexivity].
Qed.

Lemma replace_0x0_other c s :
  Ascii.eqb c "0" = false ->
  replace_0x0 (String "0" (String "x" (String c s))) = String "0" (String "x" (String c s)).
Proof.
  destruct c as [[] [] [] [] [] [] [] []]; simpl; intros; try discriminate; reflexivity.
Qed.

Lemma all_digits_pad_even n :
  0 <= n -> JS.all_digits 16 0 (pad_even (toString16 n)) = Some n /\
            JS.nonempty (pad_even (toString16 n)) = true.
Proof.
  intros Hn. unfold pad_even. destruct (Nat.even _).
  - split; [now apply toString16_value | apply hex_digits_nonempty].
  - split; [|reflexivity]. simpl. now apply toString16_value.
Qed.

Lemma BigNumber_from_0x (ds : string) (n : Z) :
  JS.all_digits 16 0 ds = Some n -> JS.nonempty ds = true ->
  Ethers.BigNumber_from (String "0" (String "x" ds)) = Ok (Ethers.Num n).
Proof.
  intros Hv Hne. unfold Ethers.BigNumber_from. cbn [Ethers.strip_minus].
  replace (Ethers.nonempty ds) with true by (now destruct ds).
  now rewrite Hv.
Qed.

Lemma BigNumber_from_minus_0x (ds : string) (n : Z) :
  JS.all_digits 16 0 ds = Some n -> JS.nonempty ds = true ->
  Ethers.BigNumber_from (String "-" (String "0" (String "x" ds))) = Ok (Ethers.Num (- n)).
Proof.
  intros Hv Hne. unfold Ethers.BigNumber_from. cbn [Ethers.strip_minus].
  replace (Ethers.nonempty ds) with true by (now destruct ds).
  now rewrite Hv.
Qed.

(** X1. What [convertBigNumber2Hex] prints, [convertBigNumber] reads back
    as the same number, for every number, negative ones included. *)
Theorem convertBigNumber2Hex_roundtrip (n : Z) :
  convertBigNumber (Some (convertBigNumber2Hex n)) = Ok (Some (Ethers.Num n)).
Proof.
  unfold convertBigNumber2Hex, toHexString.
  destruct (Z.ltb_spec n 0) as [Hneg|Hpos].
  - destruct (all_digits_pad_even (- n) ltac:(lia)) as [Hval Hne].
    cbn [append replace_0x0 convertBigNumber JS.truthy String.eqb negb].
    rewrite (BigNumber_from_minus_0x _ _ Hval Hne). cbn [bind].
    do 3 f_equal. lia.
  - assert (G : forall ds, JS.all_digits 16 0 ds = Some n -> JS.nonempty ds = true ->
                 convertBigNumber (Some (String "0" (String "x" ds)))
                 = Ok (Some (Ethers.Num n))).
    { intros ds Hv' Hnz'. cbn [convertBigNumber JS.truthy String.eqb negb].
      now rewrite (BigNumber_from_0x _ _ Hv' Hnz'). }
    destruct (Z.eq_dec n 0) as [->|Hne]; [reflexivity|].
    destruct (hex_digits_head (S (Z.to_nat (Z.log2 n))) n) as (d & rest & Hd & Hs).
    { split; [lia | now apply log2_fuel]. }
    fold (toString16 n) in Hs.
    pose proof (toString16_value n Hpos) as Hval.
    unfold pad_even. destruct (Nat.even _).
    + rewrite Hs in *. cbn [append].
      rewrite replace_0x0_other by (now apply hex_char_not_zero).
      now apply G.
    + cbn [append replace_0x0]. apply G; [assumption|]. now rewrite Hs.
Qed.



(** *** [getTransactionError] *)

Lemma append_nil_r (s : string) : (s ++ "")%string = s.
Proof. induction s as [|c s IH]; simpl; [reflexivity | now rewrite IH]. Qed.

Lemma slice_from_app (a b : string) :
  slice_from (a ++ b) (Z.of_nat (String.length a)) = b.
Proof.
  unfold slice_from. pose proof (slice_middle a b "") as H.
  rewrite append_nil_r in H. rewrite length_append, Nat2Z.inj_add. exact H.
Qed.

Lemma prefix_app (a b : string) : String.prefix a (a ++ b) = true.
Proof. apply prefix_correct. apply substring_prefix. Qed.

(** X3. [getTransactionError] sends nothing and leaves the client as it was
    in three cases: the hash of the transaction is malformed (a
    [TypeError]), the transaction succeeded (the result is [undefined]), or
    its [gasUsed] is the very object that is its [gasLimit] (an out-of-gas
    [Error]). *)
Theorem getTransactionError_guards (parse : string -> result (option string))
    (this : Client) (tx : TransactionDetails) (w : Axios.World RpcResponse) :
  (RegEx.transactionHash (hash tx) = false ->
   getTransactionError parse this tx w
   = (Throw (TypeError "There is no transaction hash on the receipt object"), this, w)) /\
  (RegEx.transactionHash (hash tx) = true -> status tx = true ->
   getTransactionError parse this tx w = (Ok None, this, w)) /\
  (RegEx.transactionHash (hash tx) = true -> status tx = false ->
   gasUsed_is_gasLimit tx = true ->
   getTransactionError parse this tx w
   = (Throw (Error "Transaction failed as it ran out of gas."), this, w)).
Proof.
  unfold getTransactionError. repeat split.
  - now intros ->.
  - now intros -> ->.
  - now intros -> -> ->.
Qed.

Lemma hexlify_ok n : 0 <= n < 0x1fffffffffffff -> exists block, hexlify n = Ok block.
Proof.
  intros Hn. unfold hexlify.
  destruct (Z.ltb_spec n 0); [lia|].
  destruct (Z.leb_spec 0x1fffffffffffff n); [lia | eauto].
Qed.

(** A failed transaction whose call is made: what is sent, and what
    happens to the reply. *)
Lemma getTransactionError_call parse this tx w :
  RegEx.transactionHash (hash tx) = true ->
  status tx = false ->
  gasUsed_is_gasLimit tx = false ->
  1 <= blockNumber tx <= 0x1fffffffffffff ->
  exists rq,
    Axios.method rq = "POST" /\ Axios.url rq = url this /\
    In ("id", JS.JsNumber (jsonRpcId this)) (Axios.params rq) /\
    In ("method", JS.JsString "eth_call") (Axios.params rq) /\
    getTransactionError parse this tx w
    = match Axios.pending w with
      | Axios.Resolve response :: rest =>
          (Ok (option_map NodeMessage (error_message response)), next_id this,
           {| Axios.pending := rest; Axios.sent := Axios.sent w ++ [rq];
              Axios.defaults_Authorization := Axios.defaults_Authorization w |})
      | Axios.Reject e :: rest =>
          (reasonOfError parse e, next_id this,
           {| Axios.pending := rest; Axios.sent := Axios.sent w ++ [rq];
              Axios.defaults_Authorization := Axios.defaults_Authorization w |})
      | [] =>
          (reasonOfError parse (Error "Network Error"), next_id this,
           {| Axios.pending := []; Axios.sent := Axios.sent w ++ [rq];
              Axios.defaults_Authorization := Axios.defaults_Authorization w |})
      end.
Proof.
  intros Hhash Hstatus Hgas Hblock.
  unfold getTransactionError. rewrite Hhash, Hstatus, Hgas. cbn [negb].
  destruct (hexlify_ok (blockNumber tx - 1) ltac:(lia)) as [block ->].
  unfold Axios.post, Axios.request.
  eexists. split; [|split; [|split; [|split]]].
  5:{ destruct (Axios.pending w) as [|[response|e] rest]; reflexivity. }
  - reflexivity.
  - reflexivity.
  - simpl. auto.
  - simpl. auto.
Qed.

(** X4. When the [eth_call] made for a failed transaction is answered,
    [getTransactionError] returns the [error.message] of the answer as it
    is, [undefined] when there is none, without decoding anything; one POST
    request has been sent to the client's url with the current id, and the
    id of the client has moved on by one. *)
Theorem getTransactionError_answered (parse : string -> result (option string))
    (this : Client) (tx : TransactionDetails) (w : Axios.World RpcResponse)
    (response : RpcResponse) (rest : list (Axios.Reply RpcResponse)) :
  RegEx.transactionHash (hash tx) = true ->
  status tx = false ->
  gasUsed_is_gasLimit tx = false ->
  1 <= blockNumber tx <= 0x1fffffffffffff ->
  Axios.pending w = Axios.Resolve response :: rest ->
  exists rq w',
    getTransactionError parse this tx w
    = (Ok (option_map NodeMessage (error_message response)), next_id this, w') /\
    Axios.pending w' = rest /\ Axios.sent w' = Axios.sent w ++ [rq] /\
    Axios.method rq = "POST" /\ Axios.url rq = url this /\
    In ("id", JS.JsNumber (jsonRpcId this)) (Axios.params rq) /\
    In ("method", JS.JsString "eth_call") (Axios.params rq).
Proof.
  intros Hhash Hstatus Hgas Hblock Hpend.
  destruct (getTransactionError_call parse this tx w Hhash Hstatus Hgas Hblock)
    as (rq & Hm & Hu & Hid & Hmeth & ->).
  rewrite Hpend.
  exists rq, {| Axios.pending := rest; Axios.sent := Axios.sent w ++ [rq];
                Axios.defaults_Authorization := Axios.defaults_Authorization w |}.
  repeat split; assumption.
Qed.

Lemma getTransactionError_answered_witness :
  exists rq w',
    getTransactionError parse_revert_json client failed_tx
      (rpc [Axios.Resolve {| error_message := Some "execution reverted";
                             result_ := None |}])
    = (Ok (option_map NodeMessage (Some "execution reverted")), next_id client, w') /\
    Axios.pending w' = [] /\ Axios.sent w' = [] ++ [rq] /\
    Axios.method rq = "POST" /\ Axios.url rq = url client /\
    In ("id", JS.JsNumber (jsonRpcId client)) (Axios.params rq) /\
    In ("method", JS.JsString "eth_call") (Axios.params rq).
Proof.
  apply (getTransactionError_answered parse_revert_json client failed_tx
           (rpc [Axios.Resolve {| error_message := Some "execution reverted";
                                  result_ := None |}])
           {| error_message := Some "execution reverted"; result_ := None |} []);
    try reflexivity; simpl; lia.
Defined.

(** X5. When the [eth_call] is rejected with a message made of
    [Node error: ] and a JSON text whose [data] is [Reverted 0x] or [0x]
    followed by the revert data of a reason, [getTransactionError] returns
    that reason. *)
Theorem getTransactionError_revert_reason (parse : string -> result (option string))
    (this : Client) (tx : TransactionDetails) (w : Axios.World RpcResponse)
    (e : JsError) (json : string) (reason : Ethers.text)
    (rest : list (Axios.Reply RpcResponse)) :
  RegEx.transactionHash (hash tx) = true ->
  status tx = false ->
  gasUsed_is_gasLimit tx = false ->
  1 <= blockNumber tx <= 0x1fffffffffffff ->
  Axios.pending w = Axios.Reject e :: rest ->
  message e = ("Node error: " ++ json)%string ->
  (parse json = Ok (Some ("Reverted 0x" ++ hex (encode reason))%string) \/
   parse json = Ok (Some ("0x" ++ hex (encode reason))%string)) ->
  well_formed_text reason ->
  Z.of_nat (length (utf8 reason)) < 2 ^ 256 ->
  exists w',
    getTransactionError parse this tx w = (Ok (Some (Decoded reason)), next_id this, w') /\
    Axios.pending w' = rest.
Proof.
  intros Hhash Hstatus Hgas Hblock Hpend Hmsg Hparse Hwf Hlen.
  destruct (getTransactionError_call parse this tx w Hhash Hstatus Hgas Hblock)
    as (rq & _ & _ & _ & _ & ->).
  rewrite Hpend.
  exists {| Axios.pending := rest; Axios.sent := Axios.sent w ++ [rq];
            Axios.defaults_Authorization := Axios.defaults_Authorization w |}.
  split; [|reflexivity]. do 2 f_equal.
  assert (Hdecode : parseReasonCode (hex (encode reason)) = Ok reason).
  { unfold encode. rewrite parseReasonCode_layout by (try apply bytes_ok_utf8; assumption).
    now apply getUtf8CodePoints_utf8. }
  unfold reasonOfError. rewrite Hmsg.
  replace (slice_from ("Node error: " ++ json) 12) with json
    by (symmetry; apply (slice_from_app "Node error: " json)).
  rewrite prefix_app.
  destruct Hparse as [-> | ->]; cbn [bind].
  - change (negb (JS.truthy (Some ("Reverted 0x" ++ hex (encode reason))%string)))
      with false. cbn iota.
    rewrite prefix_app.
    replace (slice_from ("Reverted 0x" ++ hex (encode reason)) 11) with (hex (encode reason))
      by (symmetry; apply (slice_from_app "Reverted 0x")).
    now rewrite Hdecode.
  - change (negb (JS.truthy (Some ("0x" ++ hex (encode reason))%string))) with false.
    cbn iota.
    change (String.prefix "Reverted 0x" ("0x" ++ hex (encode reason))) with false.
    rewrite prefix_app.
    replace (slice_from ("0x" ++ hex (encode reason)) 2) with (hex (encode reason))
      by (symmetry; apply (slice_from_app "0x")).
    now rewrite Hdecode.
Qed.

Lemma getTransactionError_revert_reason_witness :
  exists w',
    getTransactionError parse_revert_json client failed_tx
      (rpc [Axios.Reject (Error ("Node error: " ++ revert_json))])
    = (Ok (Some (Decoded (ascii_text "insufficient balance"))), next_id client, w') /\
    Axios.pending w' = [].
Proof.
  apply (getTransactionError_revert_reason parse_revert_json client failed_tx
           (rpc [Axios.Reject (Error ("Node error: " ++ revert_json))])
           (Error ("Node error: " ++ revert_json)) revert_json
           (ascii_text "insufficient balance") []); try reflexivity.
  - simpl. lia.
  - left. vm_compute. reflexivity.
Defined.

(** X6. When the [eth_call] is rejected with a message that does not start
    with [Node error: ], [getTransactionError] throws an [Error] that quotes
    that message; the request has been sent and the id has moved on. *)
Theorem getTransactionError_other_rejection (parse : string -> result (option string))
    (this : Client) (tx : TransactionDetails) (w : Axios.World RpcResponse)
    (e : JsError) (rest : list (Axios.Reply RpcResponse)) :
  RegEx.transactionHash (hash tx) = true ->
  status tx = false ->
  gasUsed_is_gasLimit tx = false ->
  1 <= blockNumber tx <= 0x1fffffffffffff ->
  Axios.pending w = Axios.Reject e :: rest ->
  String.prefix "Node error: " (message e) = false ->
  exists w',
    getTransactionError parse this tx w
    = (Throw (Error ("Failed to parse error message from Ethereum call: " ++ message e)),
       next_id this, w') /\
    Axios.pending w' = rest /\ length (Axios.sent w') = S (length (Axios.sent w)).
Proof.
  intros Hhash Hstatus Hgas Hblock Hpend Hmsg.
  destruct (getTransactionError_call parse this tx w Hhash Hstatus Hgas Hblock)
    as (rq & _ & _ & _ & _ & ->).
  rewrite Hpend.
  exists {| Axios.pending := rest; Axios.sent := Axios.sent w ++ [rq];
            Axios.defaults_Authorization := Axios.defaults_Authorization w |}.
  split; [|split; [reflexivity|]].
  - unfold reasonOfError. rewrite Hmsg. reflexivity.
  - simpl. rewrite length_app. simpl. lia.
Qed.

Lemma getTransactionError_other_rejection_witness :
  exists w',
    getTransactionError parse_revert_json client failed_tx
      (rpc [Axios.Reject (Error "connect ECONNREFUSED 127.0.0.1:8545")])
    = (Throw (Error ("Failed to parse error message from Ethereum call: "
                     ++ message (Error "connect ECONNREFUSED 127.0.0.1:8545"))),
       next_id client, w') /\
    Axios.pending w' = [] /\
    length (Axios.sent w')
    = S (length (Axios.sent
                   (rpc [Axios.Reject (Error "connect ECONNREFUSED 127.0.0.1:8545")]))).
Proof.
  apply (getTransactionError_other_rejection parse_revert_json client failed_tx
           (rpc [Axios.Reject (Error "connect ECONNREFUSED 127.0.0.1:8545")])
           (Error "connect ECONNREFUSED 127.0.0.1:8545") []);
    try reflexivity; simpl; lia.
Defined.

(** X7. For a failed transaction of block 0 (or of a block number that is
    negative or above [0x1fffffffffffff]) the number of the block before is
    rejected by [hexlify]: [getTransactionError] throws an [Error] about a
    message it failed to parse, without sending any request and without
    using up an id. *)
Theorem getTransactionError_no_block_before (parse : string -> result (option string))
    (this : Client) (tx : TransactionDetails) (w : Axios.World RpcResponse) :
  RegEx.transactionHash (hash tx) = true ->
  status tx = false ->
  gasUsed_is_gasLimit tx = false ->
  blockNumber tx <= 0 \/ 0x1fffffffffffff < blockNumber tx ->
  exists m,
    getTransactionError parse this tx w
    = (Throw (Error ("Failed to parse error message from Ethereum call: " ++ m)), this, w).
Proof.
  intros Hhash Hstatus Hgas Hblock.
  unfold getTransactionError. rewrite Hhash, Hstatus, Hgas. cbn [negb].
  unfold hexlify.
  destruct (Z.ltb_spec (blockNumber tx - 1) 0);
    destruct (Z.leb_spec 0x1fffffffffffff (blockNumber tx - 1));
    try (eexists; reflexivity).
  lia.
Qed.

Lemma getTransactionError_no_block_before_witness :
  exists m,
    getTransactionError parse_revert_json client genesis_tx (rpc [])
    = (Throw (Error ("Failed to parse error message from Ethereum call: " ++ m)),
       client, rpc []).
Proof.
  apply (getTransactionError_no_block_before parse_revert_json client genesis_tx (rpc []));
    try reflexivity; simpl; lia.
Defined.

End GethErrorsFacts.

(** ** More on the trace flattener *)

Module FlattenerMore.
Import Transaction GethClient CallTree FlattenerFacts DecoderFacts Coverage.

(** X8. The first trace of a well-formed call tree is the trace of the
    top-level call: its id and depth are 0, it has no parent, and its
    [delegatedFrom] is its own [from], the [from] of the call. *)
Theorem addTraces_root (c : CallResponse) :
  well_formed c ->
  exists s t,
    addTraces c 0 0 None empty_store = Ok (Z.of_nat (count c), s) /\
    read_traces s !! 0%nat = Some t /\
    Tr.id t = 0 /\ Tr.depth t = 0 /\ Tr.parentTrace t = None /\
    Tr.from t = Call.from c /\ Tr.delegatedFrom t = Call.from c.
Proof.
  intros Hwf.
  destruct (addTraces_spec c 0 0 None empty_store Hwf I)
    as (s & Hrun & (Htr & Hlen & _) & (parent & t0 & t & Hderef & Hnew & Ht & St)).
  simpl in *. injection Hderef as <-.
  exists s, t. rewrite read_traces_all by (now rewrite Htr, Hlen).
  destruct (same_object_fields _ _ St)
    as (Hid & _ & Hf & Hd & _ & _ & _ & _ & Hp & Hdep & _).
  destruct (newTrace_fields _ _ _ _ _ _ Hnew)
    as (Hid0 & _ & Hf0 & Hd0 & _ & Hp0 & _ & Hdep0 & _).
  simpl in Hd0.
  repeat split; try assumption; congruence.
Qed.

Lemma addTraces_root_witness :
  exists s t,
    addTraces two_level 0 0 None empty_store = Ok (Z.of_nat (count two_level), s) /\
    read_traces s !! 0%nat = Some t /\
    Tr.id t = 0 /\ Tr.depth t = 0 /\ Tr.parentTrace t = None /\
    Tr.from t = Call.from two_level /\ Tr.delegatedFrom t = Call.from two_level.
Proof. apply (addTraces_root two_level). reflexivity. Defined.

(** *** Numbers that cannot be read *)






(** *** Attribution without delegate calls *)

Lemma convertType_DelegateCall_inv c :
  convertType c = DelegateCall -> Call.type c = "DELEGATECALL".
Proof.
  unfold convertType.
  destruct (String.eqb_spec (Call.type c) "DELEGATECALL"); [auto|].
  destruct (Call.type c =? "STATICCALL")%string; [discriminate|].
  destruct ((Call.type c =? "CREATE") || (Call.type c =? "CREATE2"))%string; [discriminate|].
  destruct (Call.type c =? "SELFDESTRUCT")%string; discriminate.
Qed.

(** X10. In the traces of a well-formed call tree without any call of type
    DELEGATECALL, the [delegatedFrom] of every trace is the [from] of its
    call. *)
Theorem addTraces_without_delegatecall (c : CallResponse) :
  well_formed c ->
  forallb (fun n => negb (Call.type n =? "DELEGATECALL")%string) (nodes c) = true ->
  exists s,
    addTraces c 0 0 None empty_store = Ok (Z.of_nat (count c), s) /\
    forall k node t,
      nodes c !! k = Some node -> read_traces s !! k = Some t ->
      Tr.delegatedFrom t = Call.from node.
Proof.
  intros Hwf Hno.
  destruct (flatten_spec c Hwf) as (s & Hrun & Hread & Hlen & Hlk & Hnodes).
  exists s. split; [assumption|]. rewrite Hread. intros k node t Hk Ht.
  destruct (Hnodes k node Hk) as (t' & Ht' & Hb).
  assert (t' = t) by congruence. subst t'.
  destruct (built_for_fields _ _ _ Hb) as (_ & _ & Hfrom & _).
  specialize (Hlk k t Ht). unfold linked in Hlk.
  destruct (Tr.parentTrace t) as [p|]; [|congruence].
  destruct Hlk as (Hlt & pt & Hpt & _ & Hdel & _).
  assert (Hp : (p < count c)%nat) by (rewrite <- Hlen; eapply lookup_lt_Some; eauto).
  destruct (lookup_lt_is_Some_2 (nodes c) p Hp) as [pnode Hpnode].
  destruct (Hnodes p pnode Hpnode) as (pt' & Hpt' & Hpb).
  assert (pt' = pt) by congruence. subst pt'.
  destruct (built_for_fields _ _ _ Hpb) as (_ & Hty & _).
  rewrite Hdel, Hty, <- Hfrom.
  destruct (convertType pnode) eqn:E; try reflexivity.
  apply convertType_DelegateCall_inv in E.
  rewrite forallb_forall in Hno.
  assert (Hin : In pnode (nodes c)).
  { apply list_elem_of_In. eapply list_elem_of_lookup_2. eassumption. }
  specialize (Hno pnode Hin). rewrite E in Hno. discriminate.
Qed.

Lemma addTraces_without_delegatecall_witness :
  exists s,
    addTraces two_level 0 0 None empty_store = Ok (Z.of_nat (count two_level), s) /\
    forall k node t,
      nodes two_level !! k = Some node -> read_traces s !! k = Some t ->
      Tr.delegatedFrom t = Call.from node.
Proof. apply (addTraces_without_delegatecall two_level); reflexivity. Defined.

(** *** Function selectors *)

Lemma substring_split (s : string) (n : nat) :
  (n <= String.length s)%nat ->
  s = (substring 0 n s ++ substring n (String.length s - n) s)%string /\
  String.length (substring 0 n s) = n.
Proof.
  revert n. induction s as [|c s IH]; intros n Hn.
  - simpl in Hn. assert (n = 0%nat) by lia. subst. split; reflexivity.
  - destruct n as [|n].
    + simpl. split; [|reflexivity]. f_equal.
      destruct (IH 0%nat ltac:(lia)) as [H _]. simpl in H.
      rewrite Nat.sub_0_r in H.
      destruct s; simpl in *; [reflexivity | exact H].
    + simpl in Hn. destruct (IH n ltac:(lia)) as [H1 H2]. simpl.
      split; [now rewrite <- H1 | now rewrite H2].
Qed.

Lemma selector_spec (input : option string) :
  match input with
  | Some i =>
      if 10 <=? Z.of_nat (String.length i)
      then exists sel rest,
             selector input = Some sel /\ String.length sel = 10%nat /\
             i = (sel ++ rest)%string
      else selector input = None
  | None => selector input = None
  end.
Proof.
  destruct input as [i|]; [|reflexivity]. unfold selector.
  destruct (Z.leb_spec 10 (Z.of_nat (String.length i))) as [Hlen|Hlen]; [|reflexivity].
  destruct (substring_split i 10 ltac:(lia)) as [Hsplit Hl].
  exists (substring 0 10 i), (substring 10 (String.length i - 10) i).
  split; [|split; assumption]. f_equal.
  unfold JS.slice, JS.clamp. simpl (0 <? 0). simpl (10 <? 0). cbv iota.
  rewrite !Z.min_l by lia. reflexivity.
Qed.

Lemma same_object_inputs t t' :
  same_object t t' ->
  Tr.funcSelector t' = Tr.funcSelector t /\ Tr.inputs t' = Tr.inputs t /\
  Tr.outputs t' = Tr.outputs t.
Proof. intros [l ->]. repeat split. Qed.

(** X11. In the traces of a well-formed call tree, [inputs] is the [input]
    of the call, and [funcSelector] is defined exactly when that input has
    at least 10 characters; it is then its first 10 characters. *)
Theorem addTraces_funcSelector (c : CallResponse) :
  well_formed c ->
  exists s,
    addTraces c 0 0 None empty_store = Ok (Z.of_nat (count c), s) /\
    forall k node t,
      nodes c !! k = Some node -> read_traces s !! k = Some t ->
      Tr.inputs t = Call.input node /\
      match Call.input node with
      | Some i =>
          if 10 <=? Z.of_nat (String.length i)
          then exists sel rest,
                 Tr.funcSelector t = Some sel /\ String.length sel = 10%nat /\
                 i = (sel ++ rest)%string
          else Tr.funcSelector t = None
      | None => Tr.funcSelector t = None
      end.
Proof.
  intros Hwf.
  destruct (flatten_spec c Hwf) as (s & Hrun & Hread & _ & _ & Hnodes).
  exists s. split; [assumption|]. rewrite Hread. intros k node t Hk Ht.
  destruct (Hnodes k node Hk) as (t' & Ht' & (d & p & pt & t0 & Hnew & S)).
  assert (t' = t) by congruence. subst t'.
  destruct (same_object_inputs _ _ S) as (-> & -> & _).
  destruct (newTrace_fields _ _ _ _ _ _ Hnew)
    as (_ & _ & _ & _ & _ & _ & _ & _ & _ & -> & _ & ->).
  split; [reflexivity | apply selector_spec].
Qed.

Lemma addTraces_funcSelector_witness :
  exists s,
    addTraces transfer 0 0 None empty_store = Ok (Z.of_nat (count transfer), s) /\
    forall k node t,
      nodes transfer !! k = Some node -> read_traces s !! k = Some t ->
      Tr.inputs t = Call.input node /\
      match Call.input node with
      | Some i =>
          if 10 <=? Z.of_nat (String.length i)
          then exists sel rest,
                 Tr.funcSelector t = Some sel /\ String.length sel = 10%nat /\
                 i = (sel ++ rest)%string
          else Tr.funcSelector t = None
      | None => Tr.funcSelector t = None
      end.
Proof. apply (addTraces_funcSelector transfer). reflexivity. Defined.

(** *** Every call but the first has a parent *)

Lemma forEach_below_parent l :
  Forall below_parent l ->
  forall id depth r s n s',
    Forall well_formed l -> parent_ok (Some r) (depth + 1) (heap s) ->
    forEach_addTraces l id depth r s = Ok (n, s') ->
    forall k t, (length (heap s) <= k)%nat -> heap s' !! k = Some t ->
      is_Some (Tr.parentTrace t).
Proof.
  induction 1 as [|x l Hx Hl IH]; intros id depth r s n s' Hwf Hp Hrun k t Hk Ht.
  - simpl in Hrun. injection Hrun as ? ?. subst.
    apply lookup_lt_Some in Ht. lia.
  - inversion Hwf as [|? ? Hwx Hwl]; subst.
    destruct (addTraces_spec x id (depth + 1) (Some r) s Hwx Hp)
      as (s2 & Hrun2 & (_ & Hlen2 & Hev2 & _) & _).
    simpl in Hrun. rewrite Hrun2 in Hrun. cbn [bind] in Hrun.
    pose proof (parent_ok_evolves _ _ _ _ Hev2 Hp) as Hp2.
    destruct (decide (k < length (heap s2))%nat) as [Hlt|Hge].
    + destruct (lookup_lt_is_Some_2 (heap s2) k Hlt) as [t2 Ht2].
      pose proof (Hx id (depth + 1) r s _ s2 Hwx Hp Hrun2 k t2 Hk Ht2) as Hsome.
      destruct (forEach_addTraces_post l (Forall_impl _ _ _ Hl (fun c _ => addTraces_spec c))
                  (id + Z.of_nat (count x)) depth r s2 Hwl Hp2)
        as (s3 & Hrun3 & (_ & _ & Hev3 & _)).
      rewrite Hrun3 in Hrun. injection Hrun as <- <-.
      destruct (proj2 Hev3 k t2 Ht2) as (t3 & Ht3 & S).
      assert (t3 = t) by congruence. subst t3.
      destruct (same_object_fields _ _ S) as (_ & _ & _ & _ & _ & _ & _ & _ & -> & _).
      assumption.
    + eapply (IH _ depth r s2 n s' Hwl Hp2 Hrun); [|eassumption]. lia.
Qed.

Lemma addTraces_below_parent c : below_parent c.
Proof.
  induction c as [c IH] using CallResponse_tree_ind.
  intros id depth p s n s' Hwf Hp Hrun k t Hk Ht.
  destruct (addTraces_spec c id depth (Some p) s Hwf Hp)
    as (s3 & Hrun3 & _ & (parent & t0 & troot & _ & Hnew & Hroot & S)).
  assert (s3 = s') by congruence. subst s3.
  destruct (decide (k = length (heap s))) as [->|Hne].
  - assert (troot = t) by congruence. subst troot.
    destruct (same_object_fields _ _ S) as (_ & _ & _ & _ & _ & _ & _ & _ & -> & _).
    destruct (newTrace_fields _ _ _ _ _ _ Hnew) as (_ & _ & _ & _ & _ & -> & _). eauto.
  - apply well_formed_unfold in Hwf. destruct Hwf as [Hnum Hkids].
    rewrite addTraces_unfold in Hrun.
    destruct (deref_parent_ok _ _ _ Hp) as (parent' & Hderef & _).
    rewrite Hderef in Hrun. cbn [bind] in Hrun.
    destruct (newTrace_ok c id depth (Some p) parent' Hnum) as [t1 Hnew1].
    rewrite Hnew1 in Hrun. cbn [bind] in Hrun.
    eapply (forEach_below_parent (children c) IH _ _ _ _ _ _ Hkids _ Hrun); [|eassumption].
    cbn [heap]. rewrite link_child_length, length_app. simpl. lia.
    Unshelve.
    exists t1. split.
    + apply link_child_new. intros q [= <-]. destruct Hp as (pt & Hpt & _).
      now apply lookup_lt_Some in Hpt.
    + destruct (newTrace_fields _ _ _ _ _ _ Hnew1) as (_ & _ & _ & _ & _ & _ & _ & -> & _).
      reflexivity.
Qed.

(** X12. In the traces of a well-formed call tree the first trace is the
    only one without a parent: a trace has no [parentTrace] exactly when it
    is at position 0. *)
Theorem addTraces_single_root (c : CallResponse) :
  well_formed c ->
  exists s,
    addTraces c 0 0 None empty_store = Ok (Z.of_nat (count c), s) /\
    forall k t, read_traces s !! k = Some t ->
      (Tr.parentTrace t = None <-> k = 0%nat).
Proof.
  intros Hwf.
  destruct (addTraces_spec c 0 0 None empty_store Hwf I)
    as (s & Hrun & (Htr & Hlen & _) & (parent & t0 & troot & _ & Hnew & Hroot & Sroot)).
  exists s. split; [assumption|].
  rewrite read_traces_all by (simpl in *; now rewrite Htr, Hlen).
  simpl in Hroot. intros k t Ht. split.
  - intros Hnone. destruct k as [|k]; [reflexivity|]. exfalso.
    pose proof Hwf as Hwf'. apply well_formed_unfold in Hwf'. destruct Hwf' as [Hnum Hkids].
    pose proof Hrun as Hrun'. rewrite addTraces_unfold in Hrun'.
    simpl deref in Hrun'. cbn [bind] in Hrun'.
    destruct (newTrace_ok c 0 0 None None Hnum) as [t1 Hnew1].
    rewrite Hnew1 in Hrun'. cbn [bind] in Hrun'.
    assert (Hp : parent_ok (Some 0%nat) (0 + 1)
                   (heap {| heap := link_child None (length (heap empty_store))
                                      (heap empty_store ++ [t1]);
                            traces := traces empty_store ++ [length (heap empty_store)] |})).
    { exists t1. split; [reflexivity|].
      destruct (newTrace_fields _ _ _ _ _ _ Hnew1) as (_ & _ & _ & _ & _ & _ & _ & -> & _).
      reflexivity. }
    pose proof (forEach_below_parent (children c)
                  (Forall_impl _ _ _ (Forall_true _ _ (fun _ => I))
                     (fun c _ => addTraces_below_parent c))
                  _ _ _ _ _ _ Hkids Hp Hrun' (S k) t) as Hsome.
    destruct Hsome as [q Hq]; [simpl; lia | assumption | congruence].
  - intros ->. assert (troot = t) by congruence. subst troot.
    destruct (same_object_fields _ _ Sroot) as (_ & _ & _ & _ & _ & _ & _ & _ & -> & _).
    now destruct (newTrace_fields _ _ _ _ _ _ Hnew) as (_ & _ & _ & _ & _ & -> & _).
Qed.

Lemma addTraces_single_root_witness :
  exists s,
    addTraces two_level 0 0 None empty_store = Ok (Z.of_nat (count two_level), s) /\
    forall k t, read_traces s !! k = Some t ->
      (Tr.parentTrace t = None <-> k = 0%nat).
Proof. apply (addTraces_single_root two_level). reflexivity. Defined.

End FlattenerMore.

(** ** The trace request *)

Module TraceRequestFacts.
Import Transaction GethClient CallTree FlattenerFacts Coverage.

(** What [getTransactionTrace] does once the hash has been accepted: one
    request, then the reply is turned into traces or into a wrapped
    error. *)
Lemma getTransactionTrace_request this txHash w :
  RegEx.transactionHash txHash = true ->
  exists rq,
    Axios.method rq = "POST" /\ Axios.url rq = url this /\
    Axios.params rq
    = [("id", JS.JsNumber (jsonRpcId this)); ("jsonrpc", JS.JsString "2.0");
       ("method", JS.JsString "debug_traceTransaction");
       ("params", JS.JsString txHash)] /\
    getTransactionTrace this txHash w
    = (try_catch
         (match Axios.pending w with
          | Axios.Resolve response :: _ => traceOfResponse response
          | Axios.Reject e :: _ => Throw e
          | [] => Throw (Error "Network Error")
          end) (traceError this txHash),
       next_id this,
       {| Axios.pending := tail (Axios.pending w);
          Axios.sent := Axios.sent w ++ [rq];
          Axios.defaults_Authorization := Axios.defaults_Authorization w |}).
Proof.
  intros Hhash. unfold getTransactionTrace. rewrite Hhash. cbn [negb].
  unfold Axios.post, Axios.request.
  eexists. split; [|split; [|split]].
  4:{ destruct (Axios.pending w) as [|[response|e] rest]; reflexivity. }
  all: reflexivity.
Qed.

(** X13. With a well-formed hash, a reply without error message whose
    result is a well-formed call tree with a [from] makes
    [getTransactionTrace] return one trace per node of the tree, with the
    ids 0, 1, 2, ... in that order; one POST request with the method
    [debug_traceTransaction] and the current id has been sent to the
    client's url, and the id of the client has moved on by one. *)
Theorem getTransactionTrace_success (this : Client) (txHash : string)
    (w : Axios.World RpcResponse) (response : RpcResponse) (r : RpcResult)
    (rest : list (Axios.Reply RpcResponse)) :
  RegEx.transactionHash txHash = true ->
  Axios.pending w = Axios.Resolve response :: rest ->
  JS.truthy (error_message response) = false ->
  result_ response = Some r ->
  JS.truthy (Call.from (call r)) = true ->
  well_formed (call r) ->
  exists s rq,
    getTransactionTrace this txHash w
    = (Ok s, next_id this,
       {| Axios.pending := rest; Axios.sent := Axios.sent w ++ [rq];
          Axios.defaults_Authorization := Axios.defaults_Authorization w |}) /\
    length (read_traces s) = count (call r) /\
    map Tr.id (read_traces s) = map Z.of_nat (seq 0 (count (call r))) /\
    Axios.method rq = "POST" /\ Axios.url rq = url this /\
    In ("id", JS.JsNumber (jsonRpcId this)) (Axios.params rq) /\
    In ("method", JS.JsString "debug_traceTransaction") (Axios.params rq).
Proof.
  intros Hhash Hpend Herr Hres Hfrom Hwf.
  destruct (getTransactionTrace_request this txHash w Hhash) as (rq & Hm & Hu & Hp & ->).
  rewrite Hpend. cbn [tail].
  destruct (flatten_spec (call r) Hwf) as (s & Hrun & Hread & Hlen & _ & Hnodes).
  exists s, rq. unfold traceOfResponse. rewrite Herr, Hres, Hfrom, Hrun. cbn [bind try_catch].
  repeat split; try assumption; try (rewrite Hp; simpl; tauto).
  - now rewrite Hread.
  - rewrite Hread. apply list_eq. intros k. rewrite !list_lookup_fmap.
    destruct (decide (k < count (call r))%nat) as [Hlt|Hge].
    + rewrite lookup_seq_lt by assumption. simpl.
      destruct (lookup_lt_is_Some_2 (nodes (call r)) k Hlt) as [node Hnode].
      destruct (Hnodes k node Hnode) as (t & Ht & Hb). rewrite Ht. simpl.
      now destruct (built_for_fields _ _ _ Hb) as (-> & _).
    + rewrite lookup_seq_ge by lia.
      rewrite (proj2 (lookup_ge_None (heap s) k)) by lia. reflexivity.
Qed.

Lemma getTransactionTrace_success_witness :
  exists s rq,
    getTransactionTrace client Pages.example_hash (rpc [Axios.Resolve transfer_reply])
    = (Ok s, next_id client,
       {| Axios.pending := []; Axios.sent := [] ++ [rq];
          Axios.defaults_Authorization := None |}) /\
    length (read_traces s) = count transfer /\
    map Tr.id (read_traces s) = map Z.of_nat (seq 0 (count transfer)) /\
    Axios.method rq = "POST" /\ Axios.url rq = url client /\
    In ("id", JS.JsNumber (jsonRpcId client)) (Axios.params rq) /\
    In ("method", JS.JsString "debug_traceTransaction") (Axios.params rq).
Proof.
  apply (getTransactionTrace_success client Pages.example_hash
           (rpc [Axios.Resolve transfer_reply]) transfer_reply
           {| call := transfer; structLogs := false |} []); reflexivity.
Defined.







End TraceRequestFacts.

(** ** More on the revert-reason decoder *)

Module DecoderMore.
Import GethClient ErrorString ByteChecks DecoderFacts Coverage.

Lemma slice_to_end (a b : string) (stop : Z) :
  Z.of_nat (String.length a) + Z.of_nat (String.length b) <= stop ->
  JS.slice (a ++ b) (Some (Z.of_nat (String.length a))) (Some stop) = b.
Proof.
  intros Hstop. unfold JS.slice, JS.clamp. rewrite !length_append.
  destruct (Z.ltb_spec (Z.of_nat (String.length a)) 0) as [Ha|Ha]; [lia|].
  destruct (Z.ltb_spec stop 0) as [Hs|Hs]; [lia|].
  rewrite Z.min_l, Z.min_r by lia.
  replace (Z.max _ 0) with (Z.of_nat (String.length b)) by lia.
  rewrite !Nat2Z.id.
  rewrite <- (Nat.add_0_r (String.length a)), substring_skip.
  pose proof (substring_prefix b "") as H.
  replace (b ++ "")%string with b in H; [exact H|].
  clear. induction b as [|c b IH]; simpl; [reflexivity | now rewrite <- IH].
Qed.

(** Decoding reads the length word at digits 72 to 136 and the string
    bytes after it, and nothing else. *)
Lemma parseReasonCode_reads (head tail : string) (n : Z) (bytes : list Z) :
  String.length head = 72%nat ->
  bytes_ok bytes ->
  0 <= n < 2 ^ 256 ->
  (n = Z.of_nat (length bytes) \/ (tail = "" /\ Z.of_nat (length bytes) <= n)) ->
  parseReasonCode (head ++ hex (word n) ++ hex bytes ++ tail)
  = Ethers.getUtf8CodePoints bytes.
Proof.
  intros Hhead Hok Hn Hcase. unfold parseReasonCode.
  set (len := hex (word n)). set (str := hex bytes).
  assert (Hl : String.length len = 64%nat) by apply length_hex_word.
  assert (Hstr : String.length str = (2 * length bytes)%nat) by apply length_hex.
  assert (H1 : JS.slice (head ++ len ++ str ++ tail)%string (Some (8 + 64))
                 (Some (8 + 128)) = len).
  { pose proof (slice_middle head len (str ++ tail)) as H.
    rewrite Hhead, Hl in H. exact H. }
  rewrite H1.
  replace (JS.parseInt16 len) with (Some n) by (symmetry; now apply parseInt16_word).
  simpl option_map.
  assert (H2 : JS.slice (head ++ len ++ str ++ tail)%string (Some (8 + 128))
                 (Some (8 + 128 + n * 2)) = str).
  { destruct Hcase as [-> | [-> Hge]].
    - pose proof (slice_middle (head ++ len) str tail) as H.
      rewrite !length_append, Hhead, Hl, Hstr in H.
      rewrite !append_assoc in H.
      replace (Z.of_nat (2 * length bytes)) with (Z.of_nat (length bytes) * 2) in H by lia.
      exact H.
    - pose proof (slice_to_end (head ++ len) str (8 + 128 + n * 2)) as H.
      rewrite !length_append, Hhead, Hl, Hstr in H.
      rewrite !append_assoc in H.
      replace (str ++ "")%string with str
        by (clear; induction str as [|c s IH]; simpl; [reflexivity | now rewrite <- IH]).
      apply H. lia. }
  rewrite H2. unfold Ethers.toUtf8String. unfold str. rewrite arrayify_hex by assumption.
  reflexivity.
Qed.

(** X16. [parseReasonCode] never looks at the selector, at the offset word
    or at what follows the string bytes: whatever the first 72 digits and
    whatever comes after the string, a length word followed by the UTF-8
    form of a string decodes to that string. *)
Theorem parseReasonCode_ignores_selector (head tail : string) (reason : Ethers.text) :
  String.length head = 72%nat ->
  well_formed_text reason ->
  Z.of_nat (length (utf8 reason)) < 2 ^ 256 ->
  parseReasonCode
    (head ++ hex (word (Z.of_nat (length (utf8 reason)))) ++ hex (utf8 reason) ++ tail)
  = Ok reason.
Proof.
  intros Hhead Hwf Hlen.
  rewrite parseReasonCode_reads; try assumption.
  - now apply getUtf8CodePoints_utf8.
  - now apply bytes_ok_utf8.
  - lia.
  - now left.
Qed.

Lemma parseReasonCode_ignores_selector_witness :
  parseReasonCode
    (panic_head ++ hex (word (Z.of_nat (length (utf8 (ascii_text "paused")))))
     ++ hex (utf8 (ascii_text "paused")) ++ "deadbeef")
  = Ok (ascii_text "paused").
Proof.
  apply (parseReasonCode_ignores_selector panic_head "deadbeef" (ascii_text "paused"));
    reflexivity.
Defined.

(** X17. A length word that announces more bytes than the payload holds is
    not detected: the bytes that are there are decoded as if they were the
    whole string. *)
Theorem parseReasonCode_truncated (head : string) (n : Z) (reason : Ethers.text) :
  String.length head = 72%nat ->
  well_formed_text reason ->
  Z.of_nat (length (utf8 reason)) <= n < 2 ^ 256 ->
  parseReasonCode (head ++ hex (word n) ++ hex (utf8 reason)) = Ok reason.
Proof.
  intros Hhead Hwf Hn.
  pose proof (parseReasonCode_reads head "" n (utf8 reason) Hhead
                (bytes_ok_utf8 _ Hwf) ltac:(lia) ltac:(right; split; [reflexivity|lia])) as H.
  replace (hex (utf8 reason) ++ "")%string with (hex (utf8 reason)) in H
    by (clear; induction (hex (utf8 reason)) as [|c s IH]; simpl;
        [reflexivity | now rewrite <- IH]).
  rewrite H. now apply getUtf8CodePoints_utf8.
Qed.

Lemma parseReasonCode_truncated_witness :
  parseReasonCode (panic_head ++ hex (word 96) ++ hex (utf8 (ascii_text "paused")))
  = Ok (ascii_text "paused").
Proof.
  apply (parseReasonCode_truncated panic_head 96 (ascii_text "paused")).
  - reflexivity.
  - reflexivity.
  - split; [vm_compute; discriminate | reflexivity].
Defined.

End DecoderMore.

(** ** More on the indexer client *)

Module AlethioMore.
Import Transaction AlethioClient Pages AlethioFacts Requests.

Lemma set_apiKey_run (apiKey : option string) (w : Axios.World Response) :
  set_apiKey apiKey w
  = (Ok tt, {| Axios.pending := Axios.pending w; Axios.sent := Axios.sent w;
               Axios.defaults_Authorization := key_in_force apiKey w |}).
Proof.
  unfold set_apiKey, key_in_force. destruct w as [pend snt key].
  destruct apiKey as [k|]; [destruct (JS.truthy (Some k))|]; reflexivity.
Qed.

Lemma after_after (w : Axios.World Response) r1 r2 rest1 rest2 k1 k2 :
  after (after w r1 rest1 k1) r2 rest2 k2 = after w (r1 ++ r2) rest2 k2.
Proof. unfold after. simpl. now rewrite app_assoc. Qed.

(** X18. Whenever [getTransactionDetails] returns, the first message
    agrees with the details: it has id 0 and call depth 0, and its value,
    status and error are those of the details, which carry the hash asked
    for; exactly one request was sent, for that hash at what
    [alethioBaseUrls[network]] prints as (the URL of one of the four
    networks, and otherwise what the table inherits under that name or
    [undefined]), and one reply was read. *)
Theorem getTransactionDetails_first_message (txHash : string) (apiKey : option string)
    (network : string) (w w' : Axios.World Response)
    (details : TransactionDetails) (firstMessage : Message) :
  getTransactionDetails txHash apiKey network w = (Ok (details, firstMessage), w') ->
  hash details = txHash /\
  Msg.id firstMessage = 0 /\
  Msg.callDepth firstMessage = 0 /\
  Msg.value firstMessage = details_value details /\
  Msg.status firstMessage = details_status details /\
  Msg.error firstMessage = details_error details /\
  w' = after w [details_request network txHash (key_in_force apiKey w)]
         (tail (Axios.pending w)) (key_in_force apiKey w).
Proof.
  unfold getTransactionDetails.
  destruct (negb (RegEx.transactionHash txHash)); [discriminate|].
  unfold Axios.catch. unfold Axios.iobind at 1. rewrite set_apiKey_run.
  unfold Axios.iobind at 1. unfold Axios.get, Axios.request. cbn [Axios.pending
    Axios.sent Axios.defaults_Authorization].
  destruct (Axios.pending w) as [|[r|e] rest]; try discriminate.
  destruct (data r) as [|[a|] [rel|]|cms]; try discriminate.
  unfold Axios.lift.
  destruct (JS.BigInt (TxAttr.value a)) as [v|e]; [|discriminate].
  destruct (JS.BigInt (TxAttr.txGasPrice a)) as [gp|e]; [|discriminate].
  destruct (JS.BigInt (TxAttr.txGasUsed a)) as [gu|e]; [|discriminate].
  destruct (JS.BigInt (TxAttr.msgGasLimit a)) as [gl|e]; [|discriminate].
  cbn [bind]. intros [= <- <- <-]. repeat split.
Qed.

Lemma getTransactionDetails_first_message_witness :
  exists details firstMessage w',
    getTransactionDetails example_hash (Some "key") "kovan"
      (with_replies [Axios.Resolve details_reply])
    = (Ok (details, firstMessage), w') /\
    hash details = example_hash /\
    Msg.id firstMessage = 0 /\
    Msg.callDepth firstMessage = 0 /\
    Msg.value firstMessage = details_value details /\
    Msg.status firstMessage = details_status details /\
    Msg.error firstMessage = details_error details /\
    w' = after (with_replies [Axios.Resolve details_reply])
           [details_request "kovan" example_hash (Some "key")] [] (Some "key").
Proof.
  eexists _, _, _. split; [vm_compute; reflexivity|].
  apply (getTransactionDetails_first_message example_hash (Some "key") "kovan"
           (with_replies [Axios.Resolve details_reply])).
  vm_compute. reflexivity.
Defined.

(** *** The requests of the paginated fetch *)

Lemma try_resolve txHash cursor messages (w : Axios.World Response) p rest :
  Axios.pending w = Axios.Resolve p :: rest ->
  readable p = true ->
  getContractMessagesRecursive_try txHash cursor messages None "mainnet" w
  = (if hasNext p
     then match nextCursor p with
          | Ok c => Ok (inr (c, messages ++ records p))
          | Throw e => Throw (messagesError txHash e)
          end
     else Ok (inl (messages ++ records p)),
     after w [next_request txHash (Axios.defaults_Authorization w) cursor] rest
       (Axios.defaults_Authorization w)).
Proof.
  intros Hpend Hread.
  destruct (readable_inv p Hread) as (cms & Hdata & Hpush).
  unfold getContractMessagesRecursive_try, Axios.catch.
  unfold Axios.iobind at 1. rewrite set_apiKey_run.
  unfold Axios.iobind at 1. unfold Axios.get, Axios.request.
  cbn [Axios.pending Axios.sent Axios.defaults_Authorization].
  rewrite Hpend, Hdata. unfold Axios.iobind at 1, Axios.lift. rewrite Hpush.
  unfold key_in_force. cbn [JS.truthy].
  destruct (hasNext p); [|reflexivity].
  unfold Axios.iobind, Axios.lift, Axios.ret, Axios.throw.
  destruct (nextCursor p) as [c|e]; reflexivity.
Qed.

Lemma try_reject txHash cursor messages (w : Axios.World Response) e rest :
  Axios.pending w = Axios.Reject e :: rest ->
  getContractMessagesRecursive_try txHash cursor messages None "mainnet" w
  = (Throw (messagesError txHash e),
     after w [next_request txHash (Axios.defaults_Authorization w) cursor] rest
       (Axios.defaults_Authorization w)).
Proof.
  intros Hpend.
  unfold getContractMessagesRecursive_try, Axios.catch.
  unfold Axios.iobind at 1. rewrite set_apiKey_run.
  unfold Axios.iobind at 1. unfold Axios.get, Axios.request.
  cbn [Axios.pending Axios.sent Axios.defaults_Authorization].
  rewrite Hpend. reflexivity.
Qed.

Lemma continues_inv (p : Response) :
  continues p = true ->
  hasNext p = true /\ nextCursor p = Ok (cursor_of p) /\ JS.nonempty (cursor_of p) = true.
Proof.
  unfold continues, has_cursor, cursor_of, next_link, nextCursor, cursor_in.
  rewrite andb_true_iff. intros [Hn Hc].
  destruct (links p) as [l|]; [|discriminate].
  destruct (next l); [auto | discriminate].
Qed.

Lemma call_continue fuel txHash cursor messages (w : Axios.World Response) p rest :
  RegEx.transactionHash txHash = true ->
  JS.nonempty cursor = true ->
  Axios.pending w = Axios.Resolve p :: rest ->
  readable p = true ->
  continues p = true ->
  getContractMessagesRecursive_calls (S fuel) txHash cursor messages None "mainnet" w
  = getContractMessagesRecursive_calls fuel txHash (cursor_of p) (messages ++ records p)
      None "mainnet"
      (after w [next_request txHash (Axios.defaults_Authorization w) cursor] rest
         (Axios.defaults_Authorization w)).
Proof.
  intros Hhash Hcur Hpend Hread Hcont.
  destruct (continues_inv p Hcont) as (Hnext & Hc & _).
  cbn [getContractMessagesRecursive_calls]. rewrite Hhash, Hcur. cbn [negb].
  unfold Axios.iobind. rewrite (try_resolve _ _ _ _ _ _ Hpend Hread), Hnext, Hc.
  reflexivity.
Qed.

Lemma call_last fuel txHash cursor messages (w : Axios.World Response) p rest :
  RegEx.transactionHash txHash = true ->
  JS.nonempty cursor = true ->
  Axios.pending w = Axios.Resolve p :: rest ->
  readable p = true ->
  hasNext p = false ->
  getContractMessagesRecursive_calls (S fuel) txHash cursor messages None "mainnet" w
  = (Ok (messages ++ records p),
     after w [next_request txHash (Axios.defaults_Authorization w) cursor] rest
       (Axios.defaults_Authorization w)).
Proof.
  intros Hhash Hcur Hpend Hread Hnext.
  cbn [getContractMessagesRecursive_calls]. rewrite Hhash, Hcur. cbn [negb].
  unfold Axios.iobind. rewrite (try_resolve _ _ _ _ _ _ Hpend Hread), Hnext.
  reflexivity.
Qed.

Lemma call_reject fuel txHash cursor messages (w : Axios.World Response) e rest :
  RegEx.transactionHash txHash = true ->
  JS.nonempty cursor = true ->
  Axios.pending w = Axios.Reject e :: rest ->
  getContractMessagesRecursive_calls (S fuel) txHash cursor messages None "mainnet" w
  = (Throw (messagesError txHash e),
     after w [next_request txHash (Axios.defaults_Authorization w) cursor] rest
       (Axios.defaults_Authorization w)).
Proof.
  intros Hhash Hcur Hpend.
  cbn [getContractMessagesRecursive_calls]. rewrite Hhash, Hcur. cbn [negb].
  unfold Axios.iobind. rewrite (try_reject _ _ _ _ _ _ Hpend). reflexivity.
Qed.

Lemma last_cons {A : Type} (a d : A) (l : list A) :
  List.last (a :: l) d = List.last l a.
Proof.
  revert a d. induction l as [|b l IH]; intros a d; [reflexivity|].
  change (List.last (a :: b :: l) d) with (List.last (b :: l) d).
  now rewrite (IH b d), (IH b a).
Qed.

(** The further calls read the pages one after the other; each request
    carries the cursor of the page before. *)
Lemma recursive_pages (pages : list Response) :
  forall fuel txHash cursor messages (w : Axios.World Response) rest,
    RegEx.transactionHash txHash = true ->
    JS.nonempty cursor = true ->
    Axios.pending w = map Axios.Resolve pages ++ rest ->
    forallb readable pages = true ->
    forallb continues pages = true ->
    getContractMessagesRecursive_calls (length pages + fuel) txHash cursor messages
      None "mainnet" w
    = getContractMessagesRecursive_calls fuel txHash (List.last (map cursor_of pages) cursor)
        (messages ++ concat (map records pages)) None "mainnet"
        (after w (map (next_request txHash (Axios.defaults_Authorization w))
                    (List.removelast (cursor :: map cursor_of pages)))
           rest (Axios.defaults_Authorization w)).
Proof.
  induction pages as [|p pages IH];
    intros fuel txHash cursor messages w rest Hhash Hcur Hpend Hread Hcont.
  - simpl in *. rewrite app_nil_r. destruct w as [pend snt key]. simpl in *.
    unfold after. simpl. now rewrite app_nil_r, Hpend.
  - simpl in Hpend, Hread, Hcont.
    apply andb_true_iff in Hread. destruct Hread as [Hp Hread].
    apply andb_true_iff in Hcont. destruct Hcont as [Hpc Hcont].
    destruct (continues_inv p Hpc) as (_ & _ & Hne).
    cbn [length Nat.add].
    rewrite (call_continue _ _ _ _ _ _ _ Hhash Hcur Hpend Hp Hpc).
    rewrite (IH fuel txHash (cursor_of p) (messages ++ records p)
               (after w [next_request txHash (Axios.defaults_Authorization w) cursor]
                  (map Axios.Resolve pages ++ rest) (Axios.defaults_Authorization w))
               rest Hhash Hne eq_refl Hread Hcont).
    rewrite after_after. cbn [Axios.defaults_Authorization after].
    cbn [map concat]. rewrite <- app_assoc, last_cons. reflexivity.
Qed.

Lemma recursive_then (pages : list Response) (final : Axios.Reply Response)
    txHash cursor messages (w : Axios.World Response) rest :
  RegEx.transactionHash txHash = true ->
  JS.nonempty cursor = true ->
  Axios.pending w = map Axios.Resolve pages ++ final :: rest ->
  forallb readable pages = true ->
  forallb continues pages = true ->
  getContractMessagesRecursive txHash cursor messages None "mainnet" w
  = getContractMessagesRecursive_calls (S (S (length rest))) txHash
      (List.last (map cursor_of pages) cursor)
      (messages ++ concat (map records pages)) None "mainnet"
      (after w (map (next_request txHash (Axios.defaults_Authorization w))
                  (List.removelast (cursor :: map cursor_of pages)))
         (final :: rest) (Axios.defaults_Authorization w)).
Proof.
  intros Hhash Hcur Hpend Hread Hcont.
  unfold getContractMessagesRecursive.
  rewrite (getContractMessagesRecursive_fuel _ (length pages + S (S (length rest)))).
  - now apply recursive_pages.
  - lia.
  - rewrite Hpend, length_app, length_map. simpl. lia.
Qed.

Lemma cursors_all {A : Type} (c : A) (l : list A) :
  List.removelast (c :: l) ++ [List.last l c] = c :: l.
Proof.
  rewrite <- (last_cons c c l). symmetry. now apply app_removelast_last.
Qed.

Lemma last_cursor_nonempty (pages : list Response) (cursor : string) :
  JS.nonempty cursor = true ->
  forallb continues pages = true ->
  JS.nonempty (List.last (map cursor_of pages) cursor) = true.
Proof.
  revert cursor. induction pages as [|q pages IH]; intros cursor Hne Hcont;
    [exact Hne|].
  simpl in Hcont. apply andb_true_iff in Hcont. destruct Hcont as [Hq Hcont].
  cbn [map]. rewrite last_cons. apply IH; [|assumption].
  now destruct (continues_inv q Hq) as (_ & _ & ?).
Qed.

(** The further calls on pages that end with a last page. *)
Lemma recursive_success (pages : list Response) (last : Response)
    txHash cursor messages (w : Axios.World Response) rest :
  RegEx.transactionHash txHash = true ->
  JS.nonempty cursor = true ->
  Axios.pending w = map Axios.Resolve (pages ++ [last]) ++ rest ->
  forallb readable (pages ++ [last]) = true ->
  forallb continues pages = true ->
  hasNext last = false ->
  getContractMessagesRecursive txHash cursor messages None "mainnet" w
  = (Ok (messages ++ concat (map records (pages ++ [last]))),
     after w (map (next_request txHash (Axios.defaults_Authorization w))
                (cursor :: map cursor_of pages))
       rest (Axios.defaults_Authorization w)).
Proof.
  intros Hhash Hcur Hpend Hread Hcont Hlast.
  rewrite forallb_app in Hread. apply andb_true_iff in Hread.
  destruct Hread as [Hread Hl]. simpl in Hl. rewrite andb_true_r in Hl.
  rewrite map_app, <- app_assoc in Hpend. simpl in Hpend.
  rewrite (recursive_then pages (Axios.Resolve last) txHash cursor messages w rest
             Hhash Hcur Hpend Hread Hcont).
  erewrite call_last;
    [ | assumption | now apply last_cursor_nonempty | reflexivity | assumption | assumption ].
  rewrite after_after. cbn [after Axios.defaults_Authorization].
  rewrite map_app, concat_app. cbn [map concat]. rewrite app_nil_r, <- app_assoc.
  change [next_request txHash (Axios.defaults_Authorization w)
            (List.last (map cursor_of pages) cursor)]
    with (map (next_request txHash (Axios.defaults_Authorization w))
            [List.last (map cursor_of pages) cursor]).
  rewrite <- map_app, cursors_all. reflexivity.
Qed.

(** The further calls on pages that end with a rejected request. *)
Lemma recursive_rejected (pages : list Response) (e : JsError)
    txHash cursor messages (w : Axios.World Response) rest :
  RegEx.transactionHash txHash = true ->
  JS.nonempty cursor = true ->
  Axios.pending w = map Axios.Resolve pages ++ Axios.Reject e :: rest ->
  forallb readable pages = true ->
  forallb continues pages = true ->
  getContractMessagesRecursive txHash cursor messages None "mainnet" w
  = (Throw (messagesError txHash e),
     after w (map (next_request txHash (Axios.defaults_Authorization w))
                (cursor :: map cursor_of pages))
       rest (Axios.defaults_Authorization w)).
Proof.
  intros Hhash Hcur Hpend Hread Hcont.
  rewrite (recursive_then pages (Axios.Reject e) txHash cursor messages w rest
             Hhash Hcur Hpend Hread Hcont).
  erewrite call_reject;
    [ | assumption | now apply last_cursor_nonempty | reflexivity ].
  rewrite after_after. cbn [after Axios.defaults_Authorization].
  change [next_request txHash (Axios.defaults_Authorization w)
            (List.last (map cursor_of pages) cursor)]
    with (map (next_request txHash (Axios.defaults_Authorization w))
            [List.last (map cursor_of pages) cursor]).
  rewrite <- map_app, cursors_all. reflexivity.
Qed.

(** What [getContractMessages] does with the first reply, a readable
    page. *)
Lemma first_page txHash apiKey network (w : Axios.World Response) p rest :
  RegEx.transactionHash txHash = true ->
  Axios.pending w = Axios.Resolve p :: rest ->
  readable p = true ->
  getContractMessages txHash apiKey network w
  = let key := key_in_force apiKey w in
    let w1 := after w [first_request network txHash key] rest key in
    if hasNext p
    then match nextCursor p with
         | Ok c =>
             match getContractMessagesRecursive txHash c (records p) None "mainnet" w1 with
             | (Ok messages, w2) => (Ok (sort_by_id messages), w2)
             | (Throw e, w2) => (Throw (messagesError txHash e), w2)
             end
         | Throw e => (Throw (messagesError txHash e), w1)
         end
    else (Ok (sort_by_id (records p)), w1).
Proof.
  intros Hhash Hpend Hread.
  destruct (readable_inv p Hread) as (cms & Hdata & Hpush).
  unfold getContractMessages. rewrite Hhash. cbn [negb].
  unfold Axios.catch. unfold Axios.iobind at 1. rewrite set_apiKey_run.
  unfold Axios.iobind at 1. unfold Axios.get, Axios.request.
  cbn [Axios.pending Axios.sent Axios.defaults_Authorization].
  rewrite Hpend, Hdata. unfold Axios.iobind at 1, Axios.lift. rewrite Hpush.
  cbv zeta. fold (first_request network txHash (key_in_force apiKey w)).
  fold (after w [first_request network txHash (key_in_force apiKey w)] rest
          (key_in_force apiKey w)).
  destruct (hasNext p); [|reflexivity].
  unfold Axios.iobind at 1. unfold Axios.iobind at 1.
  destruct (nextCursor p) as [c|e]; [|reflexivity].
  match goal with |- context [getContractMessagesRecursive ?x1 ?x2 ?x3 ?x4 ?x5 ?x6] =>
    destruct (getContractMessagesRecursive x1 x2 x3 x4 x5 x6) as [[ms|err] w2] end;
    reflexivity.
Qed.

(** X19. The requests of a paginated fetch.  When the indexer answers
    with the readable pages [pages ++ [last]], each page of [pages] pointing
    to the next, [getContractMessages] returns messages and has sent one
    request per page and read nothing more: the first request goes to the
    URL found for the network asked for, and every further request goes to
    the main network, whatever network was asked for, with the cursor of
    the page before and the same page limit; all of them carry the API
    key. *)
Theorem getContractMessages_requests (pages : list Response) (last : Response)
    (txHash : string) (apiKey : option string) (network : string)
    (w : Axios.World Response) (rest : list (Axios.Reply Response)) :
  RegEx.transactionHash txHash = true ->
  Axios.pending w = map Axios.Resolve (pages ++ [last]) ++ rest ->
  forallb readable (pages ++ [last]) = true ->
  forallb continues pages = true ->
  hasNext last = false ->
  exists messages,
    getContractMessages txHash apiKey network w
    = (Ok messages,
       after w
         (first_request network txHash (key_in_force apiKey w)
          :: map (next_request txHash (key_in_force apiKey w)) (map cursor_of pages))
         rest (key_in_force apiKey w)).
Proof.
  intros Hhash Hpend Hread Hcont Hlast.
  destruct pages as [|p pages].
  - simpl in Hpend, Hread. rewrite andb_true_r in Hread.
    rewrite (first_page _ _ _ _ _ _ Hhash Hpend Hread). cbv zeta. rewrite Hlast.
    eexists. reflexivity.
  - simpl in Hpend, Hread, Hcont.
    apply andb_true_iff in Hread. destruct Hread as [Hp Hread].
    apply andb_true_iff in Hcont. destruct Hcont as [Hpc Hcont].
    destruct (continues_inv p Hpc) as (Hnext & Hc & Hne).
    rewrite (first_page _ _ _ _ _ _ Hhash Hpend Hp). cbv zeta. rewrite Hnext, Hc.
    erewrite (recursive_success pages last txHash (cursor_of p) (records p) _ rest);
      [ | assumption | assumption | reflexivity | assumption | assumption | assumption ].
    rewrite after_after. eexists. reflexivity.
Qed.

Lemma getContractMessages_requests_witness :
  exists messages,
    getContractMessages example_hash (Some "key") "kovan"
      (with_replies (map Axios.Resolve [page1; page2; page3]))
    = (Ok messages,
       after (with_replies (map Axios.Resolve [page1; page2; page3]))
         (first_request "kovan" example_hash (Some "key")
          :: map (next_request example_hash (Some "key")) (map cursor_of [page1; page2]))
         [] (Some "key")).
Proof.
  apply (getContractMessages_requests [page1; page2] page3 example_hash (Some "key")
           "kovan" (with_replies (map Axios.Resolve [page1; page2; page3])) []);
    reflexivity.
Defined.

(** A network that is not in the table but names a property every object
    inherits: the request goes to what the template literal prints for that
    property. *)
Example first_request_constructor :
  Axios.url (first_request "constructor" example_hash None)
  = ("function Object() { [native code] }/transactions/" ++ example_hash
     ++ "/contractMessages")%string /\
  Axios.url (details_request "ethereum" example_hash None)
  = ("undefined/transactions/" ++ example_hash)%string.
Proof. split; reflexivity. Qed.

(** X20. A request for a later page that is rejected.  When the first
    pages are readable and each points to the next, and the request that
    follows them is rejected with [e], [getContractMessages] throws [e]
    wrapped exactly twice, however many pages were read before: once by the
    call that made the request and once by [getContractMessages] itself,
    the calls in between adding nothing.  The records of the pages read so
    far are lost, and the replies after the rejection are not read. *)
Theorem getContractMessages_later_rejection (p : Response) (pages : list Response)
    (e : JsError) (txHash : string) (apiKey : option string) (network : string)
    (w : Axios.World Response) (rest : list (Axios.Reply Response)) :
  RegEx.transactionHash txHash = true ->
  Axios.pending w = map Axios.Resolve (p :: pages) ++ Axios.Reject e :: rest ->
  forallb readable (p :: pages) = true ->
  forallb continues (p :: pages) = true ->
  getContractMessages txHash apiKey network w
  = (Throw (VError
              (VError e ("Failed to get contract messages for transaction hash "
                         ++ txHash ++ " from Alethio"))
              ("Failed to get contract messages for transaction hash "
               ++ txHash ++ " from Alethio")),
     after w
       (first_request network txHash (key_in_force apiKey w)
        :: map (next_request txHash (key_in_force apiKey w)) (map cursor_of (p :: pages)))
       rest (key_in_force apiKey w)).
Proof.
  intros Hhash Hpend Hread Hcont.
  simpl in Hpend, Hread, Hcont.
  apply andb_true_iff in Hread. destruct Hread as [Hp Hread].
  apply andb_true_iff in Hcont. destruct Hcont as [Hpc Hcont].
  destruct (continues_inv p Hpc) as (Hnext & Hc & Hne).
  rewrite (first_page _ _ _ _ _ _ Hhash Hpend Hp). cbv zeta. rewrite Hnext, Hc.
  erewrite (recursive_rejected pages e txHash (cursor_of p) (records p) _ rest);
    [ | assumption | assumption | reflexivity | assumption | assumption ].
  rewrite after_after. reflexivity.
Qed.

Lemma getContractMessages_later_rejection_witness :
  getContractMessages example_hash None "mainnet"
    (with_replies [Axios.Resolve page1; Axios.Resolve page2;
                   Axios.Reject (Error "Request failed with status code 429");
                   Axios.Resolve page3])
  = (Throw (VError
              (VError (Error "Request failed with status code 429")
                 ("Failed to get contract messages for transaction hash "
                  ++ example_hash ++ " from Alethio"))
              ("Failed to get contract messages for transaction hash "
               ++ example_hash ++ " from Alethio")),
     after (with_replies [Axios.Resolve page1; Axios.Resolve page2;
                          Axios.Reject (Error "Request failed with status code 429");
                          Axios.Resolve page3])
       (first_request "mainnet" example_hash None
        :: map (next_request example_hash None) (map cursor_of [page1; page2]))
       [Axios.Resolve page3] None).
Proof.
  apply (getContractMessages_later_rejection page1 [page2]
           (Error "Request failed with status code 429") example_hash None "mainnet"
           (with_replies [Axios.Resolve page1; Axios.Resolve page2;
                          Axios.Reject (Error "Request failed with status code 429");
                          Axios.Resolve page3])
           [Axios.Resolve page3]);
    reflexivity.
Defined.

(** *** Records that cannot be read *)

Lemma pushAll_throws (cms : list ContractMessage) :
  forall (acc : list Message) (cm0 : ContractMessage) (e0 : JsError),
    In cm0 cms -> toMessage cm0 = Throw e0 ->
    exists cm e, In cm cms /\ toMessage cm = Throw e /\ pushAll acc cms = Throw e.
Proof.
  induction cms as [|cm cms IH]; intros acc cm0 e0 Hin H0; [destruct Hin|].
  simpl. destruct (toMessage cm) as [m|e] eqn:E.
  - destruct Hin as [-> | Hin]; [congruence|].
    destruct (IH (acc ++ [m]) cm0 e0 Hin H0) as (cm' & e' & Hin' & H' & Hpush).
    exists cm', e'. simpl. auto.
  - exists cm, e. simpl. auto.
Qed.

(** X21. One record that cannot be read spoils the page.  When the first
    reply holds an array in which some record has a number that [BigInt]
    rejects, [getContractMessages] returns no message at all: it throws
    the error of such a record, wrapped with the hash, after its single
    request; a further page that the reply points to is not fetched. *)
Theorem getContractMessages_unreadable_record (txHash : string)
    (apiKey : option string) (network : string) (w : Axios.World Response)
    (p : Response) (rest : list (Axios.Reply Response))
    (cms : list ContractMessage) (cm0 : ContractMessage) (e0 : JsError) :
  RegEx.transactionHash txHash = true ->
  Axios.pending w = Axios.Resolve p :: rest ->
  data p = ArrayData cms ->
  In cm0 cms ->
  toMessage cm0 = Throw e0 ->
  exists cm e,
    In cm cms /\ toMessage cm = Throw e /\
    getContractMessages txHash apiKey network w
    = (Throw (VError e ("Failed to get contract messages for transaction hash "
                        ++ txHash ++ " from Alethio")),
       after w [first_request network txHash (key_in_force apiKey w)] rest
         (key_in_force apiKey w)).
Proof.
  intros Hhash Hpend Hdata Hin H0.
  destruct (pushAll_throws cms [] cm0 e0 Hin H0) as (cm & e & Hin' & H' & Hpush).
  exists cm, e. split; [assumption|]. split; [assumption|].
  unfold getContractMessages. rewrite Hhash. cbn [negb].
  unfold Axios.catch. unfold Axios.iobind at 1. rewrite set_apiKey_run.
  unfold Axios.iobind at 1. unfold Axios.get, Axios.request.
  cbn [Axios.pending Axios.sent Axios.defaults_Authorization].
  rewrite Hpend, Hdata. unfold Axios.iobind at 1, Axios.lift. rewrite Hpush.
  reflexivity.
Qed.

Lemma getContractMessages_unreadable_record_witness :
  exists cm e,
    In cm [record 1 "CallContractMsg"; unreadable_record] /\
    toMessage cm = Throw e /\
    getContractMessages example_hash None "mainnet"
      (with_replies
         [Axios.Resolve (page [record 1 "CallContractMsg"; unreadable_record]
                           (Some "next=c1"));
          Axios.Resolve page3])
    = (Throw (VError e ("Failed to get contract messages for transaction hash "
                        ++ example_hash ++ " from Alethio")),
       after
         (with_replies
            [Axios.Resolve (page [record 1 "CallContractMsg"; unreadable_record]
                              (Some "next=c1"));
             Axios.Resolve page3])
         [first_request "mainnet" example_hash None] [Axios.Resolve page3] None).
Proof.
  apply (getContractMessages_unreadable_record example_hash None "mainnet"
           (with_replies
              [Axios.Resolve (page [record 1 "CallContractMsg"; unreadable_record]
                                (Some "next=c1"));
               Axios.Resolve page3])
           (page [record 1 "CallContractMsg"; unreadable_record] (Some "next=c1"))
           [Axios.Resolve page3]
           [record 1 "CallContractMsg"; unreadable_record] unreadable_record
           (SyntaxError "Cannot convert 1e18 to a BigInt")).
  - reflexivity.
  - reflexivity.
  - reflexivity.
  - simpl. auto.
  - reflexivity.
Defined.

(** *** The API key *)

Lemma ran_with_refl (w : Axios.World Response) :
  ran_with (Axios.defaults_Authorization w) w w.
Proof.
  split; [reflexivity|]. exists []. split; [now rewrite app_nil_r | constructor].
Qed.

Lemma ran_with_after (key : option string) (w w' : Axios.World Response) rq rest :
  ran_with key w w' ->
  Axios.authorization rq = key ->
  ran_with key w (after w' [rq] rest key).
Proof.
  intros (_ & rqs & Hsent & Hcarry) Hrq. split; [reflexivity|].
  exists (rqs ++ [rq]). split.
  - unfold after. simpl. now rewrite Hsent, app_assoc.
  - unfold carry in *. apply Forall_app. split; [assumption|]. now constructor.
Qed.

Lemma ran_with_trans (key : option string) (w w1 w2 : Axios.World Response) :
  ran_with key w w1 -> ran_with key w1 w2 -> ran_with key w w2.
Proof.
  intros (_ & rqs1 & Hsent1 & Hcarry1) (Hkey & rqs2 & Hsent2 & Hcarry2).
  split; [assumption|]. exists (rqs1 ++ rqs2). split.
  - now rewrite Hsent2, Hsent1, app_assoc.
  - unfold carry in *. apply Forall_app. now split.
Qed.

(** The [try] block of a call made without a key sends one request, with
    the default header, and leaves the header as it is. *)
Lemma try_world txHash cursor messages network (w : Axios.World Response) :
  exists rq rest,
    Axios.authorization rq = Axios.defaults_Authorization w /\
    snd (getContractMessagesRecursive_try txHash cursor messages None network w)
    = after w [rq] rest (Axios.defaults_Authorization w).
Proof.
  unfold getContractMessagesRecursive_try, Axios.catch.
  unfold Axios.iobind at 1. rewrite set_apiKey_run.
  unfold Axios.iobind at 1. unfold Axios.get, Axios.request.
  cbn [Axios.pending Axios.sent Axios.defaults_Authorization].
  unfold key_in_force. cbn [JS.truthy].
  destruct (Axios.pending w) as [|[r|e] rest];
    try (eexists _, _; split; [|reflexivity]; reflexivity).
  destruct (data r) as [| |cms];
    try (eexists _, _; split; [|reflexivity]; reflexivity).
  unfold Axios.iobind at 1, Axios.lift.
  destruct (pushAll [] cms) as [ms|e];
    try (eexists _, _; split; [|reflexivity]; reflexivity).
  destruct (hasNext r);
    try (eexists _, _; split; [|reflexivity]; reflexivity).
  unfold Axios.iobind, Axios.lift, Axios.ret, Axios.throw.
  destruct (nextCursor r) as [c|e];
    eexists _, _; (split; [|reflexivity]); reflexivity.
Qed.

Lemma calls_world (fuel : nat) :
  forall txHash cursor messages network (w : Axios.World Response),
    ran_with (Axios.defaults_Authorization w) w
      (snd (getContractMessagesRecursive_calls fuel txHash cursor messages None network w)).
Proof.
  induction fuel as [|fuel IH]; intros txHash cursor messages network w.
  - apply ran_with_refl.
  - cbn [getContractMessagesRecursive_calls].
    destruct (negb (RegEx.transactionHash txHash)); [apply ran_with_refl|].
    destruct (negb (JS.nonempty cursor)); [apply ran_with_refl|].
    unfold Axios.iobind.
    destruct (try_world txHash cursor messages network w) as (rq & rest & Hrq & Hw).
    destruct (getContractMessagesRecursive_try txHash cursor messages None network w)
      as [[[ms|[c ms]]|e] w1]; simpl in Hw; subst w1.
    + apply ran_with_after; [apply ran_with_refl | assumption].
    + eapply ran_with_trans.
      * apply (ran_with_after _ w w rq rest (ran_with_refl w) Hrq).
      * apply (IH txHash c ms "mainnet"
                 (after w [rq] rest (Axios.defaults_Authorization w))).
    + apply ran_with_after; [apply ran_with_refl | assumption].
Qed.

(** X22. The API key of a paginated fetch.  Past the check of the hash,
    and whatever the indexer answers, every request that
    [getContractMessages] sends carries the key in force (the [apiKey]
    given when it is a non-empty string, the default header already set
    otherwise), the requests for the further pages included, although the
    further calls are made without a key; and that key is left as the
    default [Authorization] header of later requests. *)
Theorem getContractMessages_key (txHash : string) (apiKey : option string)
    (network : string) (w : Axios.World Response) :
  RegEx.transactionHash txHash = true ->
  ran_with (key_in_force apiKey w) w (snd (getContractMessages txHash apiKey network w)).
Proof.
  intros Hhash.
  unfold getContractMessages. rewrite Hhash. cbn [negb].
  unfold Axios.catch. unfold Axios.iobind at 1. rewrite set_apiKey_run.
  unfold Axios.iobind at 1. unfold Axios.get, Axios.request.
  cbn [Axios.pending Axios.sent Axios.defaults_Authorization].
  set (key := key_in_force apiKey w).
  assert (Hfirst : forall rest,
             ran_with key w (after w [first_request network txHash key] rest key)).
  { intros rest. split; [reflexivity|].
    exists [first_request network txHash key]. split; [reflexivity|].
    constructor; [reflexivity | constructor]. }
  destruct (Axios.pending w) as [|[r|e] rest]; try apply Hfirst.
  destruct (data r) as [| |cms]; try apply Hfirst.
  unfold Axios.iobind at 1, Axios.lift.
  destruct (pushAll [] cms) as [ms|e]; try apply Hfirst.
  destruct (hasNext r); try apply Hfirst.
  unfold Axios.iobind at 1. unfold Axios.iobind at 1.
  destruct (nextCursor r) as [c|e]; try apply Hfirst.
  fold (first_request network txHash key).
  fold (after w [first_request network txHash key] rest key).
  pose proof (calls_world (S (length rest)) txHash c ms "mainnet"
                (after w [first_request network txHash key] rest key)) as Hrec.
  unfold getContractMessagesRecursive. cbn [after Axios.pending] in *.
  match goal with |- context [getContractMessagesRecursive_calls ?x1 ?x2 ?x3 ?x4 ?x5 ?x6 ?x7] =>
    destruct (getContractMessagesRecursive_calls x1 x2 x3 x4 x5 x6 x7) as [[ms'|err] w2] end;
    simpl in *; exact (ran_with_trans _ _ _ _ (Hfirst rest) Hrec).
Qed.

Lemma getContractMessages_key_witness :
  ran_with (Some "key")
    (with_replies (map Axios.Resolve [page1; page2; page3]))
    (snd (getContractMessages example_hash (Some "key") "kovan"
            (with_replies (map Axios.Resolve [page1; page2; page3])))).
Proof.
  apply (getContractMessages_key example_hash (Some "key") "kovan"
           (with_replies (map Axios.Resolve [page1; page2; page3]))).
  reflexivity.
Defined.

End AlethioMore.
